(* ===== verification/_CoqProject ===== *)
-Q . S2P
Prelude.v
Json.v
Js.v
JsonParse.v
JsonFuel.v
ChangeDetector.v
JsonRoundtrip.v
FormEngine.v
SurveyJs.v
Page.v
ValueStore.v
Controller.v
Mutators.v
Bridge.v
Protocol.v
SurveyData.v
Lifecycle.v
Legacy.v
