(* ===== verification/Prelude.v ===== *)
(** * ShinySurveyJS: a verification development of the survey synchronisation engine

    The repository drives SurveyJS forms from an R/Shiny server.  Its browser
    side is [src/www/survey.js] (the engine) and the older, superseded
    [src/www/_survey.js].  The engine keeps one live survey (a SurveyJS
    [Survey.Model]) in step with three kinds of server messages and keeps
    the answers a user gave across re-creations of the survey.  Both files
    are modelled.

    ** Files, and the part of the program each models

    - [Prelude.v] (this file): the state and exception monad [St S E] in
      which the code runs ([try ... catch] is [try_catch]), the relations
      a computation keeps ([preserves], [keeps], and [returns] for what
      it completes with) with their tactics ([keeps_go] walks an
      operation down to the primitive steps of the hint database
      [frame]), and
      list helpers ([find_index] is [Array.prototype.findIndex]).
    - [Json.v]: JSON values, JS object property order (array-index keys
      first, then insertion order) and [JSON.stringify].  [Js.v]: the exceptions, truthiness,
      SameValueZero and [Array.prototype.includes], property access on a
      payload (which throws on [null]), [String(x)], the underscore
      [replace] and the attribute selector the mutators build.
      [JsonParse.v]: [JSON.parse] on the texts a Shiny message carries;
      [JsonFuel.v]: its fuel is never what stops a parse.
    - [ChangeDetector.v]: the Definition Change Detector [areJSONsEqual]
      ([survey.js] lines 6-8) and the injectivity of [JSON.stringify].
      [JsonRoundtrip.v]: [JSON.parse] reads back what [JSON.stringify]
      writes.
    - [FormEngine.v]: SurveyJS itself is an external library; the
      [FormEngine] type class is the contract the code relies on (how a
      definition becomes questions and default answers, an object with
      distinct keys, when a value change
      is reported, which questions a render pass visits).  The records
      [question] and [instance] are the question registry and the survey
      data the code reads and writes ([getQuestionByName], [question.value],
      [displayValue], [choices]).  Every theorem about the code is proved
      for all instances of the class; [SurveyJs.v] gives one concrete
      instance, used by the witnesses and the scenarios.
    - [Page.v]: the record [page] holds the globals of [survey.js]
      ([survey], [lastLoadedSurveyJSON], the Value Store [questionValues]
      as a [gmap string (option json)], [None] being a stored [undefined]),
      [document.title], what [#surveyContainer] shows, the global
      [Survey.settings.dropdown], a counter of engine instances and the
      list of observable effects (console output, [Shiny.setInputValue],
      DOM events, renders).  It also holds the [onValueChanged] handler
      (lines 84-97), the engine's value setter that fires it, and the
      invariant [page_inv] with the frame relations of in-place updates.
    - [ValueStore.v]: [preserveQuestionValues] and [restoreQuestionValues]
      (lines 10-35).  [Controller.v]: [updateDocumentTitle] and
      [initializeSurvey] with its [onComplete] and [onAfterRenderQuestion]
      handlers and render pass (lines 37-127).  [Mutators.v]: the
      [updateText] and [updateChoices] handlers (lines 134-219).
    - [Bridge.v]: the Shiny message handlers (lines 129-132 and the two
      mutators) and the user's events as one deterministic [step] on
      [page], handled one at a time in delivery order; [reachable] pages by
      rule induction.  [Protocol.v]: the values sent with
      [Shiny.setInputValue] and the shapes the server reads.
      [SurveyData.v]: the path of an answer from the screen to the
      server.
      [Lifecycle.v]: the specification's survey lifecycle as an abstract
      two-state machine ([Empty], [Loaded d]) and the abstraction of a
      page onto it.  [Legacy.v]: [_survey.js] (its [initializeSurvey], its
      two message handlers and its dispatch) on the same state.

    ** What the theorems show

    - Change Detector ([ChangeDetector.v]): [areJSONsEqual] holds exactly
      for equal values, object keys compared in order.
    - Lifecycle ([Controller.v]): identical definitions are loaded once;
      answers survive a rebuild in every question with the same name;
      [initializeSurvey] never throws; a definition sent as text acts as
      the object once parsed; a render pass never changes an answer; the
      error paths (malformed text, engine failure) and what they still
      change.
    - Invariant ([Bridge.v]): every reachable page has its handlers
      registered, a store that agrees with the live survey's data, fresh
      instance identities and a container that shows the live survey or
      nothing; no step ever deletes a store entry; a user's answer is
      recorded and sent as [selectedChoice]; completion sends the data as
      [surveyData]; at most one instance is built per [loadSurvey]
      message (bounds).
    - Protocol ([Protocol.v]): every input a session sends is
      [surveyData] holding a JSON text of an object or [selectedChoice]
      holding [{fieldName, selected?}] (a typing of the outbound channel).
    - Survey data ([SurveyData.v]): an answer given on screen and followed by
      completion is in the object the server decodes from [surveyData]
      (a composition of the Bridge, the engine's setter, [onComplete]
      and the JSON encoder and decoder).
    - Refinement ([Lifecycle.v]): the Bridge's [run] from the initial page,
      seen through the abstraction [lc_abs], is the abstract lifecycle
      machine [lc_next] run on the same events.
    - Value Store ([ValueStore.v]): a preserve pass, a fresh instance and
      a restore pass give every answered question the fresh survey also
      has its old answer back, whatever the fresh defaults (roundtrip).
    - Mutators ([Mutators.v]): [updateChoices] never changes an answer and
      replaces the target's choices by the labelled items; [updateText]
      sets the value; the no-op branches; the [TypeError] a non-string
      choice raises and the [SyntaxError] a quote or line break in a
      name raises.  The specification's scenarios are evaluated as
      examples (they are tests, not theorems).
    - Legacy ([Legacy.v]): every load resets the answers to the defaults;
      on a fresh page the current load builds the survey the legacy load
      (the reference) builds, from every payload but [null]; on [null]
      the current script fails on [null.title] while the legacy one
      builds the survey.

    ** Bounds and fuel

    [JSON_parse s] runs with fuel [S (length s)]: every nested call of the
    parser first consumes a character of [s].  [JsonFuel.v] proves that a
    parse that succeeds with some fuel succeeds with any fuel at least the
    number of characters it consumes, so this fuel never turns a valid
    text into a syntax error ([Controller.parse_if_string_fuel], a
    termination result); [JsonRoundtrip.v] proves it enough for the
    encoding of every value ([JSON_parse_stringify]).  The panels of a definition are flattened
    with fuel [json_depth j], which strictly exceeds the nesting depth of
    every panel of [j].  No integer width matters: numbers are [Z], and
    [JSON.parse] accepts integers only (a fraction or exponent is
    rejected, which no definition the tests send contains).

    ** Not modelled

    The Shiny transport and the R server (messages arrive as decoded JSON
    values), the rendering internals of SurveyJS beyond the [FormEngine]
    contract, the DOM beyond the elements the handlers look up and the
    events they dispatch (the engine's reaction to a dispatched [change]
    or [input] event, which writes the element's string back as the
    value, is not modelled: for a string text or choice it is the value
    already set), console formatting, and functions in payloads
    (a decoded message holds none, so [data.callback] is never callable).
    Re-entrant calls cannot occur: no handler calls back into the code.
    [question.displayValue] is written as a field; SurveyJS may expose it
    as a read-only getter, in which case the writes of lines 29, 106, 153
    and 206 do nothing; no theorem reads the display value back, but the
    exact pages some theorems state include it.  The
    title read back by [document.title] collapses whitespace; the model
    keeps [String(v)] as assigned, which the code never reads.
    The [$(document).ready] wrappers of both files only delay the
    registrations until the document exists and are not modelled as a
    step; [_survey.js]'s own [var survey] is the [survey] field of the
    same [page] record. *)

From stdpp Require Export base list gmap strings.
From Stdlib Require Export ZArith String Ascii Lia.

Declare Scope js_scope.
Delimit Scope js_scope with js.

(** ** Outcomes and the state-and-exception monad

    A JavaScript statement either completes normally with a value or throws;
    in both cases the side effects performed before the throw remain.  A
    computation is therefore a function from a state to the new state and
    an [outcome]. *)

Inductive outcome (E A : Type) : Type :=
| Ok (a : A)
| Throw (e : E).
Arguments Ok {E A} a.
Arguments Throw {E A} e.

Definition St (S E A : Type) : Type := S -> S * outcome E A.

Section Monad.
Context {S E : Type}.

Definition ret {A} (a : A) : St S E A := fun s => (s, Ok a).

Definition bind {A B} (m : St S E A) (k : A -> St S E B) : St S E B :=
  fun s => match m s with
           | (s', Ok a) => k a s'
           | (s', Throw e) => (s', Throw e)
           end.

Definition get : St S E S := fun s => (s, Ok s).
Definition put (s : S) : St S E unit := fun _ => (s, Ok tt).
Definition modify (f : S -> S) : St S E unit := fun s => (f s, Ok tt).
Definition throw {A} (e : E) : St S E A := fun s => (s, Throw e).

(** [try { m } catch (e) { h(e) }]: the handler runs in the state the
    throw left behind. *)
Definition try_catch {A} (m : St S E A) (h : E -> St S E A) : St S E A :=
  fun s => match m s with
           | (s', Ok a) => (s', Ok a)
           | (s', Throw e) => h e s'
           end.

(** [xs.forEach(f)] *)
Fixpoint for_each {A} (xs : list A) (f : A -> St S E unit) : St S E unit :=
  match xs with
  | [] => ret tt
  | x :: xs' => bind (f x) (fun _ => for_each xs' f)
  end.
End Monad.

Notation "x <- m ;; k" := (bind m (fun x => k))
  (at level 100, m at next level, right associativity) : js_scope.
Notation "m ;; k" := (bind m (fun _ => k))
  (at level 100, right associativity) : js_scope.

Open Scope js_scope.

(** ** Monad laws and running lemmas *)

Section MonadLaws.
Context {S E : Type}.

Lemma bind_ret_l {A B} (a : A) (k : A -> St S E B) : bind (ret a) k = k a.
Proof. reflexivity. Qed.

Lemma bind_ret_r {A} (m : St S E A) s : bind m ret s = m s.
Proof. unfold bind, ret. by destruct (m s) as [? []]. Qed.

Lemma bind_assoc {A B C} (m : St S E A) (k : A -> St S E B) (h : B -> St S E C) s :
  bind (bind m k) h s = bind m (fun a => bind (k a) h) s.
Proof. unfold bind. by destruct (m s) as [? []]. Qed.

Lemma bind_get {B} (k : S -> St S E B) s : bind get k s = k s s.
Proof. reflexivity. Qed.

Lemma bind_modify {B} (f : S -> S) (k : unit -> St S E B) s : bind (modify f) k s = k tt (f s).
Proof. reflexivity. Qed.

Lemma bind_put {B} (s1 : S) (k : unit -> St S E B) s : bind (put s1) k s = k tt s1.
Proof. reflexivity. Qed.

Lemma bind_throw {A B} (e : E) (k : A -> St S E B) s : bind (throw e) k s = (s, Throw e).
Proof. reflexivity. Qed.

Lemma bind_run_ok {A B} (m : St S E A) (k : A -> St S E B) s s' a :
  m s = (s', Ok a) -> bind m k s = k a s'.
Proof. unfold bind. by intros ->. Qed.

Lemma bind_run_throw {A B} (m : St S E A) (k : A -> St S E B) s s' e :
  m s = (s', Throw e) -> bind m k s = (s', Throw e).
Proof. unfold bind. by intros ->. Qed.

Lemma try_catch_run_ok {A} (m : St S E A) h s s' a :
  m s = (s', Ok a) -> try_catch m h s = (s', Ok a).
Proof. unfold try_catch. by intros ->. Qed.

Lemma try_catch_run_throw {A} (m : St S E A) h s s' e :
  m s = (s', Throw e) -> try_catch m h s = h e s'.
Proof. unfold try_catch. by intros ->. Qed.

Lemma for_each_app {A} (xs ys : list A) (f : A -> St S E unit) s :
  for_each (xs ++ ys) f s = bind (for_each xs f) (fun _ => for_each ys f) s.
Proof.
  revert s. induction xs as [|x xs IH]; intros s; simpl; [done|].
  rewrite bind_assoc. unfold bind. destruct (f x s) as [s1 [[]|e]]; [|done].
  apply IH.
Qed.

(** A loop whose body never throws and keeps a property [P] of the state
    never throws and keeps [P]. *)
Lemma for_each_preserves {A} (P : S -> Prop) (xs : list A) (f : A -> St S E unit) :
  (forall x s, P s -> exists s', f x s = (s', Ok tt) /\ P s') ->
  forall s, P s -> exists s', for_each xs f s = (s', Ok tt) /\ P s'.
Proof.
  intros Hf. induction xs as [|x xs IH]; intros s Hs; simpl; [by exists s|].
  destruct (Hf x s Hs) as (s1 & E1 & H1). rewrite (bind_run_ok _ _ _ _ _ E1). auto.
Qed.
End MonadLaws.

(** ** Computations that never throw and relate the states a preorder

    [preserves R m]: from every state, [m] completes normally and the new
    state is [R]-related to the old one.  With [R] a preorder, sequences,
    loops and reads of the state compose. *)

Section Preserves.
Context {S E : Type} (R : S -> S -> Prop) `{!PreOrder R}.

Definition preserves (m : St S E unit) : Prop :=
  forall s, exists s', m s = (s', Ok tt) /\ R s s'.

Lemma preserves_ret : preserves (ret tt).
Proof. intros s. exists s. split; [done|reflexivity]. Qed.

Lemma preserves_bind (m : St S E unit) (k : unit -> St S E unit) :
  preserves m -> (forall u, preserves (k u)) -> preserves (bind m k).
Proof.
  intros Hm Hk s. destruct (Hm s) as (s1 & E1 & R1).
  destruct (Hk tt s1) as (s2 & E2 & R2). exists s2. split.
  - by rewrite (bind_run_ok _ _ _ _ _ E1).
  - by transitivity s1.
Qed.

Lemma preserves_get (k : S -> St S E unit) :
  (forall s, exists s', k s s = (s', Ok tt) /\ R s s') -> preserves (bind get k).
Proof. intros Hk s. apply (Hk s). Qed.

Lemma preserves_get_dep (k : S -> St S E unit) :
  (forall s0, preserves (k s0)) -> preserves (bind get k).
Proof. intros Hk s. apply (Hk s s). Qed.

Lemma preserves_modify (f : S -> S) : (forall s, R s (f s)) -> preserves (modify f).
Proof. intros Hf s. by exists (f s). Qed.

Lemma preserves_for_each {A} (xs : list A) (f : A -> St S E unit) :
  (forall x, In x xs -> preserves (f x)) -> preserves (for_each xs f).
Proof.
  induction xs as [|x xs IH]; intros Hf; simpl; [apply preserves_ret|].
  apply preserves_bind; [apply Hf; by left|]. intros _. apply IH. intros y Hy. apply Hf. by right.
Qed.

(** The first computation run from a known state, the rest from anywhere. *)
Lemma preserves_bind_at (m : St S E unit) (k : unit -> St S E unit) s s1 :
  m s = (s1, Ok tt) -> R s s1 -> preserves (k tt) ->
  exists s', bind m k s = (s', Ok tt) /\ R s s'.
Proof.
  intros E1 R1 Hk. destruct (Hk s1) as (s2 & E2 & R2). exists s2.
  rewrite (bind_run_ok _ _ _ _ _ E1). split; [done|by transitivity s1].
Qed.

Lemma preserves_try_catch (m : St S E unit) h : preserves m -> preserves (try_catch m h).
Proof. intros Hm s. destruct (Hm s) as (s' & E' & R'). exists s'. by rewrite (try_catch_run_ok _ _ _ _ _ E'). Qed.
End Preserves.

(** [keeps R m]: whether [m] completes or throws, the state it leaves is
    [R]-related to the one it started from. *)
Section Keeps.
Context {S E : Type} (R : S -> S -> Prop) `{!PreOrder R}.

Definition keeps {A} (m : St S E A) : Prop := forall s, R s (fst (m s)).

Lemma keeps_ret {A} (a : A) : keeps (ret a).
Proof. intros s. simpl. reflexivity. Qed.

Lemma keeps_throw {A} (e : E) : keeps (A := A) (throw e).
Proof. intros s. simpl. reflexivity. Qed.

Lemma keeps_bind {A B} (m : St S E A) (k : A -> St S E B) :
  keeps m -> (forall a, keeps (k a)) -> keeps (bind m k).
Proof.
  intros Hm Hk s. unfold bind. specialize (Hm s). destruct (m s) as [s1 [a|e]]; simpl in *; [|done].
  transitivity s1; [done|apply Hk].
Qed.

Lemma keeps_get_dep {B} (k : S -> St S E B) : (forall s0, keeps (k s0)) -> keeps (bind get k).
Proof. intros Hk s. apply (Hk s s). Qed.

Lemma keeps_get {B} (k : S -> St S E B) : (forall s, R s (fst (k s s))) -> keeps (bind get k).
Proof. intros Hk s. apply (Hk s). Qed.

Lemma keeps_preserves (m : St S E unit) : preserves R m -> keeps m.
Proof. intros Hm s. destruct (Hm s) as (s' & -> & Hr). done. Qed.

Lemma keeps_get_state : keeps get.
Proof. intros s. simpl. reflexivity. Qed.

Lemma keeps_put (s1 : S) : (forall s, R s s1) -> keeps (put s1).
Proof. intros Hs s. apply Hs. Qed.

Lemma keeps_modify (f : S -> S) : (forall s, R s (f s)) -> keeps (modify f).
Proof. intros Hf s. apply Hf. Qed.

Lemma keeps_try_catch {A} (m : St S E A) h : keeps m -> (forall e, keeps (h e)) -> keeps (try_catch m h).
Proof.
  intros Hm Hh s. unfold try_catch. specialize (Hm s). destruct (m s) as [s1 [a|e]]; simpl in *; [done|].
  transitivity s1; [done|apply Hh].
Qed.

Lemma keeps_for_each {A} (xs : list A) (f : A -> St S E unit) :
  (forall x, keeps (f x)) -> keeps (for_each xs f).
Proof. intros Hf. induction xs as [|x xs IH]; simpl; [apply keeps_ret|by apply keeps_bind]. Qed.

(** [returns Q m]: every value [m] completes with satisfies [Q]. *)
Definition returns {A} (Q : A -> Prop) (m : St S E A) : Prop :=
  forall s, match snd (m s) with Ok a => Q a | Throw _ => True end.

(** The continuation may rely on what the first computation returned. *)
Lemma keeps_bind_post {A B} (Q : A -> Prop) (m : St S E A) (k : A -> St S E B) :
  keeps m -> returns Q m -> (forall a, Q a -> keeps (k a)) -> keeps (bind m k).
Proof.
  intros Hm HQ Hk s. unfold bind. specialize (Hm s). specialize (HQ s).
  destruct (m s) as [s1 [a|e]]; simpl in *; [|done]. transitivity s1; [done|by apply Hk].
Qed.
End Keeps.

(** Run a pure outcome: [lift (Ok a)] returns [a], [lift (Throw e)] throws. *)
Definition lift {S E A} (o : outcome E A) : St S E A := fun s => (s, o).


Lemma keeps_lift {S E A} (R : S -> S -> Prop) `{!PreOrder R} (o : outcome E A) : keeps R (lift o).
Proof. intros s. simpl. reflexivity. Qed.

Lemma bind_lift_ok {S E A B} (a : A) (k : A -> St S E B) s : bind (lift (Ok a)) k s = k a s.
Proof. reflexivity. Qed.

Lemma bind_lift_throw {S E A B} (e : E) (k : A -> St S E B) s : bind (lift (Throw e)) k s = (s, Throw e).
Proof. reflexivity. Qed.

Ltac kseq := apply keeps_bind; [typeclasses eauto| |].
Ltac klift := apply keeps_lift; typeclasses eauto.
Ltac kret := apply keeps_ret; typeclasses eauto.

(** Split [preserves R (m ;; k)] into its two halves. *)
Ltac pseq := apply preserves_bind; [typeclasses eauto| |intros ?].
Ltac pret := apply preserves_ret; typeclasses eauto.
Ltac ploop := apply preserves_for_each; [typeclasses eauto|intros ? ?].

(** One step of walking a composite operation down to the primitive steps
    whose [keeps] lemmas are hints of the database [frame]. *)
Create HintDb frame.

Ltac keeps_step :=
  first
    [ progress cbv beta iota
    | solve [eauto with frame]
    | apply keeps_bind; [typeclasses eauto| |intros ?]
    | apply keeps_try_catch; [typeclasses eauto| |intros ?]
    | apply keeps_for_each; [typeclasses eauto|intros ?]
    | apply keeps_ret; typeclasses eauto
    | apply keeps_get_state; typeclasses eauto
    | apply keeps_lift; typeclasses eauto
    | apply keeps_throw; typeclasses eauto
    | match goal with
      | |- keeps _ (match ?x with _ => _ end) => destruct x
      | |- keeps _ (if ?b then _ else _) => destruct b
      end ].

Ltac keeps_go := repeat keeps_step.

Create HintDb js.
Create Rewrite HintDb js_rw.
#[export] Hint Rewrite @bind_ret_l @bind_ret_r @bind_assoc @for_each_app @bind_get @bind_modify
  @bind_put @bind_throw @bind_lift_ok @bind_lift_throw : js_rw.

(** [run_ok H] rewrites a [bind] whose first computation is known by [H]
    to complete normally. *)
Ltac run_ok H := first [ rewrite (bind_run_ok _ _ _ _ _ H) | rewrite (try_catch_run_ok _ _ _ _ _ H) ].
Ltac run_throw H := first [ rewrite (bind_run_throw _ _ _ _ _ H) | rewrite (try_catch_run_throw _ _ _ _ _ H) ].

(** ** Shared lemmas on lists, options and strings *)

(** Index of the first element satisfying a boolean test, the way
    [Array.prototype.findIndex] and SurveyJS's name lookup search. *)
Fixpoint find_index {A} (p : A -> bool) (xs : list A) : option nat :=
  match xs with
  | [] => None
  | x :: xs' => if p x then Some 0 else S <$> find_index p xs'
  end.

Lemma find_index_Some {A} (p : A -> bool) xs i :
  find_index p xs = Some i ->
  exists x, xs !! i = Some x /\ p x = true /\ forall j y, j < i -> xs !! j = Some y -> p y = false.
Proof.
  revert i. induction xs as [|x xs IH]; intros i; simpl; [done|].
  destruct (p x) eqn:Hp.
  - intros [= <-]. exists x. repeat split; [done|]. intros j y Hj. lia.
  - destruct (find_index p xs) as [k|] eqn:Hk; simpl; [|done]. intros [= <-].
    destruct (IH k eq_refl) as (y & Hy & Hpy & Hmin). exists y. repeat split; [done..|].
    intros [|j] z Hj; simpl; [by intros [= <-]|]. intros Hz. apply (Hmin j z); [lia|done].
Qed.

Lemma find_index_None {A} (p : A -> bool) xs :
  find_index p xs = None -> forall x, In x xs -> p x = false.
Proof.
  induction xs as [|x xs IH]; simpl; [done|].
  destruct (p x) eqn:Hp; [done|]. destruct (find_index p xs); simpl; [done|].
  intros _ y [<-|Hy]; auto.
Qed.

Lemma find_index_complete {A} (p : A -> bool) xs x :
  In x xs -> p x = true -> exists i, find_index p xs = Some i.
Proof.
  induction xs as [|y xs IH]; simpl; [done|]. intros [->|Hx] Hp.
  - rewrite Hp. eauto.
  - destruct (p y); [eauto|]. destruct (IH Hx Hp) as [i ->]. simpl. eauto.
Qed.

Lemma string_eqb_spec (a b : string) : reflect (a = b) (String.eqb a b).
Proof. apply iff_reflect. symmetry. apply String.eqb_eq. Qed.

#[export] Hint Resolve String.eqb_refl : js.
#[export] Hint Resolve preserves_ret preserves_bind preserves_for_each : js.
