(* ===== verification/Json.v ===== *)
(** JSON values as the JavaScript code sees them, the property order of
    JavaScript objects, [JSON.stringify], and [areJSONsEqual]
    ([src/www/survey.js], lines 6-8).

    Numbers are integers ([Z]): the engine only moves numbers around and
    never does arithmetic on them.  Strings are byte strings.  An object
    is the list of its own properties in the order JavaScript enumerates
    them: array-index keys first in ascending numeric order, then the other
    keys in insertion order ([obj_set]). *)

From S2P Require Import Prelude.

#[warnings="-register-all"]
Inductive json : Type :=
| JNull
| JBool (b : bool)
| JNum (n : Z)
| JStr (s : string)
| JArr (xs : list json)
| JObj (ps : list (string * json)).

(** ** Induction on nested JSON values *)

Section JsonInd.
Variable P : json -> Prop.
Hypothesis HNull : P JNull.
Hypothesis HBool : forall b, P (JBool b).
Hypothesis HNum : forall n, P (JNum n).
Hypothesis HStr : forall s, P (JStr s).
Hypothesis HArr : forall xs, Forall P xs -> P (JArr xs).
Hypothesis HObj : forall ps, Forall (fun kv => P kv.2) ps -> P (JObj ps).

Fixpoint json_ind' (j : json) : P j :=
  match j with
  | JNull => HNull
  | JBool b => HBool b
  | JNum n => HNum n
  | JStr s => HStr s
  | JArr xs => HArr xs ((fix go (xs : list json) : Forall P xs :=
                           match xs with
                           | [] => List.Forall_nil _
                           | x :: xs' => List.Forall_cons _ x xs' (json_ind' x) (go xs')
                           end) xs)
  | JObj ps => HObj ps ((fix go (ps : list (string * json)) : Forall (fun kv => P kv.2) ps :=
                           match ps with
                           | [] => List.Forall_nil _
                           | kv :: ps' => List.Forall_cons _ kv ps' (json_ind' kv.2) (go ps')
                           end) ps)
  end.
End JsonInd.

(** ** Decidable equality *)

Fixpoint json_eqb (a b : json) : bool :=
  match a, b with
  | JNull, JNull => true
  | JBool x, JBool y => Bool.eqb x y
  | JNum x, JNum y => Z.eqb x y
  | JStr x, JStr y => String.eqb x y
  | JArr xs, JArr ys =>
      (fix go (xs ys : list json) : bool :=
         match xs, ys with
         | [], [] => true
         | x :: xs', y :: ys' => json_eqb x y && go xs' ys'
         | _, _ => false
         end) xs ys
  | JObj xs, JObj ys =>
      (fix go (xs ys : list (string * json)) : bool :=
         match xs, ys with
         | [], [] => true
         | (k, x) :: xs', (k', y) :: ys' => String.eqb k k' && json_eqb x y && go xs' ys'
         | _, _ => false
         end) xs ys
  | _, _ => false
  end.

Lemma json_eqb_eq (a b : json) : json_eqb a b = true <-> a = b.
Proof.
  revert b. induction a as [| b0 | n | s | xs IH | ps IH] using json_ind';
    intros [| b1 | m | t | ys | qs]; simpl; try (split; congruence).
  - rewrite Bool.eqb_true_iff. split; congruence.
  - rewrite Z.eqb_eq. split; congruence.
  - rewrite String.eqb_eq. split; congruence.
  - revert ys. induction IH as [|x xs Hx _ IHxs]; intros [|y ys]; try (split; congruence).
    rewrite andb_true_iff, Hx, IHxs. split; [intros [-> [= ->]]|intros [= -> ->]]; auto.
  - revert qs. induction IH as [|[k x] ps Hx _ IHps]; intros [|[k' y] qs]; try (split; congruence).
    simpl in Hx. rewrite !andb_true_iff, String.eqb_eq, Hx, IHps.
    split; [intros [[-> ->] [= ->]]|intros [= -> -> ->]]; auto.
Qed.

#[export] Instance json_eq_dec : EqDecision json.
Proof.
  intros a b. destruct (json_eqb a b) eqn:E.
  - left. by apply json_eqb_eq.
  - right. intros H. apply json_eqb_eq in H. congruence.
Defined.

(** ** Decimal numerals *)

Definition digit_char (d : N) : ascii := ascii_of_N (48 + d).

(** Decimal digits of [n] in front of [acc]; [fuel] bounds the number of
    digits, and [N.size_nat n + 1] digits are always enough. *)
Fixpoint digits_go (fuel : nat) (n : N) (acc : list ascii) : list ascii :=
  match fuel with
  | O => acc
  | S f =>
      let acc' := digit_char (n mod 10) :: acc in
      if (n <? 10)%N then acc' else digits_go f (n / 10) acc'
  end.

Definition N_digits (n : N) : list ascii := digits_go (S (N.size_nat n)) n [].

Definition Z_digits (z : Z) : list ascii :=
  match z with
  | Zneg p => "-"%char :: N_digits (Npos p)
  | _ => N_digits (Z.to_N z)
  end.

(** Value of a non-empty string of decimal digits. *)
Fixpoint digits_value (acc : N) (cs : list ascii) : option N :=
  match cs with
  | [] => Some acc
  | c :: cs' =>
      let d := (N_of_ascii c - 48)%N in
      if ((48 <=? N_of_ascii c) && (N_of_ascii c <=? 57))%N
      then digits_value (acc * 10 + d)%N cs' else None
  end.

(** An array index is the canonical numeral of a number below [2^32 - 1]
    (ECMAScript, "array index"). *)
Definition array_index (k : string) : option N :=
  let cs := list_ascii_of_string k in
  match cs with
  | [] => None
  | _ => match digits_value 0 cs with
         | Some n => if ((n <? 4294967295)%N && bool_decide (N_digits n = cs))
                     then Some n else None
         | None => None
         end
  end.

(** ** JavaScript objects: own properties in enumeration order *)

Definition obj := list (string * json).

Definition obj_get (o : obj) (k : string) : option json :=
  snd <$> List.find (fun kv => String.eqb k kv.1) o.

Fixpoint obj_replace (o : obj) (k : string) (v : json) : obj :=
  match o with
  | [] => []
  | (k', v') :: o' => if String.eqb k k' then (k, v) :: o' else (k', v') :: obj_replace o' k v
  end.

(** A new array-index key goes before the first key that is not an array
    index or is a larger one. *)
Fixpoint obj_insert_index (n : N) (k : string) (v : json) (o : obj) : obj :=
  match o with
  | [] => [(k, v)]
  | (k', v') :: o' =>
      match array_index k' with
      | Some m => if (n <? m)%N then (k, v) :: o else (k', v') :: obj_insert_index n k v o'
      | None => (k, v) :: o
      end
  end.

(** [o[k] = v] *)
Definition obj_set (o : obj) (k : string) (v : json) : obj :=
  match obj_get o k with
  | Some _ => obj_replace o k v
  | None => match array_index k with
            | Some n => obj_insert_index n k v o
            | None => o ++ [(k, v)]
            end
  end.

(** [delete o[k]] *)
Definition obj_delete (o : obj) (k : string) : obj :=
  List.filter (fun kv => negb (String.eqb k kv.1)) o.

(** An object has each own property once. *)
Definition obj_wf (o : obj) : Prop := NoDup (map fst o).

(** ** [JSON.stringify] (ECMAScript [SerializeJSONProperty], no indentation) *)

Definition hex_digit (d : N) : ascii :=
  if (d <? 10)%N then ascii_of_N (48 + d) else ascii_of_N (87 + d).

(** [QuoteJSONString], one code unit. *)
Definition escape_char (c : ascii) : list ascii :=
  let n := N_of_ascii c in
  if (n =? 34)%N then ["\"%char; "034"%char]
  else if (n =? 92)%N then ["\"%char; "\"%char]
  else if (n =? 8)%N then ["\"%char; "b"%char]
  else if (n =? 12)%N then ["\"%char; "f"%char]
  else if (n =? 10)%N then ["\"%char; "n"%char]
  else if (n =? 13)%N then ["\"%char; "r"%char]
  else if (n =? 9)%N then ["\"%char; "t"%char]
  else if (n <? 32)%N then ["\"%char; "u"%char; "0"%char; "0"%char;
                            hex_digit (n / 16); hex_digit (n mod 16)]
  else [c].

Definition quote (s : string) : list ascii :=
  "034"%char :: (List.flat_map escape_char (list_ascii_of_string s) ++ ["034"%char]).

(** Elements separated by commas. *)
Fixpoint join_commas (xs : list (list ascii)) : list ascii :=
  match xs with
  | [] => []
  | [x] => x
  | x :: xs' => x ++ ","%char :: join_commas xs'
  end.

Fixpoint stringify (j : json) : list ascii :=
  match j with
  | JNull => list_ascii_of_string "null"
  | JBool true => list_ascii_of_string "true"
  | JBool false => list_ascii_of_string "false"
  | JNum n => Z_digits n
  | JStr s => quote s
  | JArr xs => "["%char :: join_commas (map stringify xs) ++ ["]"%char]
  | JObj ps => "{"%char :: join_commas (map (fun kv => quote kv.1 ++ ":"%char :: stringify kv.2) ps)
                 ++ ["}"%char]
  end.

Definition JSON_stringify (j : json) : string := string_of_list_ascii (stringify j).

(** ** Reading a property after writing or deleting one *)

Lemma obj_get_cons k k' v o :
  obj_get ((k', v) :: o) k = if String.eqb k k' then Some v else obj_get o k.
Proof. unfold obj_get. simpl. by destruct (String.eqb k k'). Qed.

Lemma obj_get_app o1 o2 k :
  obj_get (o1 ++ o2) k = match obj_get o1 k with Some v => Some v | None => obj_get o2 k end.
Proof.
  induction o1 as [|[k' v'] o1 IH]; simpl; [done|]. rewrite !obj_get_cons.
  by destruct (String.eqb k k').
Qed.

Lemma obj_get_replace o k v k' :
  obj_get (obj_replace o k v) k' =
  if String.eqb k' k then (match obj_get o k with Some _ => Some v | None => None end)
  else obj_get o k'.
Proof.
  induction o as [|[k1 v1] o IH]; cbn [obj_replace].
  - unfold obj_get; simpl. by destruct (String.eqb k' k).
  - rewrite (obj_get_cons k). destruct (string_eqb_spec k k1) as [<-|Hne].
    + rewrite !obj_get_cons. by destruct (string_eqb_spec k' k).
    + rewrite !obj_get_cons, IH. destruct (string_eqb_spec k' k1) as [->|Hne'].
      * by destruct (string_eqb_spec k1 k).
      * done.
Qed.

Lemma obj_get_insert_index n o k v k' :
  obj_get o k = None ->
  obj_get (obj_insert_index n k v o) k' = if String.eqb k' k then Some v else obj_get o k'.
Proof.
  induction o as [|[k1 v1] o IH]; simpl; intros Hk.
  - by rewrite obj_get_cons.
  - rewrite obj_get_cons in Hk. destruct (string_eqb_spec k k1) as [|Hne]; [done|].
    assert (Hcons : forall o', obj_get ((k, v) :: o') k' =
                               if String.eqb k' k then Some v else obj_get o' k')
      by (intros; apply obj_get_cons).
    destruct (array_index k1) as [m|]; [destruct (n <? m)%N|]; try apply Hcons.
    rewrite !obj_get_cons, IH by done.
    destruct (string_eqb_spec k' k1), (string_eqb_spec k' k); congruence.
Qed.

Lemma obj_get_set o k v k' :
  obj_get (obj_set o k v) k' = if String.eqb k' k then Some v else obj_get o k'.
Proof.
  unfold obj_set. destruct (obj_get o k) as [w|] eqn:Hk.
  - rewrite obj_get_replace, Hk. by destruct (String.eqb k' k).
  - destruct (array_index k) as [n|].
    + by apply obj_get_insert_index.
    + rewrite obj_get_app, obj_get_cons. destruct (obj_get o k') eqn:Hk'.
      * destruct (string_eqb_spec k' k); congruence.
      * by destruct (String.eqb k' k).
Qed.

Lemma obj_get_delete o k k' :
  obj_get (obj_delete o k) k' = if String.eqb k' k then None else obj_get o k'.
Proof.
  unfold obj_delete. induction o as [|[k1 v1] o IH]; cbn [List.filter].
  - unfold obj_get; simpl. by destruct (String.eqb k' k).
  - rewrite (obj_get_cons k'). simpl. destruct (string_eqb_spec k k1) as [<-|Hne]; simpl.
    + rewrite IH. destruct (string_eqb_spec k' k); done.
    + rewrite obj_get_cons, IH. destruct (string_eqb_spec k' k1), (string_eqb_spec k' k); congruence.
Qed.

(** Writing the value a property already has, or deleting an absent one,
    leaves the object as it was. *)
Lemma obj_replace_same o k v : obj_get o k = Some v -> obj_replace o k v = o.
Proof.
  induction o as [|[k1 v1] o IH]; simpl; [done|]. rewrite obj_get_cons.
  destruct (string_eqb_spec k k1) as [<-|Hne]; [by intros [= ->]|]. intros Hk. by rewrite IH.
Qed.

Lemma obj_set_same o k v : obj_get o k = Some v -> obj_set o k v = o.
Proof. intros Hk. unfold obj_set. rewrite Hk. by apply obj_replace_same. Qed.

Lemma obj_delete_absent o k : obj_get o k = None -> obj_delete o k = o.
Proof.
  unfold obj_delete. induction o as [|[k1 v1] o IH]; simpl; [done|]. rewrite obj_get_cons.
  destruct (string_eqb_spec k k1) as [<-|Hne]; [done|]. intros Hk. simpl. by rewrite IH.
Qed.


(** ** Writes keep the keys of an object distinct *)

Lemma obj_get_None o k : obj_get o k = None <-> ~ In k (map fst o).
Proof.
  induction o as [|[k1 v1] o IH]; [split; [intros _ []|reflexivity]|].
  cbn [map fst]. rewrite obj_get_cons.
  destruct (string_eqb_spec k k1) as [->|Hne]; [naive_solver|]. rewrite IH. naive_solver.
Qed.

Lemma obj_replace_keys o k v : map fst (obj_replace o k v) = map fst o.
Proof.
  induction o as [|[k1 v1] o IH]; simpl; [done|].
  destruct (string_eqb_spec k k1) as [->|]; simpl; [done|by rewrite IH].
Qed.

Lemma obj_insert_index_perm n k v o : obj_insert_index n k v o ≡ₚ (k, v) :: o.
Proof.
  induction o as [|[k1 v1] o IH]; simpl; [done|].
  destruct (array_index k1) as [m|]; [destruct (n <? m)%N|]; try done.
  rewrite IH. by constructor.
Qed.

Lemma obj_set_wf o k v : obj_wf o -> obj_wf (obj_set o k v).
Proof.
  unfold obj_wf, obj_set. intros Hw. destruct (obj_get o k) as [w|] eqn:Hk.
  - by rewrite obj_replace_keys.
  - apply obj_get_None in Hk. rewrite <- list_elem_of_In in Hk.
    destruct (array_index k) as [n|].
    + rewrite (obj_insert_index_perm n k v o). simpl. by constructor.
    + rewrite map_app. simpl. apply NoDup_app. split_and!; [done| |apply NoDup_singleton].
      intros x Hx ->%list_elem_of_singleton. done.
Qed.

Lemma obj_delete_wf o k : obj_wf o -> obj_wf (obj_delete o k).
Proof.
  unfold obj_wf, obj_delete. induction o as [|[k1 v1] o IH]; simpl; [done|].
  intros [Hn Hw]%NoDup_cons. destruct (negb _); simpl; [|by apply IH].
  constructor; [|by apply IH]. intros Hin. apply Hn.
  apply list_elem_of_In in Hin. apply list_elem_of_In.
  apply in_map_iff in Hin as ([k2 v2] & <- & Hin). apply in_map_iff. exists (k2, v2).
  split; [done|]. by apply filter_In in Hin as [? _].
Qed.

#[export] Hint Resolve obj_set_wf obj_delete_wf : js.

#[export] Hint Rewrite obj_get_set obj_get_delete : js_rw.

(** ** The first character of an encoding tells strings apart *)

Lemma digit_char_not_quote d : (d < 10)%N -> digit_char d <> "034"%char.
Proof.
  intros Hd Heq. apply (f_equal N_of_ascii) in Heq. unfold digit_char in Heq.
  rewrite N_ascii_embedding in Heq by lia. simpl in Heq. lia.
Qed.

Lemma digits_go_not_quote f n acc :
  Forall (fun c => c <> "034"%char) acc -> Forall (fun c => c <> "034"%char) (digits_go f n acc).
Proof.
  revert n acc. induction f as [|f IH]; intros n acc Hacc; simpl; [done|].
  assert (Hc : Forall (fun c => c <> "034"%char) (digit_char (n mod 10) :: acc)).
  { constructor; [apply digit_char_not_quote; apply N.mod_lt; lia|done]. }
  destruct (n <? 10)%N; [done|]. by apply IH.
Qed.

Lemma stringify_head_not_quote j :
  (forall t, j <> JStr t) -> head (stringify j) <> Some "034"%char.
Proof.
  intros Hj. assert (Hd : forall n, head (N_digits n) <> Some "034"%char).
  { intros n. unfold N_digits. pose proof (digits_go_not_quote (S (N.size_nat n)) n [] (List.Forall_nil _)) as F.
    destruct (digits_go _ _ _) as [|c cs]; simpl; [done|]. inversion F. congruence. }
  destruct j as [|[]|z|s|xs|ps]; try (simpl; done);
    [destruct z; [exact (Hd _)|exact (Hd _)|simpl; done] | by destruct (Hj s)].
Qed.
