(* ===== verification/Js.v ===== *)
(** The JavaScript run-time behaviour the engine relies on: exceptions,
    truthiness ([if (x)], [x && y]), property access on message payloads,
    [Array.prototype.includes] (SameValueZero),
    [String.prototype.replace(/_/g, ' ')] and the attribute selector
    [`[name="${n}"]`] handed to [document.querySelector].

    Lemmas: the underscore replacement keeps the length, leaves no
    underscore, is idempotent and is the identity on strings without one. *)

From S2P Require Import Prelude Json.

Inductive exn : Type :=
| SyntaxError (msg : string)
| TypeError (msg : string)
| EngineError (msg : string).

(** ** Truthiness (ECMAScript [ToBoolean]); [None] is [undefined]. *)

Definition truthy (j : json) : bool :=
  match j with
  | JNull => false
  | JBool b => b
  | JNum n => negb (Z.eqb n 0)
  | JStr s => negb (String.eqb s EmptyString)
  | JArr _ | JObj _ => true
  end.

Definition truthy_opt (v : option json) : bool :=
  match v with
  | Some j => truthy j
  | None => false
  end.

(** ** [Array.prototype.includes]: SameValueZero.  Arrays and objects are
    compared by reference; a value taken from the survey and an element of
    a freshly decoded message are never the same object. *)

Definition same_value_zero (a b : json) : bool :=
  match a, b with
  | JNull, JNull => true
  | JBool x, JBool y => Bool.eqb x y
  | JNum x, JNum y => Z.eqb x y
  | JStr x, JStr y => String.eqb x y
  | _, _ => false
  end.

(** [xs.includes(v)]; a JSON array holds no [undefined]. *)
Definition js_includes (xs : list json) (v : option json) : bool :=
  match v with
  | Some x => existsb (same_value_zero x) xs
  | None => false
  end.

(** ** Property access [j.k] on a decoded message.  Reading a property of
    [null] throws; the keys the engine reads ([title], [targetQuestion],
    [text], [callback], [choices]) are not built-in properties of strings,
    numbers, booleans or arrays, so these give [undefined]. *)

Definition get_prop (j : json) (k : string) : outcome exn (option json) :=
  match j with
  | JNull => Throw (TypeError ("Cannot read properties of null (reading " +:+ k +:+ ")"))
  | JObj ps => Ok (obj_get ps k)
  | _ => Ok None
  end.

(** ** [String(v)] (ECMAScript [ToString]) on JSON values: arrays join
    their elements with commas, [null] elements becoming empty. *)

Fixpoint js_to_string (j : json) : string :=
  match j with
  | JNull => "null"
  | JBool true => "true"
  | JBool false => "false"
  | JNum n => string_of_list_ascii (Z_digits n)
  | JStr s => s
  | JArr xs =>
      string_of_list_ascii (join_commas (map (fun x => match x with
                                                       | JNull => []
                                                       | _ => list_ascii_of_string (js_to_string x)
                                                       end) xs))
  | JObj _ => "[object Object]"
  end.

(** ** [s.replace(/_/g, ' ')] *)

Fixpoint replace_underscores (s : string) : string :=
  match s with
  | EmptyString => EmptyString
  | String c s' => String (if Ascii.eqb c "_"%char then " "%char else c) (replace_underscores s')
  end.

(** ** [document.querySelector(`[name="${n}"]`)]: the name is spliced into a
    double-quoted CSS string.  A double quote or a line break in it makes the
    selector invalid and [querySelector] throws a [SyntaxError].  A backslash
    starts a CSS escape, which this model does not decode: such a name
    matches no element. *)

Definition css_breaks_string (c : ascii) : bool :=
  Ascii.eqb c "034"%char || Ascii.eqb c "010"%char || Ascii.eqb c "013"%char
  || Ascii.eqb c "012"%char.

Definition name_selector (n : string) : outcome exn (option string) :=
  if existsb css_breaks_string (list_ascii_of_string n)
  then Throw (SyntaxError "Failed to execute 'querySelector' on 'Document': not a valid selector")
  else if existsb (fun c => Ascii.eqb c "\"%char) (list_ascii_of_string n)
  then Ok None
  else Ok (Some n).

(** ** Lemmas *)

Lemma replace_underscores_length s : String.length (replace_underscores s) = String.length s.
Proof. induction s; simpl; congruence. Qed.

Lemma replace_underscores_no_underscore s :
  ~ In "_"%char (list_ascii_of_string (replace_underscores s)).
Proof.
  induction s as [|c s IH]; simpl; [tauto|]. intros [Hc|Hin]; [|exact (IH Hin)].
  destruct (Ascii.eqb_spec c "_"); [discriminate|congruence].
Qed.

Lemma replace_underscores_id s :
  ~ In "_"%char (list_ascii_of_string s) -> replace_underscores s = s.
Proof.
  induction s as [|c s IH]; simpl; [done|]. intros Hn.
  rewrite IH by tauto. destruct (Ascii.eqb_spec c "_"); [subst; tauto|done].
Qed.

Lemma replace_underscores_idem s :
  replace_underscores (replace_underscores s) = replace_underscores s.
Proof. apply replace_underscores_id, replace_underscores_no_underscore. Qed.

Lemma same_value_zero_eq a b : same_value_zero a b = true -> a = b.
Proof.
  destruct a, b; simpl; try done.
  - by intros ->%Bool.eqb_true_iff.
  - by intros ->%Z.eqb_eq.
  - by intros ->%String.eqb_eq.
Qed.

Lemma js_includes_In xs v : js_includes xs v = true -> exists x, v = Some x /\ In x xs.
Proof.
  destruct v as [x|]; simpl; [|done]. intros (y & Hy & Hs)%existsb_exists.
  apply same_value_zero_eq in Hs. subst. eauto.
Qed.

#[export] Hint Resolve replace_underscores_no_underscore same_value_zero_eq : js.
