(* ===== verification/JsonParse.v ===== *)
(** [JSON.parse], the JavaScript built-in [initializeSurvey] applies to a
    definition that arrives as text ([src/www/survey.js], lines 55-57).

    A recursive-descent parser over the characters of the text, with fuel:
    every call consumes at least one character, so the length of the text
    plus one is enough fuel ([JSON_parse]).  Objects are built with
    [obj_set], so a repeated key keeps its first position and its last
    value, and array-index keys are ordered first, as [JSON.parse] does.
    Numbers are integers: a literal with a fraction or an exponent is
    outside this model and is rejected, as is a [\u] escape above [ÿ]
    (strings are byte strings). *)

From S2P Require Import Prelude Json.

Definition is_ws (c : ascii) : bool :=
  let n := N_of_ascii c in ((n =? 32) || (n =? 9) || (n =? 10) || (n =? 13))%N.

Definition is_digit (c : ascii) : bool :=
  let n := N_of_ascii c in ((48 <=? n) && (n <=? 57))%N.

Fixpoint skip_ws (cs : list ascii) : list ascii :=
  match cs with
  | c :: cs' => if is_ws c then skip_ws cs' else cs
  | [] => []
  end.

Definition hex_value (c : ascii) : option N :=
  let n := N_of_ascii c in
  if ((48 <=? n) && (n <=? 57))%N then Some (n - 48)%N
  else if ((97 <=? n) && (n <=? 102))%N then Some (n - 87)%N
  else if ((65 <=? n) && (n <=? 70))%N then Some (n - 55)%N
  else None.

Definition hex4 (a b c d : ascii) : option N :=
  match hex_value a, hex_value b, hex_value c, hex_value d with
  | Some x, Some y, Some z, Some w => Some (((x * 16 + y) * 16 + z) * 16 + w)%N
  | _, _, _, _ => None
  end.

(** The characters of a string literal after its opening quote, in reverse
    in [acc]; returns the string and the text after the closing quote. *)
Fixpoint parse_chars (cs : list ascii) (acc : list ascii) : option (string * list ascii) :=
  match cs with
  | [] => None
  | c :: cs' =>
      let n := N_of_ascii c in
      if (n =? 34)%N then Some (string_of_list_ascii (rev acc), cs')
      else if (n =? 92)%N then
        match cs' with
        | e :: cs'' =>
            let m := N_of_ascii e in
            if (m =? 34)%N || (m =? 92)%N || (m =? 47)%N then parse_chars cs'' (e :: acc)
            else if (m =? 98)%N then parse_chars cs'' (ascii_of_N 8 :: acc)
            else if (m =? 102)%N then parse_chars cs'' (ascii_of_N 12 :: acc)
            else if (m =? 110)%N then parse_chars cs'' (ascii_of_N 10 :: acc)
            else if (m =? 114)%N then parse_chars cs'' (ascii_of_N 13 :: acc)
            else if (m =? 116)%N then parse_chars cs'' (ascii_of_N 9 :: acc)
            else if (m =? 117)%N then
              match cs'' with
              | h1 :: h2 :: h3 :: h4 :: rest =>
                  match hex4 h1 h2 h3 h4 with
                  | Some code => if (code <? 256)%N then parse_chars rest (ascii_of_N code :: acc)
                                 else None
                  | None => None
                  end
              | _ => None
              end
            else None
        | [] => None
        end
      else if (n <? 32)%N then None
      else parse_chars cs' (c :: acc)
  end.

Fixpoint take_digits (cs : list ascii) : list ascii * list ascii :=
  match cs with
  | c :: cs' => if is_digit c then let '(ds, r) := take_digits cs' in (c :: ds, r) else ([], cs)
  | [] => ([], [])
  end.

(** [-? (0 | [1-9][0-9]* )], not followed by a fraction or an exponent. *)
Definition parse_number (cs : list ascii) : option (json * list ascii) :=
  let '(neg, cs1) := match cs with
                     | c :: r => if (N_of_ascii c =? 45)%N then (true, r) else (false, cs)
                     | [] => (false, cs)
                     end in
  let '(ds, rest) := take_digits cs1 in
  let leading_zero := match ds with
                      | c :: _ :: _ => (N_of_ascii c =? 48)%N
                      | _ => false
                      end in
  let frac_or_exp := match rest with
                     | c :: _ => let n := N_of_ascii c in ((n =? 46) || (n =? 101) || (n =? 69))%N
                     | [] => false
                     end in
  match ds with
  | [] => None
  | _ => if leading_zero || frac_or_exp then None
         else match digits_value 0 ds with
              | Some v => Some (JNum (if neg then (- Z.of_N v)%Z else Z.of_N v), rest)
              | None => None
              end
  end.

Definition lit_is (w : string) (cs : list ascii) : option (list ascii) :=
  let ws := list_ascii_of_string w in
  if bool_decide (firstn (List.length ws) cs = ws) then Some (skipn (List.length ws) cs) else None.

Fixpoint parse_value (fuel : nat) (cs : list ascii) : option (json * list ascii) :=
  match fuel with
  | O => None
  | S f =>
      match skip_ws cs with
      | [] => None
      | c :: r =>
          let n := N_of_ascii c in
          if (n =? 34)%N then
            match parse_chars r [] with Some (s, r') => Some (JStr s, r') | None => None end
          else if (n =? 91)%N then
            match skip_ws r with
            | c' :: r' => if (N_of_ascii c' =? 93)%N then Some (JArr [], r') else parse_elems f r []
            | [] => None
            end
          else if (n =? 123)%N then
            match skip_ws r with
            | c' :: r' => if (N_of_ascii c' =? 125)%N then Some (JObj [], r') else parse_members f r []
            | [] => None
            end
          else if (n =? 110)%N then (fun r' => (JNull, r')) <$> lit_is "ull" r
          else if (n =? 116)%N then (fun r' => (JBool true, r')) <$> lit_is "rue" r
          else if (n =? 102)%N then (fun r' => (JBool false, r')) <$> lit_is "alse" r
          else parse_number (c :: r)
      end
  end
(** Array elements after [\[], in reverse in [acc]. *)
with parse_elems (fuel : nat) (cs : list ascii) (acc : list json) : option (json * list ascii) :=
  match fuel with
  | O => None
  | S f =>
      match parse_value f cs with
      | Some (v, r) =>
          match skip_ws r with
          | c :: r' => if (N_of_ascii c =? 44)%N then parse_elems f r' (v :: acc)
                       else if (N_of_ascii c =? 93)%N then Some (JArr (rev (v :: acc)), r')
                       else None
          | [] => None
          end
      | None => None
      end
  end
(** Object members after [{]; properties are created with [obj_set]. *)
with parse_members (fuel : nat) (cs : list ascii) (acc : obj) : option (json * list ascii) :=
  match fuel with
  | O => None
  | S f =>
      match skip_ws cs with
      | q :: r =>
          if (N_of_ascii q =? 34)%N then
            match parse_chars r [] with
            | Some (k, r1) =>
                match skip_ws r1 with
                | col :: r2 =>
                    if (N_of_ascii col =? 58)%N then
                      match parse_value f r2 with
                      | Some (v, r3) =>
                          match skip_ws r3 with
                          | c :: r4 =>
                              if (N_of_ascii c =? 44)%N then parse_members f r4 (obj_set acc k v)
                              else if (N_of_ascii c =? 125)%N then Some (JObj (obj_set acc k v), r4)
                              else None
                          | [] => None
                          end
                      | None => None
                      end
                    else None
                | [] => None
                end
            | None => None
            end
          else None
      | [] => None
      end
  end.

(** [JSON.parse(text)]; [None] is the [SyntaxError] it throws. *)
Definition JSON_parse (s : string) : option json :=
  let cs := list_ascii_of_string s in
  match parse_value (S (List.length cs)) cs with
  | Some (j, rest) => match skip_ws rest with [] => Some j | _ => None end
  | None => None
  end.
