(* ===== verification/JsonFuel.v ===== *)
(** The fuel of [JSON_parse] is never what decides its answer.  A parse
    that succeeds with some fuel, consuming [k] characters, succeeds with
    the same result with any fuel of at least [k]: every call of the
    parser either consumes a character or calls a parser that will
    consume one before it calls again.  So [JSON_parse s], run with fuel
    [S (length s)], accepts exactly the texts some amount of fuel accepts,
    and [initializeSurvey]'s [JSON.parse(surveyJSON)] ([src/www/survey.js],
    line 56) is modelled by a total function that agrees with the
    unbounded parser. *)

From S2P Require Import Prelude Json JsonParse.

(** ** Lengths of what is left *)

Lemma skip_ws_length cs : List.length (skip_ws cs) <= List.length cs.
Proof. induction cs as [|c cs IH]; simpl; [lia|]. destruct (is_ws c); simpl; lia. Qed.

Lemma parse_chars_length r acc s r' :
  parse_chars r acc = Some (s, r') -> List.length r' < List.length r.
Proof.
  remember (List.length r) as n eqn:Hn. revert r acc Hn.
  induction n as [n IH] using lt_wf_ind. intros r acc -> H.
  destruct r as [|c r]; [done|]. simpl in H.
  destruct (N_of_ascii c =? 34)%N; [injection H as _ <-; simpl; lia|].
  destruct (N_of_ascii c =? 92)%N.
  - destruct r as [|e r]; [done|]. simpl.
    repeat match type of H with
    | (if ?b then _ else _) = _ => destruct b
    | parse_chars ?x ?a = _ => apply (IH (List.length x) ltac:(simpl; lia) x a eq_refl) in H; simpl in *; lia
    | (match ?x with _ => _ end) = _ => destruct x
    end; try done.
  - destruct (N_of_ascii c <? 32)%N; [done|]. apply (IH (List.length r) ltac:(simpl; lia) r _ eq_refl) in H. simpl. lia.
Qed.

Lemma take_digits_length cs : List.length (take_digits cs).1 + List.length (take_digits cs).2 = List.length cs.
Proof.
  induction cs as [|c cs IH]; simpl; [done|]. destruct (is_digit c); [|done].
  destruct (take_digits cs) as [ds r]. simpl in *. lia.
Qed.

Lemma parse_number_length cs v r : parse_number cs = Some (v, r) -> List.length r < List.length cs.
Proof.
  unfold parse_number. intros H.
  assert (Hs : forall neg cs1, (neg, cs1) = match cs with
                          | c :: r => if (N_of_ascii c =? 45)%N then (true, r) else (false, cs)
                          | [] => (false, cs)
                          end -> List.length cs1 <= List.length cs).
  { intros neg cs1. destruct cs as [|c r0]; [intros [= _ ->]; done|].
    destruct (N_of_ascii c =? 45)%N; intros [= _ ->]; simpl; lia. }
  destruct (match cs with c :: r => _ | [] => _ end) as [neg cs1] eqn:E.
  specialize (Hs neg cs1 eq_refl). pose proof (take_digits_length cs1) as Ht.
  destruct (take_digits cs1) as [ds rest]. simpl in Ht.
  destruct ds as [|d ds]; [done|].
  destruct (_ || _); [done|]. destruct (digits_value 0 _); [|done]. injection H as _ <-. simpl in Ht. lia.
Qed.

Lemma lit_is_length w cs r : lit_is w cs = Some r -> List.length r <= List.length cs.
Proof. unfold lit_is. case_bool_decide; [|done]. intros [= <-]. rewrite length_skipn. lia. Qed.

(** ** One step of the parser *)

Lemma parse_value_S f cs :
  parse_value (S f) cs =
    match skip_ws cs with
    | [] => None
    | c :: r =>
        let n := N_of_ascii c in
        if (n =? 34)%N then
          match parse_chars r [] with Some (s, r') => Some (JStr s, r') | None => None end
        else if (n =? 91)%N then
          match skip_ws r with
          | c' :: r' => if (N_of_ascii c' =? 93)%N then Some (JArr [], r') else parse_elems f r []
          | [] => None
          end
        else if (n =? 123)%N then
          match skip_ws r with
          | c' :: r' => if (N_of_ascii c' =? 125)%N then Some (JObj [], r') else parse_members f r []
          | [] => None
          end
        else if (n =? 110)%N then (fun r' => (JNull, r')) <$> lit_is "ull" r
        else if (n =? 116)%N then (fun r' => (JBool true, r')) <$> lit_is "rue" r
        else if (n =? 102)%N then (fun r' => (JBool false, r')) <$> lit_is "alse" r
        else parse_number (c :: r)
    end.
Proof. reflexivity. Qed.

Lemma parse_elems_S f cs acc :
  parse_elems (S f) cs acc =
    match parse_value f cs with
    | Some (v, r) =>
        match skip_ws r with
        | c :: r' => if (N_of_ascii c =? 44)%N then parse_elems f r' (v :: acc)
                     else if (N_of_ascii c =? 93)%N then Some (JArr (rev (v :: acc)), r')
                     else None
        | [] => None
        end
    | None => None
    end.
Proof. reflexivity. Qed.

Lemma parse_members_S f cs acc :
  parse_members (S f) cs acc =
    match skip_ws cs with
    | q :: r =>
        if (N_of_ascii q =? 34)%N then
          match parse_chars r [] with
          | Some (k, r1) =>
              match skip_ws r1 with
              | col :: r2 =>
                  if (N_of_ascii col =? 58)%N then
                    match parse_value f r2 with
                    | Some (v, r3) =>
                        match skip_ws r3 with
                        | c :: r4 =>
                            if (N_of_ascii c =? 44)%N then parse_members f r4 (obj_set acc k v)
                            else if (N_of_ascii c =? 125)%N then Some (JObj (obj_set acc k v), r4)
                            else None
                        | [] => None
                        end
                    | None => None
                    end
                  else None
              | [] => None
              end
          | None => None
          end
        else None
    | [] => None
    end.
Proof. reflexivity. Qed.

(** ** Enough fuel *)

(** A run of a fuelled parser that succeeds consumes at least one
    character, and any fuel at least the number of characters it consumed
    gives the same result. *)
Definition fuel_ok {A} (run : nat -> list ascii -> option (A * list ascii)) (f : nat) : Prop :=
  forall cs v r, run f cs = Some (v, r) ->
  List.length r < List.length cs /\
  forall f', List.length cs - List.length r <= f' -> run f' cs = Some (v, r).

Lemma skip_ws_cons cs c r : skip_ws cs = c :: r -> S (List.length r) <= List.length cs.
Proof. intros H. pose proof (skip_ws_length cs) as L. rewrite H in L. simpl in L. lia. Qed.

(** The literal and numeral branches of [parse_value] take one unit of fuel. *)
Ltac fuel_leaf L :=
  lazymatch goal with
  | H : (fun r' => (?x, r')) <$> lit_is ?w ?r0 = Some _ |- _ =>
      destruct (lit_is w r0) as [r'|] eqn:Hl; [|done]; simpl in H; injection H as <- <-;
      pose proof (lit_is_length _ _ _ Hl) as Hlen
  | H : parse_number ?cs = Some _ |- _ =>
      pose proof (parse_number_length _ _ _ H) as Hl; simpl in Hl
  end;
  split; [simpl in *; lia|]; intros [|f'] Hf'; [simpl in *; lia|].

Lemma parse_value_fuel f :
  fuel_ok parse_value f /\ (forall acc, fuel_ok (fun f cs => parse_elems f cs acc) f) /\
  (forall acc, fuel_ok (fun f cs => parse_members f cs acc) f).
Proof.
  induction f as [|f (IHv & IHe & IHm)]; [split_and!; done|]. split_and!.
  - intros cs v r H. rewrite parse_value_S in H.
    destruct (skip_ws cs) as [|c r0] eqn:Hw; [done|]. apply skip_ws_cons in Hw as L.
    cbv zeta in H.
    destruct (N_of_ascii c =? 34)%N eqn:E1.
    { destruct (parse_chars r0 []) as [[s r']|] eqn:Hc; [|done]. injection H as <- <-.
      apply parse_chars_length in Hc as Lc. split; [lia|]. intros [|f'] Hf'; [lia|].
      rewrite parse_value_S, Hw. simpl. by rewrite E1, Hc. }
    destruct (N_of_ascii c =? 91)%N eqn:E2.
    { destruct (skip_ws r0) as [|c' r'] eqn:Hw'; [done|]. apply skip_ws_cons in Hw' as L'.
      destruct (N_of_ascii c' =? 93)%N eqn:E3.
      - injection H as <- <-. split; [lia|]. intros [|f'] Hf'; [lia|].
        rewrite parse_value_S, Hw. simpl. by rewrite E1, E2, Hw', E3.
      - destruct (IHe [] r0 v r H) as [Le A]. split; [lia|]. intros [|f'] Hf'; [lia|].
        rewrite parse_value_S, Hw. simpl. rewrite E1, E2, Hw', E3. apply A. lia. }
    destruct (N_of_ascii c =? 123)%N eqn:E4.
    { destruct (skip_ws r0) as [|c' r'] eqn:Hw'; [done|]. apply skip_ws_cons in Hw' as L'.
      destruct (N_of_ascii c' =? 125)%N eqn:E3.
      - injection H as <- <-. split; [lia|]. intros [|f'] Hf'; [lia|].
        rewrite parse_value_S, Hw. simpl. by rewrite E1, E2, E4, Hw', E3.
      - destruct (IHm [] r0 v r H) as [Le A]. split; [lia|]. intros [|f'] Hf'; [lia|].
        rewrite parse_value_S, Hw. simpl. rewrite E1, E2, E4, Hw', E3. apply A. lia. }
    destruct (N_of_ascii c =? 110)%N eqn:E5.
    { fuel_leaf L. rewrite parse_value_S, Hw. simpl. by rewrite E1, E2, E4, E5, Hl. }
    destruct (N_of_ascii c =? 116)%N eqn:E6.
    { fuel_leaf L. rewrite parse_value_S, Hw. simpl. by rewrite E1, E2, E4, E5, E6, Hl. }
    destruct (N_of_ascii c =? 102)%N eqn:E7.
    { fuel_leaf L. rewrite parse_value_S, Hw. simpl. by rewrite E1, E2, E4, E5, E6, E7, Hl. }
    fuel_leaf L. rewrite parse_value_S, Hw. simpl. by rewrite E1, E2, E4, E5, E6, E7.
  - intros acc cs v r H. rewrite parse_elems_S in H.
    destruct (parse_value f cs) as [[v1 r1]|] eqn:Hv; [|done].
    destruct (IHv cs v1 r1 Hv) as [L1 A1].
    destruct (skip_ws r1) as [|c r'] eqn:Hw; [done|]. apply skip_ws_cons in Hw as L.
    destruct (N_of_ascii c =? 44)%N eqn:E1.
    + destruct (IHe (v1 :: acc) r' v r H) as [L2 A2]. split; [lia|]. intros [|f'] Hf'; [lia|].
      rewrite parse_elems_S, (A1 f') by lia. rewrite Hw, E1. apply A2. lia.
    + destruct (N_of_ascii c =? 93)%N eqn:E2; [|done]. injection H as <- <-.
      split; [lia|]. intros [|f'] Hf'; [lia|].
      rewrite parse_elems_S, (A1 f') by lia. by rewrite Hw, E1, E2.
  - intros acc cs v r H. rewrite parse_members_S in H.
    destruct (skip_ws cs) as [|q r0] eqn:Hw0; [done|]. apply skip_ws_cons in Hw0 as L0.
    destruct (N_of_ascii q =? 34)%N eqn:Eq; [|done].
    destruct (parse_chars r0 []) as [[k r1]|] eqn:Hc; [|done]. apply parse_chars_length in Hc as Lc.
    destruct (skip_ws r1) as [|col r2] eqn:Hw1; [done|]. apply skip_ws_cons in Hw1 as L1.
    destruct (N_of_ascii col =? 58)%N eqn:Ec; [|done].
    destruct (parse_value f r2) as [[v1 r3]|] eqn:Hv; [|done].
    destruct (IHv r2 v1 r3 Hv) as [L2 A2].
    destruct (skip_ws r3) as [|c r4] eqn:Hw3; [done|]. apply skip_ws_cons in Hw3 as L3.
    assert (Hpre : forall f', List.length r2 - List.length r3 <= f' ->
      parse_members (S f') cs acc =
        if (N_of_ascii c =? 44)%N then parse_members f' r4 (obj_set acc k v1)
        else if (N_of_ascii c =? 125)%N then Some (JObj (obj_set acc k v1), r4) else None).
    { intros f' Hf'. rewrite parse_members_S, Hw0, Eq, Hc, Hw1, Ec, (A2 f' Hf'). by rewrite Hw3. }
    destruct (N_of_ascii c =? 44)%N eqn:E1.
    + destruct (IHm (obj_set acc k v1) r4 v r H) as [L4 A4]. split; [lia|]. intros [|f'] Hf'; [lia|].
      rewrite Hpre by lia. apply A4. lia.
    + destruct (N_of_ascii c =? 125)%N eqn:E2; [|done]. injection H as <- <-.
      split; [lia|]. intros [|f'] Hf'; [lia|]. by rewrite Hpre by lia.
Qed.

(** [JSON_parse s] succeeds exactly when the parser succeeds on [s] with
    some fuel and only whitespace is left. *)
Lemma JSON_parse_fuel_iff s v :
  JSON_parse s = Some v <->
  exists f r, parse_value f (list_ascii_of_string s) = Some (v, r) /\ skip_ws r = [].
Proof.
  unfold JSON_parse. split.
  - destruct (parse_value _ _) as [[v' r]|] eqn:E; [|done].
    destruct (skip_ws r) eqn:Hr; [|done]. intros [= <-]. by exists (S (List.length (list_ascii_of_string s))), r.
  - intros (f & r & E & Hr). destruct (proj1 (parse_value_fuel f) _ _ _ E) as [_ A].
    rewrite A by lia. by rewrite Hr.
Qed.
