(* ===== verification/ChangeDetector.v ===== *)
(** The Definition Change Detector of [src/www/survey.js]:
    [areJSONsEqual] (lines 6-8), which [initializeSurvey] uses to skip an
    identical definition (line 46).

    Theorem: [JSON.stringify] is injective, so [areJSONsEqual] is exactly
    structural equality of JSON values: two definitions are equal when they
    have the same constructors, the same strings and numbers, and the same
    object keys in the same order.  The proof decodes an encoding from its
    first character: string literals with [parse_chars] of [JsonParse.v],
    numerals by their digits, arrays and objects element by element, each
    element's encoding being followed by a comma or a closing bracket. *)

From S2P Require Import Prelude Json JsonParse.

(** [function areJSONsEqual(json1, json2)
      { return JSON.stringify(json1) === JSON.stringify(json2); }] *)
Definition areJSONsEqual (j1 j2 : json) : bool := String.eqb (JSON_stringify j1) (JSON_stringify j2).

(** What may follow the encoding of a value inside a larger one. *)
Definition follows (r : list ascii) : Prop :=
  match r with
  | [] => True
  | c :: _ => c = ","%char \/ c = "]"%char \/ c = "}"%char
  end.

(** The first character of an encoding determines the kind of value. *)
Definition head_class (c : ascii) : nat :=
  if Ascii.eqb c "n"%char then 0 else if Ascii.eqb c "t"%char then 1
  else if Ascii.eqb c "f"%char then 2 else if Ascii.eqb c "034"%char then 4
  else if Ascii.eqb c "["%char then 5 else if Ascii.eqb c "{"%char then 6 else 3.

Definition json_class (j : json) : nat :=
  match j with
  | JNull => 0 | JBool true => 1 | JBool false => 2 | JNum _ => 3
  | JStr _ => 4 | JArr _ => 5 | JObj _ => 6
  end.

(** ** String literals *)

Lemma parse_chars_escape c rest acc :
  parse_chars (escape_char c ++ rest) acc = parse_chars rest (c :: acc).
Proof. destruct c as [[] [] [] [] [] [] [] []]; reflexivity. Qed.

Lemma parse_chars_escaped cs r acc :
  parse_chars (List.flat_map escape_char cs ++ "034"%char :: r) acc =
    Some (string_of_list_ascii (rev acc ++ cs), r).
Proof.
  revert acc. induction cs as [|c cs IH]; intros acc; simpl.
  - by rewrite app_nil_r.
  - rewrite <- app_assoc, parse_chars_escape, IH. simpl. by rewrite <- app_assoc.
Qed.

(** A quoted string is decoded back, whatever follows it. *)
Lemma quote_app_inj s t x y : quote s ++ x = quote t ++ y -> s = t /\ x = y.
Proof.
  unfold quote. simpl. rewrite <- !app_assoc. simpl. intros [= H].
  pose proof (parse_chars_escaped (list_ascii_of_string s) x []) as Hs.
  rewrite H, parse_chars_escaped in Hs. simpl in Hs. injection Hs as Hst ->.
  split; [|done]. by rewrite !string_of_list_ascii_of_string in Hst.
Qed.

(** ** Numerals *)

Definition not_digit_next (r : list ascii) : Prop :=
  match r with [] => True | c :: _ => is_digit c = false end.

Lemma follows_not_digit r : follows r -> not_digit_next r.
Proof. destruct r; [done|]. simpl. by intros [->|[->| ->]]. Qed.

Lemma head_class_digit c : is_digit c = true -> head_class c = 3.
Proof. destruct c as [[] [] [] [] [] [] [] []]; (reflexivity || discriminate). Qed.

Lemma digit_char_is_digit d : (d < 10)%N -> is_digit (digit_char d) = true /\ N_of_ascii (digit_char d) = (48 + d)%N.
Proof.
  intros Hd. unfold is_digit, digit_char. rewrite N_ascii_embedding by lia.
  split; [|done]. apply andb_true_iff. split; apply N.leb_le; lia.
Qed.

Lemma digits_value_app a xs ys :
  digits_value a (xs ++ ys) = digits_value a xs ≫= fun b => digits_value b ys.
Proof.
  revert a. induction xs as [|c xs IH]; intros a; simpl; [done|].
  destruct (_ && _); [apply IH|done].
Qed.

Lemma digits_go_S f n acc :
  digits_go (S f) n acc =
    if (n <? 10)%N then digit_char (n mod 10) :: acc else digits_go f (n / 10) (digit_char (n mod 10) :: acc).
Proof. reflexivity. Qed.

Lemma digit_range d : (d < 10)%N -> ((48 <=? 48 + d)%N && (48 + d <=? 57)%N) = true.
Proof. intros Hd. apply andb_true_iff. split; apply N.leb_le; lia. Qed.

Lemma digits_go_spec f n acc :
  (n < 10 ^ N.of_nat (S f))%N ->
  exists ds, digits_go (S f) n acc = ds ++ acc /\ ds <> [] /\ Forall (fun c => is_digit c = true) ds /\
    digits_value 0 ds = Some n /\ (hd_error ds = Some (digit_char 0) -> n = 0%N).
Proof.
  revert n acc. induction f as [|f IH]; intros n acc Hn;
    pose proof (N.mod_lt n 10 ltac:(lia)) as Hm;
    destruct (digit_char_is_digit (n mod 10) Hm) as [Hd Hv];
    rewrite digits_go_S; destruct (N.ltb_spec n 10) as [Hlt|Hge].
  1,3: exists [digit_char (n mod 10)]; split_and!; [done|done|by constructor| |];
    [simpl; rewrite Hv, (N.mod_small n 10), digit_range by done; f_equal; lia
    |simpl; intros [= H0]; apply (f_equal N_of_ascii) in H0; rewrite Hv, (N.mod_small n 10) in H0 by done;
     unfold digit_char in H0; rewrite N_ascii_embedding in H0 by lia; lia].
  - simpl in Hn. lia.
  - destruct (IH (n / 10)%N (digit_char (n mod 10) :: acc)) as (ds & -> & Hne & Hall & Hval & Hlead).
    { apply N.Div0.div_lt_upper_bound. rewrite <- N.pow_succ_r'. by rewrite <- Nat2N.inj_succ. }
    exists (ds ++ [digit_char (n mod 10)]). rewrite <- app_assoc. split_and!; [done| | | |].
    + by destruct ds.
    + apply Forall_app. by split; [|constructor].
    + rewrite digits_value_app, Hval. simpl. rewrite Hv, digit_range by done. f_equal.
      pose proof (N.div_mod n 10 ltac:(lia)) as Hdm. revert Hdm Hm.
      generalize (n mod 10)%N (n / 10)%N. intros. lia.
    + destruct ds as [|c ds]; [done|]. simpl. intros Hc. specialize (Hlead Hc).
      pose proof (N.Div0.div_le_mono 10 n 10 Hge) as Hdiv. rewrite N.div_same in Hdiv by lia. lia.
Qed.

Lemma size_nat_bound n : (n < 10 ^ N.of_nat (S (N.size_nat n)))%N.
Proof.
  assert (H2 : forall p, (Npos p < 2 ^ N.of_nat (Pos.size_nat p))%N).
  { induction p as [p IH|p IH|]; simpl; [| |lia];
      rewrite Nat2N.inj_succ, N.pow_succ_r'; lia. }
  destruct n as [|p]; [simpl; lia|]. simpl N.size_nat.
  eapply N.lt_le_trans; [apply H2|]. rewrite Nat2N.inj_succ, N.pow_succ_r'.
  transitivity (10 ^ N.of_nat (Pos.size_nat p))%N; [apply N.pow_le_mono_l; lia|lia].
Qed.

Lemma N_digits_spec n :
  N_digits n <> [] /\ Forall (fun c => is_digit c = true) (N_digits n) /\ digits_value 0 (N_digits n) = Some n.
Proof.
  unfold N_digits. destruct (digits_go_spec (N.size_nat n) n [] (size_nat_bound n)) as (ds & -> & ? & ? & ? & _).
  by rewrite app_nil_r.
Qed.

(** Only the numeral of zero starts with the digit zero. *)
Lemma N_digits_lead n : hd_error (N_digits n) = Some (digit_char 0) -> n = 0%N.
Proof.
  unfold N_digits. destruct (digits_go_spec (N.size_nat n) n [] (size_nat_bound n)) as (ds & -> & _ & _ & _ & H).
  by rewrite app_nil_r.
Qed.

Lemma digits_split ds ds' r r' :
  Forall (fun c => is_digit c = true) ds -> Forall (fun c => is_digit c = true) ds' ->
  not_digit_next r -> not_digit_next r' -> ds ++ r = ds' ++ r' -> ds = ds' /\ r = r'.
Proof.
  revert ds'. induction ds as [|c ds IH]; intros [|c' ds'] Hd Hd' Hr Hr' Heq; simpl in Heq.
  - done.
  - subst r. inversion Hd'. simpl in Hr. congruence.
  - subst r'. inversion Hd. simpl in Hr'. congruence.
  - injection Heq as -> Heq. inversion Hd. inversion Hd'.
    destruct (IH ds') as [-> ->]; auto.
Qed.

Lemma N_digits_app_inj n m r r' :
  not_digit_next r -> not_digit_next r' -> N_digits n ++ r = N_digits m ++ r' -> n = m /\ r = r'.
Proof.
  intros Hr Hr' Heq. destruct (N_digits_spec n) as (_ & Hn & Vn), (N_digits_spec m) as (_ & Hm & Vm).
  destruct (digits_split _ _ _ _ Hn Hm Hr Hr' Heq) as [Hds ->]. rewrite Hds, Vm in Vn. split; congruence.
Qed.

Lemma N_digits_head n : exists c cs, N_digits n = c :: cs /\ is_digit c = true.
Proof.
  destruct (N_digits_spec n) as (Hne & Hall & _). destruct (N_digits n) as [|c cs]; [done|].
  inversion Hall. by exists c, cs.
Qed.

Lemma Z_digits_sign z :
  Z_digits z = (if (z <? 0)%Z then ["-"%char] else []) ++ N_digits (Z.abs_N z).
Proof. by destruct z. Qed.

Lemma minus_not_N_digits n r r' : "-"%char :: r <> N_digits n ++ r'.
Proof. destruct (N_digits_head n) as (c & cs & -> & Hc). intros [= <- _]. discriminate. Qed.

Lemma Z_digits_app_inj n m r r' :
  not_digit_next r -> not_digit_next r' -> Z_digits n ++ r = Z_digits m ++ r' -> n = m /\ r = r'.
Proof.
  intros Hr Hr'. rewrite !Z_digits_sign.
  destruct (Z.ltb_spec n 0), (Z.ltb_spec m 0); simpl.
  - intros [= Heq]. destruct (N_digits_app_inj _ _ _ _ Hr Hr' Heq) as [Hnm ->]. split; [lia|done].
  - intros Heq. by destruct (minus_not_N_digits _ _ _ Heq).
  - intros Heq. by destruct (minus_not_N_digits _ _ _ (eq_sym Heq)).
  - intros Heq. destruct (N_digits_app_inj _ _ _ _ Hr Hr' Heq) as [Hnm ->]. split; [lia|done].
Qed.

(** ** The first character *)

Lemma stringify_class j : exists c cs, stringify j = c :: cs /\ head_class c = json_class j.
Proof.
  destruct j as [|[]|z|s|xs|ps]; try (eexists _, _; split; reflexivity).
  simpl. rewrite Z_digits_sign. destruct (z <? 0)%Z; [eexists _, _; split; reflexivity|].
  destruct (N_digits_head (Z.abs_N z)) as (c & cs & -> & Hc). exists c, cs. split; [done|].
  by apply head_class_digit.
Qed.

Lemma stringify_app_class j j' r r' : stringify j ++ r = stringify j' ++ r' -> json_class j = json_class j'.
Proof.
  destruct (stringify_class j) as (c & cs & -> & Hc), (stringify_class j') as (c' & cs' & -> & Hc').
  intros [= <- _]. congruence.
Qed.

(** ** Comma-separated sequences *)

Lemma join_commas_app x xs t :
  join_commas (x :: xs) ++ t = x ++ match xs with [] => t | _ => ","%char :: join_commas xs ++ t end.
Proof. destruct xs; simpl; [done|]. by rewrite <- app_assoc. Qed.

Section Join.
Context {A : Type} (enc : A -> list ascii) (cl : ascii).
Hypothesis Hcl : cl = "]"%char \/ cl = "}"%char.
Hypothesis Henc : forall b, exists c cs, enc b = c :: cs /\ c <> cl.

Definition enc_inj (a : A) : Prop :=
  forall b r r', follows r -> follows r' -> enc a ++ r = enc b ++ r' -> a = b /\ r = r'.

Lemma join_follows (xs : list A) r :
  follows (match map enc xs with [] => cl :: r | _ => ","%char :: join_commas (map enc xs) ++ cl :: r end).
Proof. destruct xs; simpl; [destruct Hcl as [-> | ->]|]; auto. Qed.

Lemma join_commas_inj xs :
  Forall enc_inj xs -> forall ys r r',
  join_commas (map enc xs) ++ cl :: r = join_commas (map enc ys) ++ cl :: r' -> xs = ys /\ r = r'.
Proof.
  induction 1 as [|x xs Hx _ IH]; intros [|y ys] r r' Heq.
  - simpl in Heq. by injection Heq as ->.
  - exfalso. simpl map in Heq. rewrite join_commas_app in Heq. destruct (Henc y) as (c & cs & Hy & Hc).
    rewrite Hy in Heq. simpl in Heq. injection Heq as Heq _. congruence.
  - exfalso. simpl map in Heq. rewrite join_commas_app in Heq. destruct (Henc x) as (c & cs & Hy & Hc).
    rewrite Hy in Heq. simpl in Heq. injection Heq as Heq _. congruence.
  - simpl map in Heq. rewrite !join_commas_app in Heq.
    destruct (Hx y _ _ (join_follows xs r) (join_follows ys r') Heq) as [-> Ht].
    destruct xs as [|a xs], ys as [|b ys]; simpl in Ht.
    + by injection Ht as ->.
    + injection Ht as Ht _. destruct Hcl; congruence.
    + injection Ht as Ht _. destruct Hcl; congruence.
    + injection Ht as Ht. destruct (IH (b :: ys) r r' Ht) as [[= -> ->] ->]. done.
Qed.
End Join.

(** ** Injectivity *)

Lemma stringify_head_not_close j :
  exists c cs, stringify j = c :: cs /\ c <> "]"%char /\ c <> "}"%char.
Proof.
  destruct j as [|[]|z|s|xs|ps]; try (eexists _, _; split_and!; [reflexivity|discriminate|discriminate]).
  simpl. rewrite Z_digits_sign. destruct (z <? 0)%Z; [eexists _, _; split_and!; [reflexivity|discriminate|discriminate]|].
  destruct (N_digits_head (Z.abs_N z)) as (c & cs & -> & Hc). exists c, cs.
  split_and!; [done|intros ->|intros ->]; discriminate.
Qed.

Lemma member_enc_inj (k : string) (v : json) :
  (forall v' r r', follows r -> follows r' -> stringify v ++ r = stringify v' ++ r' -> v = v' /\ r = r') ->
  enc_inj (fun kv : string * json => quote kv.1 ++ ":"%char :: stringify kv.2) (k, v).
Proof.
  intros Hv [k' v'] r r' Hr Hr'. cbn [fst snd]. rewrite <- !app_assoc. cbn [app].
  intros (-> & [= Heq])%quote_app_inj. by destruct (Hv v' r r' Hr Hr' Heq) as [-> ->].
Qed.

Lemma stringify_app_inj j :
  forall j' r r', follows r -> follows r' -> stringify j ++ r = stringify j' ++ r' -> j = j' /\ r = r'.
Proof.
  induction j as [| b | n | s | xs IH | ps IH] using json_ind'; intros j' r r' Hr Hr' Heq;
    pose proof (stringify_app_class _ _ _ _ Heq) as Hc;
    destruct j' as [|[]|m|t|ys|qs]; try destruct b; simpl in Hc; try discriminate;
    try (apply app_inv_head in Heq; by subst).
  - destruct (Z_digits_app_inj n m r r') as [-> ->]; auto using follows_not_digit.
  - by destruct (quote_app_inj _ _ _ _ Heq) as [-> ->].
  - simpl in Heq. rewrite <- !app_assoc in Heq. injection Heq as Heq.
    assert (Henc : forall b, exists c cs, stringify b = c :: cs /\ c <> "]"%char).
    { intros b. destruct (stringify_head_not_close b) as (c & cs & ? & ? & _). by exists c, cs. }
    by destruct (join_commas_inj stringify "]"%char ltac:(auto) Henc xs IH ys r r' Heq) as [-> ->].
  - simpl in Heq. rewrite <- !app_assoc in Heq. injection Heq as Heq.
    assert (Henc : forall b : string * json, exists c cs, quote b.1 ++ ":"%char :: stringify b.2 = c :: cs /\ c <> "}"%char).
    { intros b. by eexists _, _. }
    assert (HP : Forall (enc_inj (fun kv : string * json => quote kv.1 ++ ":"%char :: stringify kv.2)) ps).
    { eapply Forall_impl; [exact IH|]. intros [k v] Hv. by apply member_enc_inj. }
    by destruct (join_commas_inj _ "}"%char ltac:(auto) Henc ps HP qs r r' Heq) as [-> ->].
Qed.

(** A JavaScript string and any other value never have equal encodings. *)
Lemma areJSONsEqual_str_other j s : (forall t, j <> JStr t) -> areJSONsEqual j (JStr s) = false.
Proof.
  intros Hj. unfold areJSONsEqual, JSON_stringify. destruct (string_eqb_spec (string_of_list_ascii (stringify j))
    (string_of_list_ascii (stringify (JStr s)))) as [Heq|]; [|done].
  apply (f_equal list_ascii_of_string) in Heq. rewrite !list_ascii_of_string_of_list_ascii in Heq.
  exfalso. apply (stringify_head_not_quote j Hj). rewrite Heq. reflexivity.
Qed.

Lemma areJSONsEqual_refl j : areJSONsEqual j j = true.
Proof. apply String.eqb_refl. Qed.

Lemma areJSONsEqual_sound a b : areJSONsEqual a b = true -> a = b.
Proof.
  unfold areJSONsEqual, JSON_stringify. rewrite String.eqb_eq.
  intros H. apply (f_equal list_ascii_of_string) in H. rewrite !list_ascii_of_string_of_list_ascii in H.
  rewrite <- (app_nil_r (stringify a)), <- (app_nil_r (stringify b)) in H.
  by destruct (stringify_app_inj a b [] [] I I H).
Qed.

(** C15. The Definition Change Detector is structural equality: two JSON
    values have the same [JSON.stringify] text exactly when they are equal,
    with object keys compared in order (so the same members inserted in
    another order make a different definition). *)
Theorem areJSONsEqual_iff a b : areJSONsEqual a b = true <-> a = b.
Proof. split; [apply areJSONsEqual_sound|intros ->; apply areJSONsEqual_refl]. Qed.
