(* ===== verification/JsonRoundtrip.v ===== *)
(** [JSON.parse(JSON.stringify(j))] gives back [j], up to the
    normalisation [JSON.parse] applies to objects (a repeated key keeps
    its first position and its last value; array-index keys come first),
    and with the fuel [JSON_parse] gives itself: the parser of
    [JsonParse.v] never runs out on the encoding of a value.

    Consequence for [initializeSurvey] ([src/www/survey.js], lines
    55-57): a definition sent as JSON text builds the same survey as the
    definition object, once the idempotence check is passed. *)

From S2P Require Import Prelude Json JsonParse JsonFuel ChangeDetector.

(** The value [JSON.parse] builds: objects rebuilt property by property. *)
Fixpoint norm (j : json) : json :=
  match j with
  | JArr xs => JArr (map norm xs)
  | JObj ps => JObj (fold_left (fun o kv => obj_set o kv.1 (norm kv.2)) ps [])
  | _ => j
  end.

(** A value is well formed when it is its own normal form, as every value
    a JavaScript program can build is. *)
Definition wf_json (j : json) : Prop := norm j = j.

#[export] Instance wf_json_dec j : Decision (wf_json j) := json_eq_dec (norm j) j.

(** The fuel the parser needs. *)
Fixpoint json_size (j : json) : nat :=
  match j with
  | JArr xs => S (list_sum (map (fun x => S (json_size x)) xs))
  | JObj ps => S (list_sum (map (fun kv => S (json_size kv.2)) ps))
  | _ => 0
  end.

(** ** Numerals *)

Lemma digit_not_special c :
  is_digit c = true ->
  is_ws c = false /\ (N_of_ascii c =? 45)%N = false /\ c <> ","%char /\ c <> "]"%char /\ c <> "}"%char.
Proof. destruct c as [[] [] [] [] [] [] [] []]; intros H; try discriminate H; split_and!; done. Qed.

Lemma take_digits_app ds r :
  Forall (fun c => is_digit c = true) ds -> not_digit_next r -> take_digits (ds ++ r) = (ds, r).
Proof.
  intros Hds Hr. induction Hds as [|c ds Hc _ IH]; simpl.
  - destruct r as [|c r]; simpl in *; [done|]. by rewrite Hr.
  - by rewrite Hc, IH.
Qed.

Lemma N_digits_no_leading_zero m :
  match N_digits m with c :: _ :: _ => (N_of_ascii c =? 48)%N | _ => false end = false.
Proof.
  destruct (N_digits m) as [|c [|c2 ds]] eqn:E; [done|done|].
  destruct (N.eqb_spec (N_of_ascii c) 48) as [H|]; [exfalso|done].
  assert (Hc : c = digit_char 0) by (rewrite <- (ascii_N_embedding c), H; reflexivity).
  assert (Hm : m = 0%N) by (apply N_digits_lead; by rewrite E, Hc). subst m. discriminate E.
Qed.

Definition no_frac (r : list ascii) : Prop :=
  match r with
  | [] => True
  | c :: _ => ((N_of_ascii c =? 46) || (N_of_ascii c =? 101) || (N_of_ascii c =? 69))%N = false
  end.

Lemma follows_no_frac r : follows r -> no_frac r.
Proof. destruct r; [done|]. simpl. by intros [->|[->| ->]]. Qed.

Lemma parse_number_Z n r :
  not_digit_next r -> no_frac r -> parse_number (Z_digits n ++ r) = Some (JNum n, r).
Proof.
  intros Hr Hf. rewrite Z_digits_sign. destruct (N_digits_spec (Z.abs_N n)) as (Hne & Hall & Hv).
  destruct (N_digits_head (Z.abs_N n)) as (c & cs & Hcs & Hc).
  assert (Hfr : match r with
                | [] => false
                | c0 :: _ => ((N_of_ascii c0 =? 46) || (N_of_ascii c0 =? 101) || (N_of_ascii c0 =? 69))%N
                end = false) by (destruct r; done).
  unfold parse_number. destruct (Z.ltb_spec n 0) as [Hneg|Hpos]; simpl.
  - rewrite take_digits_app by done. rewrite N_digits_no_leading_zero, Hfr, Hv, Hcs.
    do 3 f_equal. lia.
  - rewrite Hcs. simpl. destruct (digit_not_special c Hc) as (_ & -> & _).
    replace (c :: cs ++ r) with (N_digits (Z.abs_N n) ++ r) by (by rewrite Hcs).
    rewrite take_digits_app by done. rewrite N_digits_no_leading_zero, Hfr, Hv, Hcs.
    do 3 f_equal. lia.
Qed.

(** ** One step of the parser *)

Lemma parse_members_quote f k y acc :
  parse_members (S f) (quote k ++ ":"%char :: y) acc =
    match parse_value f y with
    | Some (v, r3) =>
        match skip_ws r3 with
        | c :: r4 =>
            if (N_of_ascii c =? 44)%N then parse_members f r4 (obj_set acc k v)
            else if (N_of_ascii c =? 125)%N then Some (JObj (obj_set acc k v), r4)
            else None
        | [] => None
        end
    | None => None
    end.
Proof.
  unfold quote. simpl. rewrite <- app_assoc. simpl. rewrite parse_chars_escaped. simpl.
  by rewrite string_of_list_ascii_of_string.
Qed.

Lemma parse_value_numeral f c cs :
  is_digit c = true \/ c = "-"%char -> parse_value (S f) (c :: cs) = parse_number (c :: cs).
Proof. intros [H| ->]; [destruct c as [[] [] [] [] [] [] [] []]; try discriminate H|]; reflexivity. Qed.

Lemma Z_digits_head n : exists c cs, Z_digits n = c :: cs /\ (is_digit c = true \/ c = "-"%char).
Proof.
  rewrite Z_digits_sign. destruct (n <? 0)%Z; [by eexists _, _; split; [reflexivity|right]|].
  destruct (N_digits_head (Z.abs_N n)) as (c & cs & -> & Hc). exists c, cs. auto.
Qed.

Lemma stringify_head_ok j :
  exists c cs, stringify j = c :: cs /\ is_ws c = false /\ (N_of_ascii c =? 93)%N = false /\
    (N_of_ascii c =? 125)%N = false.
Proof.
  destruct j as [|[]|z|s|xs|ps]; try (eexists _, _; split_and!; reflexivity).
  destruct (Z_digits_head z) as (c & cs & Hz & [Hc| ->]); [|eexists _, _; split_and!; simpl; [rewrite Hz|..]; reflexivity].
  exists c, cs. simpl. rewrite Hz. split; [done|]. revert Hc. clear.
  destruct c as [[] [] [] [] [] [] [] []]; intros H; try discriminate H; split_and!; reflexivity.
Qed.

Lemma skip_ws_stringify j r : skip_ws (stringify j ++ r) = stringify j ++ r.
Proof. destruct (stringify_head_ok j) as (c & cs & -> & Hw & _). simpl. by rewrite Hw. Qed.

Lemma join_head {A} (enc : A -> list ascii) (P : ascii -> Prop) xs t :
  (forall b, exists c cs, enc b = c :: cs /\ P c) -> xs <> [] ->
  exists c cs, join_commas (map enc xs) ++ t = c :: cs /\ P c.
Proof.
  intros Henc Hne. destruct xs as [|x xs]; [done|]. simpl map. rewrite join_commas_app.
  destruct (Henc x) as (c & cs & -> & Hc). by eexists _, _.
Qed.

Definition good_head (c : ascii) : Prop :=
  is_ws c = false /\ (N_of_ascii c =? 93)%N = false /\ (N_of_ascii c =? 125)%N = false.

Definition member_enc (kv : string * json) : list ascii := quote kv.1 ++ ":"%char :: stringify kv.2.

Lemma member_head kv : exists c cs, member_enc kv = c :: cs /\ good_head c.
Proof. by eexists _, _. Qed.

Lemma stringify_good_head j : exists c cs, stringify j = c :: cs /\ good_head c.
Proof. destruct (stringify_head_ok j) as (c & cs & ? & ?). by exists c, cs. Qed.

(** ** The parser reads back the encoding of a value *)

Definition parses (j : json) : Prop :=
  forall f r, json_size j < f -> follows r -> parse_value f (stringify j ++ r) = Some (norm j, r).

Lemma tail_follows {A} (enc : A -> list ascii) (cl : ascii) (xs : list A) r :
  cl = "]"%char \/ cl = "}"%char ->
  follows (match map enc xs with [] => cl :: r | _ => ","%char :: join_commas (map enc xs) ++ cl :: r end).
Proof. intros Hcl. destruct xs; simpl; [destruct Hcl as [-> | ->]|]; auto. Qed.

Lemma parse_elems_ok xs :
  Forall parses xs -> xs <> [] -> forall f r acc,
  list_sum (map (fun x => S (json_size x)) xs) < f ->
  parse_elems f (join_commas (map stringify xs) ++ "]"%char :: r) acc = Some (JArr (rev acc ++ map norm xs), r).
Proof.
  induction 1 as [|x xs Hx _ IH]; [done|]. intros _ f r acc Hf.
  destruct f as [|f]; [simpl in Hf; lia|]. simpl in Hf.
  rewrite parse_elems_S. simpl map. rewrite join_commas_app.
  rewrite Hx by (lia || by apply (tail_follows stringify "]"%char xs r); auto).
  destruct xs as [|y ys]; simpl.
  - done.
  - rewrite (IH ltac:(done)) by (simpl in Hf |- *; lia). simpl. by rewrite <- app_assoc.
Qed.

Lemma parse_members_ok ps :
  Forall (fun kv => parses kv.2) ps -> ps <> [] -> forall f r acc,
  list_sum (map (fun kv => S (json_size kv.2)) ps) < f ->
  parse_members f (join_commas (map member_enc ps) ++ "}"%char :: r) acc =
    Some (JObj (fold_left (fun o kv => obj_set o kv.1 (norm kv.2)) ps acc), r).
Proof.
  induction 1 as [|[k v] ps Hx _ IH]; [done|]. intros _ f r acc Hf. change (parses v) in Hx.
  destruct f as [|f]; [simpl in Hf; lia|]. simpl in Hf.
  simpl map. rewrite join_commas_app. unfold member_enc at 1. cbn [fst snd].
  rewrite <- app_assoc. cbn [app]. rewrite parse_members_quote.
  rewrite Hx by (lia || by apply (tail_follows member_enc "}"%char ps r); auto).
  destruct ps as [|q ps]; simpl.
  - done.
  - apply (IH ltac:(done)). simpl in Hf |- *. lia.
Qed.

Lemma parses_all j : parses j.
Proof.
  induction j as [| b | n | s | xs IH | ps IH] using json_ind'; intros f r Hf Hr;
    (destruct f as [|f]; [simpl in Hf; lia|]).
  - reflexivity.
  - by destruct b.
  - destruct (Z_digits_head n) as (c & cs & Hz & Hc). simpl stringify. rewrite Hz. simpl app.
    rewrite parse_value_numeral by done.
    replace (c :: cs ++ r) with (Z_digits n ++ r) by (by rewrite Hz).
    by rewrite parse_number_Z by auto using follows_not_digit, follows_no_frac.
  - rewrite parse_value_S. simpl. rewrite <- app_assoc. cbn [app]. rewrite parse_chars_escaped. simpl.
    by rewrite string_of_list_ascii_of_string.
  - rewrite parse_value_S. simpl. rewrite <- app_assoc. simpl.
    destruct (decide (xs = [])) as [->|Hne]; [done|].
    destruct (join_head stringify good_head xs ("]"%char :: r) stringify_good_head Hne)
      as (c & cs & E & Hw & H93 & _).
    rewrite E. simpl. rewrite Hw. simpl. rewrite H93, <- E.
    by rewrite parse_elems_ok by (done || simpl in Hf; lia).
  - change (stringify (JObj ps)) with ("{"%char :: join_commas (map member_enc ps) ++ ["}"%char]).
    rewrite parse_value_S. simpl. rewrite <- app_assoc. simpl.
    destruct (decide (ps = [])) as [->|Hne]; [done|].
    destruct (join_head member_enc good_head ps ("}"%char :: r) member_head Hne)
      as (c & cs & E & Hw & _ & H125).
    rewrite E. simpl. rewrite Hw. simpl. rewrite H125, <- E.
    by rewrite parse_members_ok by (done || simpl in Hf; lia).
Qed.

(** ** The fuel of [JSON_parse] is enough *)

Lemma join_length (ys : list (list ascii)) :
  list_sum (map (fun y => S (List.length y)) ys) <= S (List.length (join_commas ys)).
Proof.
  induction ys as [|y ys IH]; simpl; [lia|]. destruct ys as [|y' ys]; simpl in *; [lia|].
  rewrite length_app. simpl. lia.
Qed.

Lemma list_sum_map_le {A} (g h : A -> nat) xs :
  Forall (fun x => g x <= h x) xs -> list_sum (map g xs) <= list_sum (map h xs).
Proof. induction 1; simpl; lia. Qed.

Lemma json_size_length j : json_size j <= List.length (stringify j).
Proof.
  induction j as [| b | n | s | xs IH | ps IH] using json_ind'; simpl; try lia.
  - rewrite length_app. simpl. pose proof (join_length (map stringify xs)) as Hj.
    rewrite map_map in Hj.
    assert (list_sum (map (fun x => S (json_size x)) xs) <= list_sum (map (fun x => S (List.length (stringify x))) xs)).
    { apply list_sum_map_le. eapply Forall_impl; [exact IH|]. simpl. lia. }
    lia.
  - rewrite length_app. simpl. pose proof (join_length (map member_enc ps)) as Hj.
    rewrite map_map in Hj.
    assert (list_sum (map (fun kv => S (json_size kv.2)) ps) <=
            list_sum (map (fun kv => S (List.length (member_enc kv))) ps)).
    { apply list_sum_map_le. eapply Forall_impl; [exact IH|]. intros [k v] Hv.
      unfold member_enc. simpl in *. rewrite length_app. simpl. lia. }
    change (S (list_sum (map (fun kv : string * json => S (json_size kv.2)) ps)) <= S (List.length (join_commas (map member_enc ps)) + 1)). lia.
Qed.

(** [JSON.parse(JSON.stringify(j))] is the normal form of [j], computed
    within the fuel [JSON_parse] provides; a well-formed value comes back
    unchanged. *)
Theorem JSON_parse_stringify j : JSON_parse (JSON_stringify j) = Some (norm j).
Proof.
  unfold JSON_parse, JSON_stringify. rewrite list_ascii_of_string_of_list_ascii.
  rewrite <- (app_nil_r (stringify j)), parses_all; [done| |done].
  rewrite app_nil_r. pose proof (json_size_length j). lia.
Qed.

(** ** Reading a property of the object [JSON.parse] rebuilds *)

Lemma fold_obj_set_get (f : json -> json) ps o0 n :
  obj_wf ps ->
  obj_get (fold_left (fun o kv => obj_set o kv.1 (f kv.2)) ps o0) n =
  match obj_get ps n with Some v => Some (f v) | None => obj_get o0 n end.
Proof.
  unfold obj_wf. revert o0. induction ps as [|[k v] ps IH]; intros o0 Hw; [done|].
  apply NoDup_cons in Hw as [Hk Hw]. cbn [fold_left]. rewrite IH by done. rewrite obj_get_cons, obj_get_set. cbn [fst snd].
  destruct (string_eqb_spec n k) as [->|]; [|done].
  by rewrite (proj2 (obj_get_None ps k)) by by rewrite <- list_elem_of_In.
Qed.

(** In a well-formed object, the parsed copy holds the normal form of
    each property. *)
Lemma norm_obj_get ps n : obj_wf ps -> exists ps', norm (JObj ps) = JObj ps' /\ obj_get ps' n = norm <$> obj_get ps n.
Proof.
  intros Hw. eexists. split; [reflexivity|]. rewrite fold_obj_set_get by done.
  by destruct (obj_get ps n).
Qed.
