(* ===== verification/FormEngine.v ===== *)
(** The Form Engine (SurveyJS) as the engine code uses it.

    SurveyJS is an external library; what [survey.js] relies on is stated
    here as the type class [FormEngine] (the contract) together with the
    data the code reads and writes:
    - [question]: one entry of [survey.getAllQuestions()], with the fields
      the code touches ([name], [getType()], [choices], [displayValue], the
      DOM element reached through [textboxEl], [dropdownEl] or a
      [name] attribute, and whether the question exposes that element as a
      property);
    - [instance]: one [Survey.Model], holding its questions, its value hash
      [survey.data] (values are stored by question name, as SurveyJS does,
      so [question.value] is [survey.data[question.name]]) and which of the
      three event handlers the code registered on it.
    Questions are addressed by their position in [i_questions], the way the
    JavaScript code holds on to a question object.

    Theorems: the value setter writes exactly the question's name in the
    data and reports a change only when the engine sees one. *)

From S2P Require Import Prelude Json Js.

Record choice : Type := mk_choice { c_value : json; c_text : json }.

Inductive el_kind : Type := TagSelect | TagInput | TagOther.

Record dom_el : Type := mk_el { el_tag : el_kind; el_value : json }.

Record question : Type := mk_question {
  q_name : string;
  q_type : string;                 (* question.getType() *)
  q_choices : list choice;
  q_display : option json;         (* question.displayValue *)
  q_el : option dom_el;            (* the rendered input or select *)
  q_el_prop : bool                 (* exposed as question.textboxEl / dropdownEl *)
}.

Record instance : Type := mk_instance {
  i_id : nat;
  i_questions : list question;
  i_data : obj;                    (* survey.data: values by question name *)
  i_on_complete : bool;            (* handlers added by survey.js *)
  i_on_value_changed : bool;
  i_on_after_render : bool
}.

(** ** The contract *)

Class FormEngine : Type := {
  (** [new Survey.Model(json)]: the questions and the initial data
      (default values), or an exception. *)
  fe_build : json -> outcome exn (list question * obj);
  (** [survey.data] is a JavaScript object: each question name once. *)
  fe_build_wf : forall j qs d0, fe_build j = Ok (qs, d0) -> obj_wf d0;
  (** The engine's test for "the value did not change" before it raises
      [onValueChanged]. *)
  fe_same : option json -> option json -> bool;
  fe_same_sound : forall a b, fe_same a b = true -> a = b;
  fe_same_refl : forall a, fe_same a a = true;
  (** The questions a render pass visits, in order (the current page). *)
  fe_rendered : list question -> list nat;
  fe_rendered_lt : forall qs i, In i (fe_rendered qs) -> i < List.length qs
}.

(** ** Operations on an instance (SurveyJS properties and methods) *)

(** [survey.getQuestionByName(name)]: the first question with that name. *)
Definition getQuestionByName (i : instance) (n : string) : option nat :=
  find_index (fun q => String.eqb (q_name q) n) (i_questions i).

(** [survey.getQuestionByName(v)] called with a decoded message field:
    SurveyJS returns [null] for a falsy argument and otherwise looks the
    argument up, converted to a string, in its table of question names. *)
Definition getQuestionByName_js (i : instance) (v : option json) : option nat :=
  match v with
  | Some j => if truthy j then getQuestionByName i (js_to_string j) else None
  | None => None
  end.

(** [question.value] *)
Definition question_value (i : instance) (q : question) : option json :=
  obj_get (i_data i) (q_name q).

Definition set_data (o : obj) (n : string) (v : option json) : obj :=
  match v with
  | Some x => obj_set o n x
  | None => obj_delete o n
  end.

Definition with_data (i : instance) (o : obj) : instance :=
  mk_instance (i_id i) (i_questions i) o (i_on_complete i) (i_on_value_changed i)
    (i_on_after_render i).

Definition with_questions (i : instance) (qs : list question) : instance :=
  mk_instance (i_id i) qs (i_data i) (i_on_complete i) (i_on_value_changed i)
    (i_on_after_render i).

(** A change of one question object in place. *)
Definition update_question (i : instance) (idx : nat) (f : question -> question) : instance :=
  with_questions i (alter f idx (i_questions i)).

Definition q_with_display (v : option json) (q : question) : question :=
  mk_question (q_name q) (q_type q) (q_choices q) v (q_el q) (q_el_prop q).

Definition q_with_choices (cs : list choice) (q : question) : question :=
  mk_question (q_name q) (q_type q) cs (q_display q) (q_el q) (q_el_prop q).

Definition q_with_el_value (v : json) (q : question) : question :=
  mk_question (q_name q) (q_type q) (q_choices q) (q_display q)
    ((fun e => mk_el (el_tag e) v) <$> q_el q) (q_el_prop q).

Section Engine.
Context `{FormEngine}.

(** [question.value = v]: the value is stored under the question's name;
    when the [onValueChanged] handler is registered and the engine sees a
    change, the change [(name, v)] is reported to it. *)
Definition engine_set_value (i : instance) (idx : nat) (v : option json)
  : instance * option (string * option json) :=
  match i_questions i !! idx with
  | None => (i, None)
  | Some q =>
      let old := question_value i q in
      (with_data i (set_data (i_data i) (q_name q) v),
       if i_on_value_changed i && negb (fe_same old v) then Some (q_name q, v) else None)
  end.

(** The questions an [onAfterRenderQuestion] pass visits. *)
Definition render_targets (i : instance) : list nat :=
  if i_on_after_render i then fe_rendered (i_questions i) else [].
End Engine.

(** ** Lemmas *)

Lemma question_value_set_data i o n v q :
  question_value (with_data i (set_data o n v)) q =
  if String.eqb (q_name q) n then v else obj_get o (q_name q).
Proof.
  unfold question_value, set_data. simpl.
  destruct v; [apply obj_get_set|]. rewrite obj_get_delete. by destruct (String.eqb _ _).
Qed.

Lemma update_question_lookup i idx f j :
  i_questions (update_question i idx f) !! j =
  if decide (idx = j) then f <$> i_questions i !! j else i_questions i !! j.
Proof.
  unfold update_question. simpl. case_decide as Hij.
  - subst. apply list_lookup_alter_eq.
  - by apply list_lookup_alter_ne.
Qed.

Lemma update_question_length i idx f :
  List.length (i_questions (update_question i idx f)) = List.length (i_questions i).
Proof. apply length_alter. Qed.

(** Display, choice and element changes keep the question's name and type. *)
Lemma update_question_names i idx f :
  (forall q, q_name (f q) = q_name q /\ q_type (f q) = q_type q) ->
  forall j q, i_questions (update_question i idx f) !! j = Some q ->
  exists q0, i_questions i !! j = Some q0 /\ q_name q = q_name q0 /\ q_type q = q_type q0.
Proof.
  intros Hf j q. rewrite update_question_lookup. case_decide.
  - destruct (i_questions i !! j) as [q0|]; simpl; [|done]. intros [= <-]. eauto.
  - intros ->. eauto.
Qed.

Section EngineLemmas.
Context `{FormEngine}.

Lemma engine_set_value_questions i idx v :
  i_questions (engine_set_value i idx v).1 = i_questions i.
Proof. unfold engine_set_value. by destruct (i_questions i !! idx). Qed.

Lemma engine_set_value_id i idx v :
  i_id (engine_set_value i idx v).1 = i_id i.
Proof. unfold engine_set_value. by destruct (i_questions i !! idx). Qed.

Lemma engine_set_value_handlers i idx v :
  i_on_complete (engine_set_value i idx v).1 = i_on_complete i /\
  i_on_value_changed (engine_set_value i idx v).1 = i_on_value_changed i /\
  i_on_after_render (engine_set_value i idx v).1 = i_on_after_render i.
Proof. unfold engine_set_value. by destruct (i_questions i !! idx). Qed.

(** After [question.value = v], the question's name maps to [v] and every
    other name keeps its value. *)
Lemma engine_set_value_data i idx q v n :
  i_questions i !! idx = Some q ->
  obj_get (i_data (engine_set_value i idx v).1) n =
  if String.eqb n (q_name q) then v else obj_get (i_data i) n.
Proof.
  intros Hq. unfold engine_set_value. rewrite Hq. simpl. unfold set_data.
  destruct v; [apply obj_get_set|]. rewrite obj_get_delete. by destruct (String.eqb _ _).
Qed.

(** A change is reported only with the question's own name and the new
    value, only when the handler is registered, and whenever the value
    really changes while it is registered. *)
Lemma engine_set_value_note i idx q v :
  i_questions i !! idx = Some q ->
  (engine_set_value i idx v).2 =
  if i_on_value_changed i && negb (fe_same (question_value i q) v)
  then Some (q_name q, v) else None.
Proof. intros Hq. unfold engine_set_value. by rewrite Hq. Qed.

Lemma engine_set_value_same_silent i idx v :
  (forall q, i_questions i !! idx = Some q -> question_value i q = v) ->
  (engine_set_value i idx v).2 = None.
Proof.
  intros Hv. unfold engine_set_value. destruct (i_questions i !! idx) as [q|] eqn:Hq; [|done].
  rewrite (Hv q eq_refl), fe_same_refl. by rewrite andb_false_r.
Qed.

(** Writing a question's current value changes nothing. *)
Lemma engine_set_value_same i idx q v :
  i_questions i !! idx = Some q -> question_value i q = v -> engine_set_value i idx v = (i, None).
Proof.
  intros Hq Hv. unfold engine_set_value. rewrite Hq, Hv, fe_same_refl, andb_false_r.
  f_equal. unfold question_value in Hv. unfold set_data. destruct v as [x|].
  - rewrite obj_set_same by done. by destruct i.
  - rewrite obj_delete_absent by done. by destruct i.
Qed.

Lemma render_targets_lt i j : In j (render_targets i) -> j < List.length (i_questions i).
Proof. unfold render_targets. destruct (i_on_after_render i); [apply fe_rendered_lt|done]. Qed.
End EngineLemmas.

#[export] Hint Resolve engine_set_value_questions engine_set_value_id : js.
