(* ===== verification/SurveyJs.v ===== *)
(** A concrete [FormEngine]: the part of SurveyJS's [Survey.Model] the
    engine code exercises, following the SurveyJS definition format.

    A definition's questions are the elements of [pages[k].elements] (or
    [.questions]) and of the top-level [elements] and [questions] arrays,
    with the elements of [panel]s flattened in place.  An element needs a
    string [name] and [type] (SurveyJS would generate a missing name; such
    elements are skipped here).  A [choices] item is either a primitive,
    which is its own value and text, or an object with [value] and an
    optional [text].  [defaultValue] seeds [survey.data].  Dropdowns render
    in the "modern" mode and so have no native [select]; text questions
    render an [input].  A change is reported when the value differs
    structurally, and a render pass visits every question (one page). *)

From S2P Require Import Prelude Json Js FormEngine.

Definition prop (ps : obj) (k : string) : option json := obj_get ps k.

Definition as_list (j : option json) : list json :=
  match j with Some (JArr xs) => xs | _ => [] end.

Definition choice_of (j : json) : choice :=
  match j with
  | JObj ps =>
      let v := default JNull (prop ps "value") in
      mk_choice v (default v (prop ps "text"))
  | _ => mk_choice j j
  end.

Definition question_of (ps : obj) (n t : string) : question :=
  mk_question n t (map choice_of (as_list (prop ps "choices"))) None
    (if String.eqb t "dropdown" then Some (mk_el TagOther JNull)
     else if String.eqb t "text" then Some (mk_el TagInput (JStr "")) else None)
    false.

(** The questions of a list of elements, panels flattened; [fuel] bounds the
    nesting depth of panels. *)
Fixpoint elements_questions (fuel : nat) (els : list json) : list (question * option json) :=
  match fuel with
  | O => []
  | S f =>
      flat_map (fun el =>
        match el with
        | JObj ps =>
            match prop ps "type", prop ps "name" with
            | Some (JStr "panel"), _ => elements_questions f (as_list (prop ps "elements"))
            | Some (JStr t), Some (JStr n) => [(question_of ps n t, prop ps "defaultValue")]
            | _, _ => []
            end
        | _ => []
        end) els
  end.

Fixpoint json_depth (j : json) : nat :=
  match j with
  | JArr xs => S (list_max (map json_depth xs))
  | JObj ps => S (list_max (map (fun kv => json_depth kv.2) ps))
  | _ => 0
  end.

Definition definition_elements (j : json) : list json :=
  match j with
  | JObj ps =>
      flat_map (fun pg => match pg with
                          | JObj qs => as_list (prop qs "elements") ++ as_list (prop qs "questions")
                          | _ => []
                          end) (as_list (prop ps "pages"))
      ++ as_list (prop ps "elements") ++ as_list (prop ps "questions")
  | _ => []
  end.

Definition surveyjs_build (j : json) : outcome exn (list question * obj) :=
  let qds := elements_questions (json_depth j) (definition_elements j) in
  Ok (map fst qds,
      fold_left (fun o qd => match qd.2 with Some v => obj_set o (q_name qd.1) v | None => o end)
        qds []).

Lemma surveyjs_build_wf j qs d0 : surveyjs_build j = Ok (qs, d0) -> obj_wf d0.
Proof.
  unfold surveyjs_build. intros [= _ <-].
  assert (Hgen : forall qds o, obj_wf o -> obj_wf (fold_left (fun o qd =>
            match qd.2 with Some v => obj_set o (q_name qd.1) v | None => o end) qds o)).
  { induction qds as [|[q [v|]] qds IH]; intros o Ho; simpl; [done| |]; apply IH; [by apply obj_set_wf|done]. }
  apply Hgen. constructor.
Qed.

#[export] Program Instance surveyjs_engine : FormEngine := {
  fe_build := surveyjs_build;
  fe_build_wf := surveyjs_build_wf;
  fe_same a b := bool_decide (a = b);
  fe_rendered qs := seq 0 (List.length qs)
}.
Next Obligation. intros a b. by intros ?%bool_decide_eq_true. Qed.
Next Obligation. intros a. by apply bool_decide_eq_true. Qed.
Next Obligation. intros qs i. rewrite in_seq. lia. Qed.
