(* ===== verification/Page.v ===== *)
(** The page state of [src/www/survey.js] and the primitive steps the
    handlers are made of: the record [page] (the globals of the
    [$(document).ready] closure and what the code changes in the document),
    the observable [effect]s, the monad [M], and the writes the code performs
    on the live survey: [question.value = v] (which makes the engine call the
    [onValueChanged] handler of lines 84-97, also defined here),
    [question.displayValue = v] and [el.value = v].

    Lemmas: how each primitive changes the page, and that none of them
    throws. *)

From S2P Require Import Prelude Json Js FormEngine.

Inductive level : Type := LvlLog | LvlWarn | LvlError.

(** Observable effects, most recent first in [effects]. *)
Inductive effect : Type :=
| Console (lvl : level) (msg : string) (arg : option json)
| ConsoleExn (msg : string) (e : exn)
| ConsoleTrace
| SetInputValue (name : string) (v : json)     (* Shiny.setInputValue *)
| SetElValue (idx : nat) (v : json)            (* el.value = v *)
| DomEvent (idx : nat) (ev : string)           (* el.dispatchEvent(new Event(ev)) *)
| Rendered (id : nat)                          (* a render pass of survey id *)
| ContainerEmptied.                            (* $("#surveyContainer").empty() *)

Record page : Type := mk_page {
  survey : option instance;                      (* var survey; *)
  lastLoadedSurveyJSON : json;                   (* initially null *)
  questionValues : gmap string (option json);    (* new Map(); None = undefined *)
  doc_title : option json;                       (* String(v) of the last value set *)
  container : option nat;                        (* survey bound to #surveyContainer *)
  dropdown_settings : option json;               (* Survey.settings.dropdown *)
  next_id : nat;                                 (* identity of the next Survey.Model *)
  effects : list effect
}.

Definition init_page : page := mk_page None JNull ∅ None None None 0 [].

(** ** Field updates *)

Definition with_survey (p : page) (s : option instance) : page :=
  mk_page s (lastLoadedSurveyJSON p) (questionValues p) (doc_title p) (container p)
    (dropdown_settings p) (next_id p) (effects p).
Definition with_last (p : page) (j : json) : page :=
  mk_page (survey p) j (questionValues p) (doc_title p) (container p)
    (dropdown_settings p) (next_id p) (effects p).
Definition with_store (p : page) (m : gmap string (option json)) : page :=
  mk_page (survey p) (lastLoadedSurveyJSON p) m (doc_title p) (container p)
    (dropdown_settings p) (next_id p) (effects p).
Definition with_title (p : page) (t : option json) : page :=
  mk_page (survey p) (lastLoadedSurveyJSON p) (questionValues p) t (container p)
    (dropdown_settings p) (next_id p) (effects p).
Definition with_container (p : page) (c : option nat) : page :=
  mk_page (survey p) (lastLoadedSurveyJSON p) (questionValues p) (doc_title p) c
    (dropdown_settings p) (next_id p) (effects p).
Definition with_dropdown (p : page) (d : option json) : page :=
  mk_page (survey p) (lastLoadedSurveyJSON p) (questionValues p) (doc_title p) (container p)
    d (next_id p) (effects p).
Definition with_next_id (p : page) (n : nat) : page :=
  mk_page (survey p) (lastLoadedSurveyJSON p) (questionValues p) (doc_title p) (container p)
    (dropdown_settings p) n (effects p).
Definition with_effects (p : page) (es : list effect) : page :=
  mk_page (survey p) (lastLoadedSurveyJSON p) (questionValues p) (doc_title p) (container p)
    (dropdown_settings p) (next_id p) es.

Abbreviation M := (St page exn).

(** The outbound [{ fieldName: name, selected: value }] of lines 93-96; an
    [undefined] member is dropped by its JSON encoding. *)
Definition selected_choice (name : string) (v : option json) : json :=
  JObj (("fieldName", JStr name) :: match v with Some x => [("selected", x)] | None => [] end).

Section Page.
Context `{FormEngine}.

Definition emit (e : effect) : M unit := modify (fun p => with_effects p (e :: effects p)).

Definition modify_survey (f : instance -> instance) : M unit :=
  modify (fun p => with_survey p (f <$> survey p)).

(** [questionValues.set(name, value)] *)
Definition store_set (n : string) (v : option json) : M unit :=
  modify (fun p => with_store p (<[n := v]> (questionValues p))).

(** ** The handlers registered by [initializeSurvey] *)

(** [survey.onValueChanged] handler, lines 84-97.  The outbound object
    drops [selected] when the value is [undefined], as its JSON encoding
    does. *)
Definition onValueChanged (name : string) (v : option json) : M unit :=
  store_set name v;;
  emit (SetInputValue "selectedChoice" (selected_choice name v)).

(** [question.value = v] on a question of the live survey; the engine
    calls [onValueChanged] synchronously when it reports a change. *)
Definition set_question_value (idx : nat) (v : option json) : M unit :=
  p <- get;;
  match survey p with
  | None => ret tt
  | Some i =>
      let '(i', note) := engine_set_value i idx v in
      put (with_survey p (Some i'));;
      match note with
      | Some (n, v') => onValueChanged n v'
      | None => ret tt
      end
  end.

(** [question.displayValue = v] *)
Definition set_display (idx : nat) (v : option json) : M unit :=
  modify_survey (fun i => update_question i idx (q_with_display v)).

(** [question.choices = cs] *)
Definition set_choices (idx : nat) (cs : list choice) : M unit :=
  modify_survey (fun i => update_question i idx (q_with_choices cs)).

(** [el.value = v] on the question's element. *)
Definition set_el_value (idx : nat) (v : json) : M unit :=
  modify_survey (fun i => update_question i idx (q_with_el_value v));;
  emit (SetElValue idx v).

Definition current_question (p : page) (idx : nat) : option question :=
  survey p ≫= fun i => i_questions i !! idx.

End Page.

(** ** The Value Store invariant and the frame of in-place updates *)

Definition has_name (i : instance) (n : string) : Prop := In n (map q_name (i_questions i)).

#[export] Instance in_string_dec (n : string) (l : list string) : Decision (In n l) :=
  in_dec string_dec n l.
#[export] Instance has_name_dec i n : Decision (has_name i n) := in_string_dec n _.

Lemma getQuestionByName_Some i n idx :
  getQuestionByName i n = Some idx -> exists q, i_questions i !! idx = Some q /\ q_name q = n.
Proof.
  unfold getQuestionByName. intros (q & Hq & Hn & _)%find_index_Some.
  exists q. split; [done|]. by apply String.eqb_eq.
Qed.

Lemma getQuestionByName_None i n : getQuestionByName i n = None <-> ~ has_name i n.
Proof.
  unfold getQuestionByName, has_name. split.
  - intros Hn (q & <- & Hin)%in_map_iff. apply find_index_None with (x := q) in Hn; [|done].
    by rewrite String.eqb_refl in Hn.
  - intros Hn. destruct (find_index _ _) as [idx|] eqn:E; [|done]. exfalso. apply Hn.
    destruct (find_index_Some _ _ _ E) as (q & Hq & Hqn & _). apply String.eqb_eq in Hqn.
    subst. apply in_map. by eapply list_elem_of_In, list_elem_of_lookup_2.
Qed.

Lemma has_name_lookup i idx q : i_questions i !! idx = Some q -> has_name i (q_name q).
Proof. intros Hq. apply in_map, list_elem_of_In. by eapply list_elem_of_lookup_2. Qed.

(** Every stored answer whose question is in the survey is that question's
    current value. *)
Definition store_agrees (m : gmap string (option json)) (i : instance) : Prop :=
  forall n sv, m !! n = Some sv -> has_name i n -> obj_get (i_data i) n = sv.

Definition handlers_on (i : instance) : Prop :=
  i_on_complete i = true /\ i_on_value_changed i = true /\ i_on_after_render i = true.

Definition page_inv (p : page) : Prop :=
  forall i, survey p = Some i -> handlers_on i /\ store_agrees (questionValues p) i.

Definition q_shape (q : question) : string * string * option el_kind * bool :=
  (q_name q, q_type q, el_tag <$> q_el q, q_el_prop q).

Definition same_shape (i i' : instance) : Prop :=
  i_id i' = i_id i /\ map q_shape (i_questions i') = map q_shape (i_questions i) /\
  i_on_complete i' = i_on_complete i /\ i_on_value_changed i' = i_on_value_changed i /\
  i_on_after_render i' = i_on_after_render i.

Definition opt_rel {A} (R : A -> A -> Prop) (x y : option A) : Prop :=
  match x, y with
  | Some a, Some b => R a b
  | None, None => True
  | _, _ => False
  end.

(** The Value Store only gains entries: normal operation overwrites an
    answer, it never deletes one. *)
Definition store_grows (p p' : page) : Prop :=
  forall n, is_Some (questionValues p !! n) -> is_Some (questionValues p' !! n).

(** [touch p p']: [p'] differs from [p] only in the live survey's data,
    displays, choices and element values, in the effects, and in the store,
    which only gains entries. *)
Definition touch (p p' : page) : Prop :=
  lastLoadedSurveyJSON p' = lastLoadedSurveyJSON p /\ doc_title p' = doc_title p /\
  container p' = container p /\ dropdown_settings p' = dropdown_settings p /\
  next_id p' = next_id p /\ opt_rel same_shape (survey p) (survey p') /\ store_grows p p'.

(** The relation every in-place handler moves the page along. *)
Definition inplace (p p' : page) : Prop := (page_inv p -> page_inv p') /\ touch p p'.

#[export] Instance same_shape_preorder : PreOrder same_shape.
Proof.
  split.
  - intros i. by repeat split.
  - intros i j k (?&?&?&?&?) (?&?&?&?&?). repeat split; congruence.
Qed.

#[export] Instance touch_preorder : PreOrder touch.
Proof.
  split.
  - intros p. repeat split; first [exact (fun _ H => H) | destruct (survey p); simpl; [reflexivity|done]].
  - intros p q r (?&?&?&?&?&Hs1&G1) (?&?&?&?&?&Hs2&G2). repeat split; try congruence.
    + destruct (survey p), (survey q), (survey r); simpl in *; try done. by transitivity i0.
    + intros n Hn. by apply G2, G1.
Qed.

#[export] Instance inplace_preorder : PreOrder inplace.
Proof.
  split.
  - intros p. split; [done|reflexivity].
  - intros p q r [I1 T1] [I2 T2]. split; [tauto|by transitivity q].
Qed.

Lemma same_shape_names i i' : same_shape i i' -> map q_name (i_questions i') = map q_name (i_questions i).
Proof.
  intros (_ & Hs & _). assert (Hn : forall qs, map q_name qs = map (fun s => s.1.1.1) (map q_shape qs)).
  { intros qs. rewrite map_map. reflexivity. }
  by rewrite !Hn, Hs.
Qed.

Lemma has_name_shape i i' n : same_shape i i' -> has_name i' n <-> has_name i n.
Proof. intros Hs. unfold has_name. by rewrite (same_shape_names _ _ Hs). Qed.

Lemma has_name_shape_bool i i' n :
  same_shape i i' -> bool_decide (has_name i' n) = bool_decide (has_name i n).
Proof. intros Hs. apply bool_decide_ext, has_name_shape, Hs. Qed.

Lemma update_question_shape i idx f :
  (forall q, q_shape (f q) = q_shape q) -> same_shape i (update_question i idx f).
Proof.
  intros Hf. unfold same_shape, update_question. simpl. split_and!; try done.
  revert idx. induction (i_questions i) as [|q qs IH]; intros [|idx]; simpl; try done.
  - by rewrite Hf.
  - f_equal. apply IH.
Qed.

Lemma q_with_display_shape v q : q_shape (q_with_display v q) = q_shape q.
Proof. reflexivity. Qed.
Lemma q_with_choices_shape cs q : q_shape (q_with_choices cs q) = q_shape q.
Proof. reflexivity. Qed.
Lemma q_with_el_value_shape v q : q_shape (q_with_el_value v q) = q_shape q.
Proof. unfold q_shape. simpl. by destruct (q_el q). Qed.

#[export] Hint Resolve q_with_display_shape q_with_choices_shape q_with_el_value_shape : js.

(** A change of the live survey's questions that keeps their shape and
    leaves data, store and the other fields alone. *)
Lemma modify_survey_inplace f p :
  (forall i, same_shape i (f i) /\ i_data (f i) = i_data i) ->
  inplace p (with_survey p (f <$> survey p)).
Proof.
  intros Hf. split.
  - intros Hinv i' Hs. destruct (survey p) as [i|] eqn:Hp; simpl in Hs; [|done]. injection Hs as <-.
    destruct (Hinv i Hp) as [(Hc & Hv & Hr) Ha]. destruct (Hf i) as [(? & ? & ? & ? & ?) Hd].
    split; [repeat split; congruence|]. intros n sv Hn Hname. rewrite Hd.
    apply Ha; [done|]. by apply (has_name_shape _ _ _ (proj1 (Hf i))).
  - repeat split; first [exact (fun _ H => H) | simpl; destruct (survey p); simpl; [apply Hf|done]].
Qed.

Lemma with_effects_inplace p es : inplace p (with_effects p es).
Proof. split; [done|]. repeat split; first [exact (fun _ H => H) | simpl; destruct (survey p); simpl; [reflexivity|done]]. Qed.

(** [quiet p p']: an in-place change that, while the invariant holds,
    leaves the store and the survey data unchanged (only displays, choices,
    element values and effects move). *)
Definition quiet (p p' : page) : Prop :=
  inplace p p' /\
  (page_inv p -> questionValues p' = questionValues p /\
                 opt_rel (fun i i' => i_data i' = i_data i) (survey p) (survey p')).

#[export] Instance quiet_preorder : PreOrder quiet.
Proof.
  split.
  - intros p. split; [reflexivity|]. intros _. split; [done|]. destruct (survey p); simpl; done.
  - intros p q r [I1 Q1] [I2 Q2]. split; [by transitivity q|]. intros Hp.
    destruct (Q1 Hp) as [S1 D1]. destruct (Q2 (proj1 I1 Hp)) as [S2 D2]. split; [congruence|].
    destruct (survey p), (survey q), (survey r); simpl in *; try done; congruence.
Qed.

Lemma modify_survey_quiet f p :
  (forall i, same_shape i (f i) /\ i_data (f i) = i_data i) ->
  quiet p (with_survey p (f <$> survey p)).
Proof.
  intros Hf. split; [by apply modify_survey_inplace|]. intros _. split; [done|].
  simpl. destruct (survey p); simpl; [apply Hf|done].
Qed.

Section PageLemmas.
Context `{FormEngine}.

Lemma emit_inplace e : preserves inplace (emit e).
Proof. apply preserves_modify. intros p. apply with_effects_inplace. Qed.

Lemma set_display_inplace idx v : preserves inplace (set_display idx v).
Proof.
  apply preserves_modify. intros p. apply modify_survey_inplace. intros i.
  split; [apply update_question_shape; auto with js|done].
Qed.

Lemma set_el_value_inplace idx v : preserves inplace (set_el_value idx v).
Proof.
  unfold set_el_value. pseq; [|apply emit_inplace].
  apply preserves_modify. intros p. apply modify_survey_inplace. intros i.
  split; [apply update_question_shape; auto with js|done].
Qed.

(** [question.value = v] with the handlers registered keeps the invariant:
    either the engine reports the change and the handler records it, or
    it sees no change and the data stays as it was. *)
(** Writing [v] under the name [k] in the survey data: the store that
    also records [v] under [k], or the store when [k] already had [v],
    still agrees with the data. *)
Lemma store_agrees_set m i i' k v :
  store_agrees m i -> same_shape i i' ->
  (forall n, obj_get (i_data i') n = if String.eqb n k then v else obj_get (i_data i) n) ->
  store_agrees (<[k := v]> m) i'.
Proof.
  intros Ha Hsh Hd n sv Hm Hn. rewrite Hd. destruct (string_eqb_spec n k) as [->|Hne].
  - rewrite lookup_insert_eq in Hm. congruence.
  - rewrite lookup_insert_ne in Hm by congruence. apply Ha; [done|]. by apply (has_name_shape _ _ _ Hsh).
Qed.

Lemma store_agrees_set_same m i i' k v :
  store_agrees m i -> same_shape i i' -> obj_get (i_data i) k = v ->
  (forall n, obj_get (i_data i') n = if String.eqb n k then v else obj_get (i_data i) n) ->
  store_agrees m i'.
Proof.
  intros Ha Hsh Hk Hd n sv Hm Hn. rewrite Hd. apply (has_name_shape _ _ _ Hsh) in Hn.
  destruct (string_eqb_spec n k) as [->|Hne]; rewrite <- ?Hk; by apply Ha.
Qed.

Lemma set_question_value_inplace idx v : preserves inplace (set_question_value idx v).
Proof.
  intros p. unfold set_question_value, bind, get. destruct (survey p) as [i|] eqn:Hs.
  2:{ exists p. split; [done|reflexivity]. }
  destruct (i_questions i !! idx) as [q|] eqn:Hq.
  2:{ unfold engine_set_value. rewrite Hq. simpl. eexists. split; [reflexivity|].
      split; [|repeat split; simpl; first [exact (fun _ H => H) | by rewrite ?Hs]].
      intros Hinv i' [= <-]. apply (Hinv i Hs). }
  pose proof (engine_set_value_data i idx q v) as Hdata.
  pose proof (engine_set_value_note i idx q v Hq) as Hnote.
  pose proof (engine_set_value_questions i idx v) as Hqs.
  pose proof (engine_set_value_id i idx v) as Hid.
  pose proof (engine_set_value_handlers i idx v) as (Hc & Hv & Hr).
  destruct (engine_set_value i idx v) as [i' note]. simpl in *.
  assert (Hshape : same_shape i i') by (repeat split; congruence).
  assert (Htouch : forall p', survey p' = Some i' -> lastLoadedSurveyJSON p' = lastLoadedSurveyJSON p ->
            doc_title p' = doc_title p -> container p' = container p ->
            dropdown_settings p' = dropdown_settings p -> next_id p' = next_id p ->
            store_grows p p' -> touch p p')
    by (intros p' Hs' ??????; repeat split; try done; by rewrite Hs, Hs').
  destruct note as [[n v']|]; simpl.
  - eexists. split; [reflexivity|]. split; [|apply Htouch; try reflexivity].
    2:{ intros m Hm. simpl. rewrite lookup_insert. case_decide; [done|exact Hm]. }
    intros Hinv i2 [= <-]. destruct (Hinv i Hs) as [Hon Ha].
    split; [unfold handlers_on in *; rewrite Hc, Hv, Hr; done|].
    destruct (i_on_value_changed i && negb (fe_same (question_value i q) v)); [|done].
    injection Hnote as -> ->. apply (store_agrees_set _ i); [done|done|]. intros m. by apply Hdata.
  - eexists. split; [reflexivity|]. split; [|apply Htouch; try reflexivity; by intros m].
    intros Hinv i2 [= <-]. destruct (Hinv i Hs) as [Hon Ha].
    split; [unfold handlers_on in *; rewrite Hc, Hv, Hr; done|].
    destruct Hon as (_ & Hon & _). rewrite Hon in Hnote. simpl in Hnote.
    destruct (fe_same (question_value i q) v) eqn:Hsame; [|done].
    apply fe_same_sound in Hsame.
    apply (store_agrees_set_same _ i _ (q_name q) v); [done|done|done|]. intros m. by apply Hdata.
Qed.

Lemma emit_quiet e : preserves quiet (emit e).
Proof.
  apply preserves_modify. intros p. split; [apply with_effects_inplace|]. intros _.
  split; [done|]. simpl. destruct (survey p); simpl; done.
Qed.

Lemma set_display_quiet idx v : preserves quiet (set_display idx v).
Proof.
  apply preserves_modify. intros p. apply modify_survey_quiet. intros i.
  split; [apply update_question_shape; auto with js|done].
Qed.

Lemma set_choices_quiet idx cs : preserves quiet (set_choices idx cs).
Proof.
  apply preserves_modify. intros p. apply modify_survey_quiet. intros i.
  split; [apply update_question_shape; auto with js|done].
Qed.

Lemma set_el_value_quiet idx v : preserves quiet (set_el_value idx v).
Proof.
  unfold set_el_value. pseq; [|apply emit_quiet].
  apply preserves_modify. intros p. apply modify_survey_quiet. intros i.
  split; [apply update_question_shape; auto with js|done].
Qed.

Lemma set_question_value_same p i idx q v :
  survey p = Some i -> i_questions i !! idx = Some q -> question_value i q = v ->
  set_question_value idx v p = (p, Ok tt).
Proof.
  intros Hs Hq Hv. unfold set_question_value, bind, get. rewrite Hs.
  rewrite (engine_set_value_same i idx q v Hq Hv). simpl. f_equal. rewrite <- Hs. by destruct p.
Qed.
End PageLemmas.

#[export] Hint Resolve emit_quiet set_display_quiet set_choices_quiet set_el_value_quiet : js.
#[export] Hint Resolve emit_inplace set_display_inplace set_el_value_inplace
  set_question_value_inplace : js.

(** ** The invariant as a boolean test, for concrete pages *)

Definition handlers_onb (i : instance) : bool :=
  i_on_complete i && i_on_value_changed i && i_on_after_render i.

Definition store_agreesb (m : gmap string (option json)) (i : instance) : bool :=
  forallb (fun nv => negb (bool_decide (has_name i nv.1)) || bool_decide (obj_get (i_data i) nv.1 = nv.2))
    (map_to_list m).

Definition page_invb (p : page) : bool :=
  match survey p with
  | Some i => handlers_onb i && store_agreesb (questionValues p) i
  | None => true
  end.

Lemma page_invb_sound p : page_invb p = true -> page_inv p.
Proof.
  unfold page_invb. intros Hb i Hs. rewrite Hs in Hb. apply andb_true_iff in Hb as [Hh Ha].
  unfold handlers_onb in Hh. rewrite !andb_true_iff in Hh. destruct Hh as [[Hc Hv] Hr].
  split; [done|]. intros n sv Hn Hname. unfold store_agreesb in Ha. rewrite forallb_forall in Ha.
  specialize (Ha (n, sv)). rewrite <- list_elem_of_In, elem_of_map_to_list in Ha. specialize (Ha Hn).
  simpl in Ha. rewrite bool_decide_eq_true_2 in Ha by done. simpl in Ha. by apply bool_decide_eq_true in Ha.
Qed.

Section SetValueRun.
Context `{FormEngine}.

(** [question.value = v] in full: the data take [v] under the question's
    name, and the store records it exactly when the engine reports a
    change to a registered handler. *)
Lemma set_question_value_run p i idx q v :
  survey p = Some i -> i_questions i !! idx = Some q ->
  exists p1, set_question_value idx v p = (p1, Ok tt) /\
    survey p1 = Some (with_data i (set_data (i_data i) (q_name q) v)) /\
    questionValues p1 = (if i_on_value_changed i && negb (fe_same (question_value i q) v)
                         then <[q_name q := v]> (questionValues p) else questionValues p) /\
    effects p1 = (if i_on_value_changed i && negb (fe_same (question_value i q) v)
                  then SetInputValue "selectedChoice" (selected_choice (q_name q) v) :: effects p
                  else effects p).
Proof.
  intros Hs Hq. unfold set_question_value. rewrite bind_get, Hs. unfold engine_set_value. rewrite Hq.
  destruct (i_on_value_changed i && negb (fe_same (question_value i q) v)); simpl; by eexists.
Qed.
End SetValueRun.
