(* ===== verification/ValueStore.v ===== *)
(** The Value Store of [src/www/survey.js] (spec component 1): the
    [questionValues] map of the page and the two passes that copy answers
    between it and the live survey, [preserveQuestionValues] (lines 10-19)
    and [restoreQuestionValues] (lines 21-35).  The third operation,
    [recordChange], is the first statement of the [onValueChanged] handler
    ([Page.onValueChanged]).

    Theorems: the store after a preserve pass, the survey data after a
    restore pass, and the independence of the restore pass from the order
    the map is visited in. *)

From S2P Require Import Prelude Json Js FormEngine SurveyJs Page.

Section ValueStore.
Context `{FormEngine}.

(** [preserveQuestionValues], lines 10-19. *)
Definition preserveQuestionValues : M unit :=
  p <- get;;
  match survey p with
  | Some i =>
      for_each (i_questions i) (fun q =>
        match question_value i q with
        | Some v => store_set (q_name q) (Some v)
        | None => ret tt
        end)
  | None => ret tt
  end.

(** One iteration of [restoreQuestionValues], lines 24-32. *)
Definition restore_entry (name : string) (value : option json) : M unit :=
  p <- get;;
  match survey p with
  | None => ret tt
  | Some i =>
      match getQuestionByName i name with
      | None => ret tt
      | Some idx =>
          set_question_value idx value;;
          match i_questions i !! idx with
          | Some q => if String.eqb (q_type q) "dropdown" then set_display idx value else ret tt
          | None => ret tt
          end
      end
  end.

(** [restoreQuestionValues], lines 21-35.  The entries are visited in the
    order of [map_to_list]; a JavaScript [Map] visits them in insertion
    order, and [restore_data] below shows the result does not depend on
    the order while the value-changed handler is not registered, which is
    the only situation the code calls it in. *)
Definition restoreQuestionValues : M unit :=
  p <- get;;
  match survey p with
  | Some _ => for_each (map_to_list (questionValues p)) (fun nv => restore_entry nv.1 nv.2)
  | None => ret tt
  end.

End ValueStore.

(** ** What the two passes compute *)

(** The store after a preserve pass over the questions of [i]. *)
Definition preserve_store (i : instance) (m : gmap string (option json)) : gmap string (option json) :=
  fold_left (fun m q => match question_value i q with
                        | Some v => <[q_name q := Some v]> m
                        | None => m
                        end) (i_questions i) m.

Section ValueStoreLemmas.
Context `{FormEngine}.

Lemma preserveQuestionValues_run p i :
  survey p = Some i ->
  preserveQuestionValues p = (with_store p (preserve_store i (questionValues p)), Ok tt).
Proof.
  intros Hs. unfold preserveQuestionValues, bind, get. rewrite Hs. unfold preserve_store.
  assert (Hgen : forall qs p', survey p' = Some i ->
    for_each qs (fun q => match question_value i q with
                          | Some v => store_set (q_name q) (Some v) | None => ret tt end) p'
    = (with_store p' (fold_left (fun m q => match question_value i q with
                                            | Some v => <[q_name q := Some v]> m
                                            | None => m end) qs (questionValues p')), Ok tt)).
  { induction qs as [|q qs IH]; intros p' Hs'; simpl; [by destruct p'|].
    destruct (question_value i q) as [v|]; unfold bind.
    - unfold store_set, modify. rewrite IH by done. reflexivity.
    - unfold ret. rewrite IH by done. reflexivity. }
  by apply Hgen.
Qed.

Lemma preserveQuestionValues_none p : survey p = None -> preserveQuestionValues p = (p, Ok tt).
Proof. intros Hs. unfold preserveQuestionValues, bind, get. by rewrite Hs. Qed.

(** After a preserve pass, a name of the survey with a value maps to that
    value; every other entry is as before. *)
Lemma preserve_store_lookup i m n :
  preserve_store i m !! n =
  if bool_decide (has_name i n)
  then match obj_get (i_data i) n with Some v => Some (Some v) | None => m !! n end
  else m !! n.
Proof.
  unfold preserve_store, has_name_dec, has_name. generalize (i_questions i) as qs. intros qs. revert m.
  induction qs as [|q qs IH]; intros m; simpl; [done|].
  rewrite IH. unfold question_value.
  destruct (string_eqb_spec (q_name q) n) as [<-|Hne].
  - rewrite (bool_decide_eq_true_2 (_ \/ _)) by tauto.
    destruct (obj_get (i_data i) (q_name q)) as [v|] eqn:Hv.
    + case_bool_decide; [done|]. by rewrite lookup_insert_eq.
    + by case_bool_decide.
  - destruct (obj_get (i_data i) (q_name q)) as [v|];
      [rewrite (lookup_insert_ne _ _ _ _ Hne)|];
      repeat case_bool_decide; try done; tauto.
Qed.

(** One restore step while [onValueChanged] is not registered: the named
    question takes the stored value, nothing is reported and only the
    survey changes. *)
Lemma restore_entry_run p i name value :
  survey p = Some i -> i_on_value_changed i = false ->
  exists i', restore_entry name value p = (with_survey p (Some i'), Ok tt) /\
    same_shape i i' /\
    forall n, obj_get (i_data i') n =
      if bool_decide (has_name i name) && String.eqb n name then value else obj_get (i_data i) n.
Proof.
  intros Hs Hoff. unfold restore_entry, bind, get. rewrite Hs.
  destruct (getQuestionByName i name) as [idx|] eqn:Hg.
  - destruct (getQuestionByName_Some _ _ _ Hg) as (q & Hq & <-).
    pose proof (engine_set_value_data i idx q value) as Hdata.
    pose proof (engine_set_value_note i idx q value Hq) as Hnote.
    pose proof (engine_set_value_questions i idx value) as Hqs.
    pose proof (engine_set_value_id i idx value) as Hid.
    pose proof (engine_set_value_handlers i idx value) as (Hc & Hv & Hr).
    rewrite Hoff in Hnote. simpl in Hnote.
    unfold set_question_value, bind, get. rewrite Hs.
    destruct (engine_set_value i idx value) as [i1 note]. simpl in *. subst note.
    unfold put. rewrite Hq. rewrite (bool_decide_eq_true_2 _ (has_name_lookup _ _ _ Hq)).
    assert (Hshape1 : same_shape i i1) by (repeat split; congruence).
    destruct (String.eqb (q_type q) "dropdown").
    + eexists. split; [reflexivity|]. split.
      * transitivity i1; [done|]. apply update_question_shape. auto with js.
      * intros n. simpl. rewrite (Hdata n Hq). by destruct (String.eqb n (q_name q)).
    + eexists. split; [unfold ret; simpl; by destruct p|]. split; [done|].
      intros n. rewrite (Hdata n Hq). by destruct (String.eqb n (q_name q)).
  - exists i. split; [unfold ret; simpl; f_equal; rewrite <- Hs; by destruct p|].
    split; [reflexivity|]. apply getQuestionByName_None in Hg.
    rewrite bool_decide_eq_false_2 by done. done.
Qed.

(** A restore pass over entries with distinct names: every name of the
    survey that has an entry takes the entry's value, all other data is
    unchanged. *)
Lemma restore_list_run p i (l : list (string * option json)) :
  survey p = Some i -> i_on_value_changed i = false -> NoDup l.*1 ->
  exists i', for_each l (fun nv => restore_entry nv.1 nv.2) p = (with_survey p (Some i'), Ok tt) /\
    same_shape i i' /\
    forall n, obj_get (i_data i') n =
      match (list_to_map l : gmap string (option json)) !! n with
      | Some sv => if bool_decide (has_name i n) then sv else obj_get (i_data i) n
      | None => obj_get (i_data i) n
      end.
Proof.
  revert p i. induction l as [|[name value] l IH]; intros p i Hs Hoff Hnd; simpl.
  - exists i. split; [unfold ret; f_equal; rewrite <- Hs; by destruct p|].
    split; [reflexivity|]. intros n. by rewrite lookup_empty.
  - apply NoDup_cons in Hnd as [Hnin Hnd].
    destruct (restore_entry_run p i name value Hs Hoff) as (i1 & E1 & Sh1 & D1).
    rewrite (bind_run_ok _ _ _ _ _ E1).
    assert (Hoff1 : i_on_value_changed i1 = false) by (destruct Sh1 as (_&_&_&?&_); congruence).
    destruct (IH (with_survey p (Some i1)) i1 eq_refl Hoff1 Hnd) as (i2 & E2 & Sh2 & D2).
    exists i2. rewrite E2. split; [done|]. split; [by transitivity i1|].
    intros n. rewrite D2, D1, (has_name_shape_bool _ _ _ Sh1).
    destruct (string_eqb_spec n name) as [->|Hne].
    + rewrite lookup_insert_eq.
      assert (Hl : (list_to_map l : gmap string (option json)) !! name = None).
      { by apply not_elem_of_list_to_map_1. }
      rewrite Hl, andb_true_r. by case_bool_decide.
    + rewrite lookup_insert_ne by congruence. rewrite andb_false_r.
      by destruct ((list_to_map l : gmap string (option json)) !! n); case_bool_decide.
Qed.

(** [restoreQuestionValues] on a survey whose [onValueChanged] handler is
    not registered yet: the result is the same for every visiting order of
    the map, namely every question's name that has an entry takes that
    entry's value; the store and everything but the survey are
    unchanged. *)
Lemma restore_data p i :
  survey p = Some i -> i_on_value_changed i = false ->
  exists i', restoreQuestionValues p = (with_survey p (Some i'), Ok tt) /\
    same_shape i i' /\
    forall n, obj_get (i_data i') n =
      match questionValues p !! n with
      | Some sv => if bool_decide (has_name i n) then sv else obj_get (i_data i) n
      | None => obj_get (i_data i) n
      end.
Proof.
  intros Hs Hoff. unfold restoreQuestionValues, bind, get. rewrite Hs.
  destruct (restore_list_run p i (map_to_list (questionValues p)) Hs Hoff (NoDup_fst_map_to_list _))
    as (i' & E & Sh & D).
  exists i'. split; [done|]. split; [done|]. intros n. by rewrite D, list_to_map_to_list.
Qed.
End ValueStoreLemmas.

(** C27. Round trip of the Value Store across a rebuild: a preserve pass
    over the live survey [i], then a fresh instance [i0] installed (its
    value-changed handler not yet registered, as in [initializeSurvey]),
    then a restore pass: every question of [i] that had an answer and that
    [i0] also has holds that answer again in the new survey, whatever
    [i0]'s defaults were.  Nothing else of the page changes but the store
    the preserve pass wrote and the survey, whose questions keep their
    shape. *)
Theorem preserve_restore_roundtrip `{FormEngine} p i i0 :
  survey p = Some i -> i_on_value_changed i0 = false ->
  exists i', (preserveQuestionValues;; modify (fun p => with_survey p (Some i0));; restoreQuestionValues) p =
               (with_survey (with_store p (preserve_store i (questionValues p))) (Some i'), Ok tt) /\
    same_shape i0 i' /\
    forall n v, has_name i n -> has_name i0 n -> obj_get (i_data i) n = Some v -> obj_get (i_data i') n = Some v.
Proof.
  intros Hs Hoff.
  rewrite (bind_run_ok _ _ _ _ _ (preserveQuestionValues_run p i Hs)), bind_modify.
  destruct (restore_data (with_survey (with_store p (preserve_store i (questionValues p))) (Some i0)) i0
              eq_refl Hoff) as (i' & E & Sh & D).
  exists i'. rewrite E. split; [by destruct p|]. split; [done|]. intros n v Hn Hn0 Hv.
  rewrite D. simpl. rewrite preserve_store_lookup, (bool_decide_eq_true_2 _ Hn), Hv, (bool_decide_eq_true_2 _ Hn0).
  done.
Qed.

(** A survey whose [q1] is answered ["a"], and the fresh instance of the
    same definition, whose [q1] has no default. *)
Definition roundtrip_inst : instance :=
  mk_instance 0 [question_of [] "q1" "dropdown"] [("q1", JStr "a")] true true true.
Definition roundtrip_fresh : instance :=
  mk_instance 1 [question_of [] "q1" "dropdown"] [] false false false.

Lemma preserve_restore_roundtrip_witness :
  exists i', (preserveQuestionValues;; modify (fun p => with_survey p (Some roundtrip_fresh));; restoreQuestionValues)
               (with_survey init_page (Some roundtrip_inst)) =
    (with_survey (with_store (with_survey init_page (Some roundtrip_inst))
                   (preserve_store roundtrip_inst ∅)) (Some i'), Ok tt) /\
    same_shape roundtrip_fresh i' /\
    forall n v, has_name roundtrip_inst n -> has_name roundtrip_fresh n ->
      obj_get (i_data roundtrip_inst) n = Some v -> obj_get (i_data i') n = Some v.
Proof.
  exact (preserve_restore_roundtrip (with_survey init_page (Some roundtrip_inst)) roundtrip_inst roundtrip_fresh
           eq_refl eq_refl).
Defined.
