(* ===== verification/Controller.v ===== *)
(** The Survey Lifecycle Controller of [src/www/survey.js]: the
    [onComplete] and [onAfterRenderQuestion] handlers, a render pass,
    [updateDocumentTitle] and [initializeSurvey] (lines 37-127), stated for
    an arbitrary [FormEngine]. *)

From S2P Require Import Prelude Json Js JsonParse JsonFuel ChangeDetector JsonRoundtrip FormEngine SurveyJs Page ValueStore.

Section Controller.
Context `{FormEngine}.

(** [survey.onComplete] handler, lines 79-82. *)
Definition onComplete (i : instance) : M unit :=
  emit (SetInputValue "surveyData" (JStr (JSON_stringify (JObj (i_data i))))).

(** [survey.onAfterRenderQuestion] handler, lines 100-118. *)
Definition onAfterRenderQuestion (idx : nat) : M unit :=
  p <- get;;
  match current_question p idx with
  | None => ret tt
  | Some q =>
      if String.eqb (q_type q) "dropdown" then
        match questionValues p !! q_name q with
        | Some (Some stored) =>
            set_question_value idx (Some stored);;
            set_display idx (Some stored);;
            match q_el q with
            | Some (mk_el TagSelect _) =>
                set_el_value idx (JStr (js_to_string stored));;
                emit (DomEvent idx "change")
            | _ => ret tt
            end
        | _ => ret tt
        end
      else ret tt
  end.

(** A render pass ([survey.render()], or the first rendering by
    [$("#surveyContainer").Survey({ model: survey })]): the engine calls
    the after-render handler for every question it renders. *)
Definition render_survey : M unit :=
  p <- get;;
  match survey p with
  | None => ret tt
  | Some i => emit (Rendered (i_id i));; for_each (render_targets i) onAfterRenderQuestion
  end.

(** ** [initializeSurvey], lines 37-127 *)

(** [updateDocumentTitle], lines 37-42.  Assigning [document.title]
    stores the string form [String(v)] of the value. *)
Definition updateDocumentTitle (j : json) : M unit :=
  match get_prop j "title" with
  | Throw e => throw e
  | Ok t => if truthy_opt t then modify (fun p => with_title p ((fun v => JStr (js_to_string v)) <$> t))
            else ret tt
  end.

Definition parse_if_string (j : json) : M json :=
  match j with
  | JStr s => match JSON_parse s with
              | Some d => ret d
              | None => throw (SyntaxError "Unexpected token in JSON")
              end
  | _ => ret j
  end.

Definition dropdown_config : json :=
  JObj [("searchEnabled", JBool true); ("closeOnSelect", JBool true);
        ("preserveSelectedPosition", JBool true); ("renderMode", JStr "modern")].

(** [new Survey.Model(surveyJSON)]: a fresh instance with no handler. *)
Definition new_survey_model (j : json) : M instance :=
  p <- get;;
  match fe_build j with
  | Throw e => throw e
  | Ok (qs, data) =>
      put (with_next_id p (S (next_id p)));;
      ret (mk_instance (next_id p) qs data false false false)
  end.

Definition register_handlers (i : instance) : instance :=
  mk_instance (i_id i) (i_questions i) (i_data i) true true true.

(** The body of the [try] block, after the idempotence check. *)
Definition rebuild (surveyJSON : json) : M unit :=
  preserveQuestionValues;;
  j <- parse_if_string surveyJSON;;
  updateDocumentTitle j;;
  modify (fun p => with_container p None);;
  emit ContainerEmptied;;
  modify (fun p => with_dropdown p (Some dropdown_config));;
  inst <- new_survey_model j;;
  modify (fun p => with_survey p (Some inst));;
  modify (fun p => with_last p j);;
  restoreQuestionValues;;
  modify_survey register_handlers;;
  modify (fun p => with_container p (i_id <$> survey p));;
  render_survey;;
  emit (Console LvlLog "Survey initialized" None).

Definition is_unchanged (p : page) (j : json) : bool :=
  truthy (lastLoadedSurveyJSON p) && areJSONsEqual (lastLoadedSurveyJSON p) j.

Definition initializeSurvey (surveyJSON : json) : M unit :=
  try_catch
    (p <- get;;
     if is_unchanged p surveyJSON
     then emit (Console LvlLog "Identical survey JSON. Skipping re-initialization." None)
     else rebuild surveyJSON)
    (fun e => emit (ConsoleExn "Error initializing survey:" e);; emit ConsoleTrace).
End Controller.

(** ** A render pass *)

Section RenderLemmas.
Context `{FormEngine}.

(** While the invariant holds, the after-render handler writes back the
    value the question already has: only the display value, the native
    [select] and the effects change. *)
Lemma onAfterRenderQuestion_quiet idx : preserves quiet (onAfterRenderQuestion idx).
Proof.
  apply preserves_get. intros p.
  destruct (current_question p idx) as [q|] eqn:Hq; [|exists p; split; [done|reflexivity]].
  destruct (String.eqb (q_type q) "dropdown"); [|exists p; split; [done|reflexivity]].
  destruct (questionValues p !! q_name q) as [[stored|]|] eqn:Hst;
    try (exists p; split; [done|reflexivity]).
  destruct (set_question_value_inplace idx (Some stored) p) as (p1 & E1 & I1).
  eapply (@preserves_bind_at _ _ quiet _ _ _ _ _ E1).
  - split; [done|]. intros Hinv. unfold current_question in Hq.
    destruct (survey p) as [i|] eqn:Hs; simpl in Hq; [|done].
    destruct (Hinv i Hs) as [_ Ha].
    assert (Hv : question_value i q = Some stored).
    { apply Ha; [done|]. by eapply has_name_lookup. }
    rewrite (set_question_value_same p i idx q _ Hs Hq Hv) in E1. injection E1 as <-.
    split; [done|]. rewrite Hs. done.
  - pseq; [apply set_display_quiet|].
    destruct (q_el q) as [[[] ev]|]; try pret.
    pseq; [apply set_el_value_quiet|apply emit_quiet].
Qed.

Lemma render_survey_quiet : preserves quiet render_survey.
Proof.
  apply preserves_get_dep. intros p0. destruct (survey p0) as [i|]; [|pret].
  pseq; [apply emit_quiet|]. ploop. apply onAfterRenderQuestion_quiet.
Qed.
End RenderLemmas.

#[export] Hint Resolve onAfterRenderQuestion_quiet render_survey_quiet : js.

(** ** [initializeSurvey]: its steps, the accepted path and the error paths *)

(** The definition object [initializeSurvey] works on: the payload itself,
    or what [JSON.parse] makes of it when it is a string. *)
Definition parsed (j : json) : option json :=
  match j with
  | JStr s => JSON_parse s
  | _ => Some j
  end.

(** The store after the preserve pass of page [p]. *)
Definition preserved_store (p : page) : gmap string (option json) :=
  match survey p with
  | Some i => preserve_store i (questionValues p)
  | None => questionValues p
  end.

(** [document.title] after [updateDocumentTitle d]. *)
Definition new_title (old : option json) (d : json) : option json :=
  match get_prop d "title" with
  | Ok t => if truthy_opt t then (fun v => JStr (js_to_string v)) <$> t else old
  | Throw _ => old
  end.

Definition title_of (p : page) (d : json) : page := with_title p (new_title (doc_title p) d).

Section InitLemmas.
Context `{FormEngine}.

Lemma preserve_run p : preserveQuestionValues p = (with_store p (preserved_store p), Ok tt).
Proof.
  unfold preserved_store. destruct (survey p) as [i|] eqn:Hs.
  - by apply preserveQuestionValues_run.
  - rewrite preserveQuestionValues_none by done. f_equal. by destruct p.
Qed.

Lemma parse_if_string_ok j d p : parsed j = Some d -> parse_if_string j p = (p, Ok d).
Proof.
  intros Hd. unfold parse_if_string. destruct j; simpl in Hd; try (injection Hd as <-; reflexivity).
  by rewrite Hd.
Qed.

Lemma parse_if_string_err j p : parsed j = None -> exists e, parse_if_string j p = (p, Throw e).
Proof. destruct j; simpl; try done. intros Hd. rewrite Hd. by eexists. Qed.

Lemma updateDocumentTitle_ok d p : d <> JNull -> updateDocumentTitle d p = (title_of p d, Ok tt).
Proof.
  intros Hd. unfold updateDocumentTitle, title_of, new_title.
  destruct (get_prop d "title") as [t|e] eqn:Ht; [|by destruct d].
  destruct (truthy_opt t); [done|]. unfold ret. f_equal. by destruct p.
Qed.

Lemma updateDocumentTitle_null p : exists e, updateDocumentTitle JNull p = (p, Throw e).
Proof. by eexists. Qed.

Lemma new_survey_model_ok d qs d0 p :
  fe_build d = Ok (qs, d0) ->
  new_survey_model d p = (with_next_id p (S (next_id p)), Ok (mk_instance (next_id p) qs d0 false false false)).
Proof. intros Hb. unfold new_survey_model. by rewrite bind_get, Hb. Qed.

Lemma new_survey_model_err d e p : fe_build d = Throw e -> new_survey_model d p = (p, Throw e).
Proof. intros Hb. unfold new_survey_model. by rewrite bind_get, Hb. Qed.

(** The invariant holds right after the restore pass, once the handlers are
    registered. *)
Lemma restored_inv p i i' :
  survey p = Some (register_handlers i') -> i_on_value_changed i = false ->
  same_shape i i' ->
  (forall n, obj_get (i_data i') n =
     match questionValues p !! n with
     | Some sv => if bool_decide (has_name i n) then sv else obj_get (i_data i) n
     | None => obj_get (i_data i) n
     end) ->
  page_inv p.
Proof.
  intros Hs Hoff Sh D i2 Hs2. rewrite Hs in Hs2. injection Hs2 as <-.
  split; [done|]. intros n sv Hn Hname. simpl. rewrite D, Hn.
  rewrite bool_decide_eq_true_2; [done|]. apply (has_name_shape _ _ _ Sh), Hname.
Qed.
End InitLemmas.

Section Rebuild.
Context `{FormEngine}.

(** What a rebuild that gets through all its steps produces: a fresh
    survey (the next identity) with the definition's questions, the
    handlers registered and bound to the container, the definition
    recorded as the last one loaded, the preserved store, the invariant,
    and survey data in which every question name with a stored entry has
    the stored value while all other data are the definition's defaults. *)
Lemma rebuild_accepts p j d qs d0 :
  parsed j = Some d -> d <> JNull -> fe_build d = Ok (qs, d0) ->
  exists p' i',
    rebuild j p = (p', Ok tt) /\
    survey p' = Some i' /\ i_id i' = next_id p /\ next_id p' = S (next_id p) /\
    map q_shape (i_questions i') = map q_shape qs /\ handlers_on i' /\
    lastLoadedSurveyJSON p' = d /\ container p' = Some (next_id p) /\
    questionValues p' = preserved_store p /\ page_inv p' /\
    (forall n, obj_get (i_data i') n =
      match preserved_store p !! n with
      | Some sv => if bool_decide (In n (map q_name qs)) then sv else obj_get d0 n
      | None => obj_get d0 n
      end) /\
    doc_title p' = new_title (doc_title p) d /\ dropdown_settings p' = Some dropdown_config.
Proof.
  intros Hd Hnn Hb. unfold rebuild.
  rewrite (bind_run_ok _ _ _ _ _ (preserve_run p)), (bind_run_ok _ _ _ _ _ (parse_if_string_ok _ _ _ Hd)),
    (bind_run_ok _ _ _ _ _ (updateDocumentTitle_ok _ _ Hnn)).
  unfold emit, modify_survey. rewrite !bind_modify, (bind_run_ok _ _ _ _ _ (new_survey_model_ok _ _ _ _ Hb)),
    !bind_modify.
  match goal with |- context [bind restoreQuestionValues _ ?q] =>
    destruct (restore_data q (mk_instance (next_id p) qs d0 false false false) eq_refl eq_refl)
      as (i9 & E9 & Sh9 & D9) end.
  rewrite (bind_run_ok _ _ _ _ _ E9), !bind_modify. simpl in D9.
  match goal with |- context [bind render_survey _ ?q] =>
    assert (Hinv : page_inv q) by exact (restored_inv q (mk_instance (next_id p) qs d0 false false false) i9 eq_refl eq_refl Sh9 D9);
    destruct (render_survey_quiet q) as (p12 & E12 & [[Hinv12 (T1 & T2 & T3 & T4 & T5 & T6 & T7)] Q])
  end.
  rewrite (bind_run_ok _ _ _ _ _ E12). destruct (Q Hinv) as [Qs Qd]. simpl in *.
  destruct (survey p12) as [i12|] eqn:Hs12; [|done].
  destruct Sh9 as (Id9 & Q9 & _), T6 as (Id12 & Q12 & C12 & V12 & R12).
  eexists _, i12. split; [reflexivity|]. simpl in *.
  split_and!; first
    [ done | congruence
    | unfold handlers_on; by rewrite C12, V12, R12
    | apply (proj1 (with_effects_inplace p12 _)), Hinv12, Hinv
    | intros n; rewrite Qd, D9; reflexivity ].
Qed.
End Rebuild.

Section InitBranches.
Context `{FormEngine}.

Definition init_error (p : page) (e : exn) : page :=
  with_effects p (ConsoleTrace :: ConsoleExn "Error initializing survey:" e :: effects p).

Lemma initializeSurvey_skip p j :
  is_unchanged p j = true ->
  initializeSurvey j p =
    (with_effects p (Console LvlLog "Identical survey JSON. Skipping re-initialization." None
                     :: effects p), Ok tt).
Proof. intros Hu. unfold initializeSurvey, try_catch. by rewrite bind_get, Hu. Qed.

(** A definition text [JSON.parse] rejects: the error is logged after the
    preserve pass has already run. *)
Lemma initializeSurvey_parse_error p j :
  is_unchanged p j = false -> parsed j = None ->
  exists e, initializeSurvey j p = (init_error (with_store p (preserved_store p)) e, Ok tt).
Proof.
  intros Hu Hj. destruct (parse_if_string_err j (with_store p (preserved_store p)) Hj) as [e He].
  exists e. unfold initializeSurvey, try_catch. rewrite bind_get, Hu. unfold rebuild.
  by rewrite (bind_run_ok _ _ _ _ _ (preserve_run p)), (bind_run_throw _ _ _ _ _ He).
Qed.

(** A definition that is (or parses to) [null]: [surveyJSON.title] throws
    a [TypeError], again after the preserve pass. *)
Lemma initializeSurvey_null_error p j :
  is_unchanged p j = false -> parsed j = Some JNull ->
  exists e, initializeSurvey j p = (init_error (with_store p (preserved_store p)) e, Ok tt).
Proof.
  intros Hu Hj. destruct (updateDocumentTitle_null (with_store p (preserved_store p))) as [e He].
  exists e. unfold initializeSurvey, try_catch. rewrite bind_get, Hu. unfold rebuild.
  by rewrite (bind_run_ok _ _ _ _ _ (preserve_run p)), (bind_run_ok _ _ _ _ _ (parse_if_string_ok _ _ _ Hj)),
    (bind_run_throw _ _ _ _ _ He).
Qed.

(** [new Survey.Model] throws: the container has been emptied and the
    dropdown setting written, but [survey] still holds the previous
    instance. *)
Lemma initializeSurvey_engine_error p j d e :
  is_unchanged p j = false -> parsed j = Some d -> d <> JNull -> fe_build d = Throw e ->
  initializeSurvey j p =
    (init_error (with_dropdown (with_effects (with_container (title_of (with_store p (preserved_store p)) d) None)
                                 (ContainerEmptied :: effects p)) (Some dropdown_config)) e, Ok tt).
Proof.
  intros Hu Hj Hn Hb. unfold initializeSurvey, try_catch. rewrite bind_get, Hu. unfold rebuild.
  rewrite (bind_run_ok _ _ _ _ _ (preserve_run p)), (bind_run_ok _ _ _ _ _ (parse_if_string_ok _ _ _ Hj)),
    (bind_run_ok _ _ _ _ _ (updateDocumentTitle_ok _ _ Hn)).
  unfold emit. rewrite !bind_modify. by rewrite (bind_run_throw _ _ _ _ _ (new_survey_model_err _ _ _ Hb)).
Qed.

Lemma initializeSurvey_rebuild p j :
  is_unchanged p j = false -> initializeSurvey j p = try_catch (rebuild j)
    (fun e => emit (ConsoleExn "Error initializing survey:" e);; emit ConsoleTrace) p.
Proof. intros Hu. unfold initializeSurvey, try_catch. by rewrite bind_get, Hu. Qed.

(** The four ways a call of [initializeSurvey] can end. *)
Inductive init_result (p : page) (j : json) : page -> Prop :=
| ir_skip : is_unchanged p j = true ->
    init_result p j (with_effects p (Console LvlLog "Identical survey JSON. Skipping re-initialization." None
                                     :: effects p))
| ir_error e : is_unchanged p j = false -> parsed j = None \/ parsed j = Some JNull ->
    init_result p j (init_error (with_store p (preserved_store p)) e)
| ir_engine d e : is_unchanged p j = false -> parsed j = Some d -> d <> JNull -> fe_build d = Throw e ->
    init_result p j (init_error (with_dropdown (with_effects (with_container
                       (title_of (with_store p (preserved_store p)) d) None)
                       (ContainerEmptied :: effects p)) (Some dropdown_config)) e)
| ir_accept d qs d0 p' : is_unchanged p j = false -> parsed j = Some d -> d <> JNull ->
    fe_build d = Ok (qs, d0) -> rebuild j p = (p', Ok tt) -> init_result p j p'.

Lemma initializeSurvey_result p j :
  snd (initializeSurvey j p) = Ok tt /\ init_result p j (fst (initializeSurvey j p)).
Proof.
  destruct (is_unchanged p j) eqn:Hu.
  { rewrite initializeSurvey_skip by done. split; [done|]. by constructor. }
  destruct (parsed j) as [d|] eqn:Hd.
  2:{ destruct (initializeSurvey_parse_error p j Hu Hd) as [e ->]. split; [done|]. constructor; auto. }
  destruct (decide (d = JNull)) as [->|Hn].
  { destruct (initializeSurvey_null_error p j Hu Hd) as [e ->]. split; [done|]. constructor; auto. }
  destruct (fe_build d) as [[qs d0]|e] eqn:Hb.
  - destruct (rebuild_accepts p j d qs d0 Hd Hn Hb) as (p' & i' & E & _).
    rewrite initializeSurvey_rebuild, (try_catch_run_ok _ _ _ _ _ E) by done.
    split; [done|]. by apply (ir_accept _ _ d qs d0).
  - rewrite (initializeSurvey_engine_error p j d e Hu Hd Hn Hb). split; [done|]. by apply (ir_engine _ _ d).
Qed.



(** The preserve pass keeps the invariant: it copies the survey's own
    values into the store. *)
Lemma preserved_store_inv p : page_inv p -> page_inv (with_store p (preserved_store p)).
Proof.
  intros Hinv i Hs. simpl in Hs. destruct (Hinv i Hs) as [Hon Ha]. split; [done|].
  intros n sv Hn Hname. simpl in Hn. unfold preserved_store in Hn. rewrite Hs in Hn.
  rewrite preserve_store_lookup, bool_decide_eq_true_2 in Hn by done.
  destruct (obj_get (i_data i) n) eqn:Hv; [congruence|]. rewrite <- Hv. by apply Ha.
Qed.
End InitBranches.

(** Case analysis on the way [initializeSurvey j p] ends. *)
Tactic Notation "init_cases" constr(p) constr(j) "as" simple_intropattern(pat) :=
  let R := fresh "R" in
  pose proof (proj2 (initializeSurvey_result p j)) as R; revert R;
  generalize (fst (initializeSurvey j p)); intros ? R; destruct R as pat.

Section InitCount.
Context `{FormEngine}.

(** An accepted definition builds one instance; every other outcome none. *)
Lemma initializeSurvey_next_id p j :
  next_id (fst (initializeSurvey j p)) = next_id p \/ next_id (fst (initializeSurvey j p)) = S (next_id p).
Proof.
  init_cases p j as [Hu|e Hu Hpe|d e Hu Hd Hn Hb|d qs d0 p' Hu Hd Hn Hb E]; simpl; auto.
  destruct (rebuild_accepts p j d qs d0 Hd Hn Hb) as (p'' & i' & E' & _ & _ & Hn' & _).
  rewrite E in E'. injection E' as <-. auto.
Qed.
End InitCount.

(** ** Properties of [initializeSurvey] *)

Section InitProperties.
Context `{FormEngine}.

(** C1. Idempotence: loading the same definition object twice builds at
    most one survey; the second call only logs that it skips. *)
Theorem initializeSurvey_idempotent p d qs d0 :
  parsed d = Some d -> truthy d = true -> fe_build d = Ok (qs, d0) ->
  let p1 := fst (initializeSurvey d p) in
  initializeSurvey d p1 =
    (with_effects p1 (Console LvlLog "Identical survey JSON. Skipping re-initialization." None
                      :: effects p1), Ok tt).
Proof.
  intros Hd Ht Hb p1. apply initializeSurvey_skip. subst p1.
  destruct (is_unchanged p d) eqn:Hu; [by rewrite initializeSurvey_skip|].
  assert (Hn : d <> JNull) by (intros ->; done).
  destruct (rebuild_accepts p d d qs d0 Hd Hn Hb) as (p' & i' & E & _ & _ & _ & _ & _ & Hl & _).
  rewrite initializeSurvey_rebuild, (try_catch_run_ok _ _ _ _ _ E) by done. simpl.
  unfold is_unchanged. by rewrite Hl, Ht, areJSONsEqual_refl.
Qed.

(** C2. Value preservation: a question that has a value keeps it across a
    rebuild, in every question of the new definition with the same name. *)
Theorem initializeSurvey_preserves_values p i k q v j d qs d0 :
  survey p = Some i -> i_questions i !! k = Some q -> question_value i q = Some v ->
  is_unchanged p j = false -> parsed j = Some d -> d <> JNull -> fe_build d = Ok (qs, d0) ->
  In (q_name q) (map q_name qs) ->
  exists p' i', initializeSurvey j p = (p', Ok tt) /\ survey p' = Some i' /\
    forall q', In q' (i_questions i') -> q_name q' = q_name q -> question_value i' q' = Some v.
Proof.
  intros Hs Hq Hv Hu Hd Hn Hb Hin.
  destruct (rebuild_accepts p j d qs d0 Hd Hn Hb) as (p' & i' & E & Hs' & _ & _ & Hsh & _ & _ & _ & _ & _ & D & _).
  exists p', i'. rewrite initializeSurvey_rebuild, (try_catch_run_ok _ _ _ _ _ E) by done.
  split; [done|]. split; [done|]. intros q' _ Hname. unfold question_value. rewrite Hname, D.
  unfold preserved_store. rewrite Hs, preserve_store_lookup, bool_decide_eq_true_2
    by (eapply has_name_lookup; eauto).
  unfold question_value in Hv. rewrite Hv. by rewrite bool_decide_eq_true_2.
Qed.

(** C14. [initializeSurvey] never lets an exception escape. *)
Theorem initializeSurvey_never_throws j p : exists p', initializeSurvey j p = (p', Ok tt).
Proof.
  unfold initializeSurvey, try_catch.
  match goal with |- context [match ?m p with _ => _ end] => destruct (m p) as [p1 [[]|e]] end;
    by eexists.
Qed.

(** C16. Sending a well-formed definition as its JSON text or as the
    object makes no difference once the idempotence check is passed: the
    text is parsed back to the same object and [initializeSurvey] does
    exactly the same thing. *)
Theorem initializeSurvey_text_same d p :
  wf_json d -> (forall t, d <> JStr t) ->
  is_unchanged p (JStr (JSON_stringify d)) = false -> is_unchanged p d = false ->
  initializeSurvey (JStr (JSON_stringify d)) p = initializeSurvey d p.
Proof.
  intros Hwf Hns Hu1 Hu2. rewrite !initializeSurvey_rebuild by done. unfold rebuild.
  replace (parse_if_string (JStr (JSON_stringify d))) with (parse_if_string d); [done|].
  unfold parse_if_string at 2. rewrite JSON_parse_stringify, Hwf.
  destruct d; try reflexivity. by destruct (Hns s).
Qed.

(** C18. A definition sent as JSON text is compared before it is parsed, so
    reloading the same text always builds a new survey. *)
Theorem initializeSurvey_text_rebuilds p s d qs d0 :
  (forall t, lastLoadedSurveyJSON p <> JStr t) -> JSON_parse s = Some d -> d <> JNull ->
  (forall t, d <> JStr t) -> fe_build d = Ok (qs, d0) ->
  let p1 := fst (initializeSurvey (JStr s) p) in
  exists p2 i2, initializeSurvey (JStr s) p1 = (p2, Ok tt) /\ survey p2 = Some i2 /\
    i_id i2 = next_id p1 /\ next_id p2 = S (next_id p1).
Proof.
  intros Hl Hs Hn Hstr Hb p1.
  assert (Hu : forall p0, (forall t, lastLoadedSurveyJSON p0 <> JStr t) -> is_unchanged p0 (JStr s) = false).
  { intros p0 Hp0. unfold is_unchanged. by rewrite areJSONsEqual_str_other, andb_false_r. }
  destruct (rebuild_accepts p (JStr s) d qs d0 Hs Hn Hb) as (p' & i' & E & _ & _ & _ & _ & _ & Hl' & _).
  assert (Hp1 : p1 = p') by (subst p1; by rewrite initializeSurvey_rebuild, (try_catch_run_ok _ _ _ _ _ E) by auto).
  destruct (rebuild_accepts p1 (JStr s) d qs d0 Hs Hn Hb) as (p2 & i2 & E2 & Hs2 & Hid2 & Hn2 & _).
  exists p2, i2. rewrite initializeSurvey_rebuild, (try_catch_run_ok _ _ _ _ _ E2);
    [done|]. apply Hu. rewrite Hp1, Hl'. apply Hstr.
Qed.

(** C19. A definition text [JSON.parse] rejects leaves the survey, the last
    loaded definition, the title and the container untouched and logs the
    error; the store, however, has already been through the preserve
    pass. *)
Theorem initializeSurvey_malformed_text p j :
  is_unchanged p j = false -> parsed j = None ->
  let p' := fst (initializeSurvey j p) in
  survey p' = survey p /\ lastLoadedSurveyJSON p' = lastLoadedSurveyJSON p /\
  doc_title p' = doc_title p /\ container p' = container p /\ next_id p' = next_id p /\
  questionValues p' = preserved_store p /\
  exists e, effects p' = ConsoleTrace :: ConsoleExn "Error initializing survey:" e :: effects p.
Proof.
  intros Hu Hj p'. destruct (initializeSurvey_parse_error p j Hu Hj) as [e He].
  subst p'. rewrite He. simpl. split_and!; try done. by exists e.
Qed.

(** C20. When [new Survey.Model] throws, the container has already been
    emptied, yet [survey] still refers to the previous instance, which the
    mutators keep updating although it is no longer displayed. *)
Theorem initializeSurvey_engine_failure p j d e :
  is_unchanged p j = false -> parsed j = Some d -> d <> JNull -> fe_build d = Throw e ->
  let p' := fst (initializeSurvey j p) in
  survey p' = survey p /\ container p' = None /\
  lastLoadedSurveyJSON p' = lastLoadedSurveyJSON p /\ next_id p' = next_id p.
Proof.
  intros Hu Hj Hn Hb p'. subst p'. by rewrite (initializeSurvey_engine_error p j d e Hu Hj Hn Hb).
Qed.
(** C12. A render pass on a page that satisfies the invariant never throws
    and never changes an answer: the after-render hook's writes of stored
    values ([question.value = storedValue], line 105) give every dropdown
    the value it already has, so the survey data and the store are left as
    they were, and the invariant still holds. *)
Theorem render_keeps_answers p :
  page_inv p -> exists p', render_survey p = (p', Ok tt) /\ questionValues p' = questionValues p /\
    opt_rel (fun i i' => i_data i' = i_data i) (survey p) (survey p') /\ page_inv p'.
Proof.
  intros Hinv. destruct (render_survey_quiet p) as (p' & E & [[Hi _] Hq]).
  exists p'. destruct (Hq Hinv). split_and!; auto.
Qed.

(** C21. After a definition is accepted, [document.title] is the string
    form of the definition's [title] when that is truthy, and otherwise the title the
    page had before (so a definition without a title keeps the previous
    survey's title); the global dropdown setting is the one of lines
    65-70. *)
Theorem initializeSurvey_title p j d qs d0 :
  is_unchanged p j = false -> parsed j = Some d -> d <> JNull -> fe_build d = Ok (qs, d0) ->
  let p' := fst (initializeSurvey j p) in
  doc_title p' = new_title (doc_title p) d /\ dropdown_settings p' = Some dropdown_config.
Proof.
  intros Hu Hd Hn Hb p'. subst p'.
  destruct (rebuild_accepts p j d qs d0 Hd Hn Hb) as (p' & i' & E & _ & _ & _ & _ & _ & _ & _ & _ & _ & _ & Ht & Hdd).
  rewrite initializeSurvey_rebuild, (try_catch_run_ok _ _ _ _ _ E) by done. done.
Qed.

(** C26. [JSON.parse] on a definition text ([survey.js], line 56) always
    returns, and it accepts the text, with a definition [d], exactly when
    the parser accepts it with some amount of fuel: the bound [JSON_parse]
    runs with never cuts a parse short. *)
Theorem parse_if_string_fuel s d p :
  parse_if_string (JStr s) p = (p, Ok d) <->
  exists f r, parse_value f (list_ascii_of_string s) = Some (d, r) /\ skip_ws r = [].
Proof.
  rewrite <- JSON_parse_fuel_iff. unfold parse_if_string.
  destruct (JSON_parse s) as [d'|]; unfold ret, throw; split; congruence.
Qed.

End InitProperties.

(** ** Witnesses on concrete definitions (the SurveyJS engine model) *)

(** [{questions: [{name: "q1", type: "dropdown", choices: ["a", "b"]}]}] *)
Definition demo_def : json :=
  JObj [("questions", JArr [JObj [("name", JStr "q1"); ("type", JStr "dropdown");
                                  ("choices", JArr [JStr "a"; JStr "b"])]])].

(** The same question with a default answer ["b"]. *)
Definition demo_def_default : json :=
  JObj [("questions", JArr [JObj [("name", JStr "q1"); ("type", JStr "dropdown");
                                  ("choices", JArr [JStr "a"; JStr "b"]);
                                  ("defaultValue", JStr "b")]])].

Definition demo_loaded : page := fst (initializeSurvey demo_def_default init_page).

Lemma initializeSurvey_idempotent_witness :
  parsed demo_def = Some demo_def /\ truthy demo_def = true /\
  let p1 := fst (initializeSurvey demo_def demo_loaded) in
  initializeSurvey demo_def p1 =
    (with_effects p1 (Console LvlLog "Identical survey JSON. Skipping re-initialization." None
                      :: effects p1), Ok tt).
Proof.
  split; [reflexivity|]. split; [reflexivity|].
  eapply (initializeSurvey_idempotent demo_loaded demo_def); reflexivity.
Defined.

(** A second definition: [q1] becomes a text question and [q2] is new. *)
Definition demo_def2 : json :=
  JObj [("questions", JArr [JObj [("name", JStr "q1"); ("type", JStr "text")];
                            JObj [("name", JStr "q2"); ("type", JStr "text")]])].

Lemma initializeSurvey_preserves_values_witness :
  survey demo_loaded <> None /\
  exists p' i', initializeSurvey demo_def2 demo_loaded = (p', Ok tt) /\ survey p' = Some i' /\
    forall q', In q' (i_questions i') -> q_name q' = "q1" -> question_value i' q' = Some (JStr "b").
Proof.
  split; [discriminate|].
  eapply (initializeSurvey_preserves_values demo_loaded _ 0
    (mk_question "q1" "dropdown" [mk_choice (JStr "a") (JStr "a"); mk_choice (JStr "b") (JStr "b")]
       None (Some (mk_el TagOther JNull)) false) (JStr "b")); try reflexivity.
  - discriminate.
  - simpl. tauto.
Defined.

Lemma initializeSurvey_text_rebuilds_witness :
  JSON_parse (JSON_stringify demo_def) = Some demo_def /\
  let p1 := fst (initializeSurvey (JStr (JSON_stringify demo_def)) init_page) in
  exists p2 i2, initializeSurvey (JStr (JSON_stringify demo_def)) p1 = (p2, Ok tt) /\
    survey p2 = Some i2 /\ i_id i2 = next_id p1 /\ next_id p2 = S (next_id p1).
Proof.
  split; [vm_compute; reflexivity|].
  eapply (initializeSurvey_text_rebuilds init_page _ demo_def).
  - intros t. discriminate.
  - vm_compute. reflexivity.
  - discriminate.
  - intros t. discriminate.
  - reflexivity.
Defined.

Lemma initializeSurvey_malformed_text_witness :
  is_unchanged demo_loaded (JStr "{") = false /\ parsed (JStr "{") = None /\
  let p' := fst (initializeSurvey (JStr "{") demo_loaded) in
  survey p' = survey demo_loaded /\ lastLoadedSurveyJSON p' = lastLoadedSurveyJSON demo_loaded /\
  doc_title p' = doc_title demo_loaded /\ container p' = container demo_loaded /\
  next_id p' = next_id demo_loaded /\ questionValues p' = preserved_store demo_loaded /\
  exists e, effects p' = ConsoleTrace :: ConsoleExn "Error initializing survey:" e :: effects demo_loaded.
Proof.
  split; [reflexivity|]. split; [reflexivity|].
  apply initializeSurvey_malformed_text; reflexivity.
Defined.

(** Scenario: a load that fails on malformed text still changes the store: the
    default answer of the live survey is copied into it. *)
Example malformed_text_writes_store :
  questionValues demo_loaded = ∅ /\
  questionValues (fst (initializeSurvey (JStr "{") demo_loaded)) = {[ "q1" := Some (JStr "b") ]}.
Proof. split; vm_compute; reflexivity. Qed.

(** An engine whose constructor always throws. *)
#[program] Definition throwing_engine : FormEngine := {|
  fe_build _ := Throw (EngineError "Survey.Model failed");
  fe_same a b := bool_decide (a = b);
  fe_rendered qs := seq 0 (List.length qs)
|}.
Next Obligation. done. Qed.
Next Obligation. intros a b. by intros ?%bool_decide_eq_true. Qed.
Next Obligation. intros a. by apply bool_decide_eq_true. Qed.
Next Obligation. intros qs i. rewrite in_seq. lia. Qed.

Lemma initializeSurvey_engine_failure_witness :
  survey demo_loaded <> None /\
  let p' := fst (@initializeSurvey throwing_engine demo_def demo_loaded) in
  survey p' = survey demo_loaded /\ container p' = None /\
  lastLoadedSurveyJSON p' = lastLoadedSurveyJSON demo_loaded /\ next_id p' = next_id demo_loaded.
Proof.
  split; [discriminate|].
  apply (@initializeSurvey_engine_failure throwing_engine demo_loaded demo_def demo_def
           (EngineError "Survey.Model failed")); try reflexivity. discriminate.
Defined.

Lemma initializeSurvey_text_same_witness :
  wf_json demo_def /\
  initializeSurvey (JStr (JSON_stringify demo_def)) init_page = initializeSurvey demo_def init_page.
Proof.
  assert (Hwf : wf_json demo_def) by (vm_compute; reflexivity).
  split; [exact Hwf|].
  apply initializeSurvey_text_same; [exact Hwf|intros t; discriminate|reflexivity|reflexivity].
Defined.

Lemma render_keeps_answers_witness :
  page_inv demo_loaded /\
  exists p', render_survey demo_loaded = (p', Ok tt) /\ questionValues p' = questionValues demo_loaded /\
    opt_rel (fun i i' => i_data i' = i_data i) (survey demo_loaded) (survey p') /\ page_inv p'.
Proof.
  assert (Hinv : page_inv demo_loaded) by (apply page_invb_sound; vm_compute; reflexivity).
  split; [exact Hinv|]. exact (render_keeps_answers demo_loaded Hinv).
Defined.

(** A definition with a title, then one without. *)
Definition demo_titled : json :=
  JObj [("title", JStr "Intake");
        ("questions", JArr [JObj [("name", JStr "q0"); ("type", JStr "text")]])].

Lemma initializeSurvey_title_witness :
  let p0 := fst (initializeSurvey demo_titled init_page) in
  doc_title p0 = Some (JStr "Intake") /\
  doc_title (fst (initializeSurvey demo_def p0)) = new_title (doc_title p0) demo_def /\
  dropdown_settings (fst (initializeSurvey demo_def p0)) = Some dropdown_config /\
  new_title (doc_title p0) demo_def = Some (JStr "Intake").
Proof.
  cbv zeta. split; [vm_compute; reflexivity|].
  destruct (initializeSurvey_title (fst (initializeSurvey demo_titled init_page)) demo_def demo_def
              (map fst (elements_questions 3 (definition_elements demo_def))) [])
    as [Ht Hd]; [vm_compute; reflexivity|reflexivity|discriminate|reflexivity|].
  split_and!; [exact Ht|exact Hd|vm_compute; reflexivity].
Defined.
