(* ===== verification/Mutators.v ===== *)
(** The Field Mutators of [src/www/survey.js]: the Shiny message handlers
    [updateText] (lines 134-181) and [updateChoices] (lines 183-219), for
    an arbitrary [FormEngine].

    Neither handler has a [try] around its body: an exception raised by a
    property access on the payload, by [data.choices.map], by
    [choice.replace] or by [document.querySelector] escapes to the Bridge.
    The optional [data.callback] of [updateText] is called inside a
    [try]; a decoded message holds no function, so a truthy callback field
    always fails with a [TypeError] that is caught and logged. *)

From S2P Require Import Prelude Json Js FormEngine SurveyJs Page ValueStore Controller.

(** The element [question.textboxEl || document.querySelector(`[name="${t}"]`)]
    (and likewise with [dropdownEl]): the question's own element when it
    exposes one; otherwise the first element of the document with that
    [name], which exists only while this survey is the one rendered in the
    container. *)
Definition find_el (p : page) (i : instance) (q : question) (t : option json)
  : outcome exn (option nat) :=
  if q_el_prop q && bool_decide (q_el q <> None)
  then Ok (getQuestionByName i (q_name q))
  else match name_selector (match t with Some j => js_to_string j | None => "undefined" end) with
       | Throw e => Throw e
       | Ok None => Ok None
       | Ok (Some n) =>
           if bool_decide (container p = Some (i_id i)) then
             match getQuestionByName i n with
             | Some k => if bool_decide ((i_questions i !! k) ≫= q_el <> None) then Ok (Some k) else Ok None
             | None => Ok None
             end
           else Ok None
       end.

(** [data.choices.map(choice => ({ value: choice, text: choice.replace(/_/g, ' ') }))]
    before the result is built: the raw strings, or the [TypeError] the
    first non-string element (or a non-array) raises. *)
Fixpoint choice_strings_arr (xs : list json) : outcome exn (list string) :=
  match xs with
  | [] => Ok []
  | JStr c :: xs' => match choice_strings_arr xs' with
                     | Ok cs => Ok (c :: cs)
                     | Throw e => Throw e
                     end
  | _ :: _ => Throw (TypeError "choice.replace is not a function")
  end.

Definition choice_strings (cs : option json) : outcome exn (list string) :=
  match cs with
  | None => Throw (TypeError "Cannot read properties of undefined (reading 'map')")
  | Some JNull => Throw (TypeError "Cannot read properties of null (reading 'map')")
  | Some (JArr xs) => choice_strings_arr xs
  | Some _ => Throw (TypeError "data.choices.map is not a function")
  end.

Definition choice_item (c : string) : choice := mk_choice (JStr c) (JStr (replace_underscores c)).

(** [currentValue.replace(/_/g, ' ')] *)
Definition replace_value (v : option json) : outcome exn string :=
  match v with
  | Some (JStr s) => Ok (replace_underscores s)
  | _ => Throw (TypeError "currentValue.replace is not a function")
  end.

(** [input.value = v]: the element keeps the string form of the value;
    the setter is [[LegacyNullToEmptyString]], so [null] clears it. *)
Definition el_text (v : option json) : json :=
  JStr (match v with Some JNull => "" | Some j => js_to_string j | None => "undefined" end).

Section Mutators.
Context `{FormEngine}.

(** [Shiny.addCustomMessageHandler("updateText", ...)], lines 134-181. *)
Definition updateText (data : json) : M unit :=
  p <- get;;
  match survey p with
  | None => emit (Console LvlError "Survey not initialized when trying to update text" None)
  | Some i =>
      t <- lift (get_prop data "targetQuestion");;
      match getQuestionByName_js i t with
      | None => emit (Console LvlWarn "Target question not found:" t)
      | Some idx =>
          match i_questions i !! idx with
          | None => ret tt
          | Some q =>
              text <- lift (get_prop data "text");;
              set_question_value idx text;;
              set_display idx text;;
              p1 <- get;;
              el <- lift (find_el p1 i q t);;
              match el with
              | Some k => set_el_value k (el_text text);; emit (DomEvent k "change");;
                          emit (DomEvent k "input")
              | None => ret tt
              end;;
              render_survey;;
              cb <- lift (get_prop data "callback");;
              if truthy_opt cb
              then emit (ConsoleExn "Error in update text callback:"
                           (TypeError "data.callback is not a function"))
              else ret tt
          end
      end
  end.

(** [Shiny.addCustomMessageHandler("updateChoices", ...)], lines 183-219. *)
Definition updateChoices (data : json) : M unit :=
  p <- get;;
  match survey p with
  | None => emit (Console LvlError "Survey not initialized when trying to update choices" None)
  | Some i =>
      t <- lift (get_prop data "targetQuestion");;
      match getQuestionByName_js i t with
      | None => emit (Console LvlWarn "Target question not found:" t)
      | Some idx =>
          match i_questions i !! idx with
          | None => ret tt
          | Some q =>
              let currentValue := question_value i q in
              cs <- lift (get_prop data "choices");;
              raw <- lift (choice_strings cs);;
              set_choices idx (map choice_item raw);;
              if truthy_opt currentValue && js_includes (map JStr raw) currentValue then
                set_question_value idx currentValue;;
                disp <- lift (replace_value currentValue);;
                set_display idx (Some (JStr disp));;
                p1 <- get;;
                el <- lift (find_el p1 i q t);;
                match el with
                | Some k => set_el_value k (el_text currentValue);; emit (DomEvent k "change")
                | None => ret tt
                end;;
                render_survey
              else ret tt
          end
      end
  end.
End Mutators.

(** ** Both handlers keep the invariant, and [updateChoices] never changes an answer *)

Section MutatorLemmas.
Context `{FormEngine}.

Lemma keeps_quiet_of (m : M unit) : preserves quiet m -> keeps quiet m.
Proof. apply keeps_preserves. Qed.

Lemma keeps_inplace_of (m : M unit) : preserves inplace m -> keeps inplace m.
Proof. apply keeps_preserves. Qed.

Lemma quiet_inplace p p' : quiet p p' -> inplace p p'.
Proof. by intros [? _]. Qed.

(** The tail of [updateChoices] once the value has been written back. *)
Lemma updateChoices_tail_quiet i q t idx cur :
  keeps quiet (disp <- lift (replace_value cur);;
               set_display idx (Some (JStr disp));;
               p1 <- get;;
               el <- lift (find_el p1 i q t);;
               match el with
               | Some k => set_el_value k (el_text cur);; emit (DomEvent k "change")
               | None => ret tt
               end;;
               render_survey).
Proof.
  kseq; [klift|intros disp]. kseq; [apply keeps_quiet_of, set_display_quiet|intros u].
  apply keeps_get_dep. intros p1. kseq; [klift|intros el].
  kseq; [|intros u'; apply keeps_quiet_of, render_survey_quiet].
  destruct el as [k|]; [|kret].
  kseq; [apply keeps_quiet_of, set_el_value_quiet|intros u''; apply keeps_quiet_of, emit_quiet].
Qed.

Lemma updateChoices_quiet data : keeps quiet (updateChoices data).
Proof.
  apply keeps_get. intros p. destruct (survey p) as [i|] eqn:Hs.
  2:{ apply (keeps_quiet_of _ (emit_quiet _)). }
  destruct (get_prop data "targetQuestion") as [t|e]; rewrite ?bind_lift_ok, ?bind_lift_throw; [|reflexivity].
  destruct (getQuestionByName_js i t) as [idx|]; [|apply (keeps_quiet_of _ (emit_quiet _))].
  destruct (i_questions i !! idx) as [q|] eqn:Hq; [|reflexivity].
  destruct (get_prop data "choices") as [cs|e]; rewrite ?bind_lift_ok, ?bind_lift_throw; [|reflexivity].
  destruct (choice_strings cs) as [raw|e]; rewrite ?bind_lift_ok, ?bind_lift_throw; [|reflexivity].
  unfold set_choices, modify_survey. rewrite bind_modify, Hs. simpl.
  set (i1 := update_question i idx (q_with_choices (map choice_item raw))).
  set (p1 := with_survey p (Some i1)).
  assert (Q1 : quiet p p1).
  { unfold p1. replace (Some i1) with ((fun i0 => update_question i0 idx (q_with_choices (map choice_item raw))) <$> survey p)
      by (by rewrite Hs). apply modify_survey_quiet. intros i0. split; [apply update_question_shape; auto with js|done]. }
  destruct (truthy_opt _ && js_includes _ _); [|done].
  assert (Hq1 : i_questions i1 !! idx = Some (q_with_choices (map choice_item raw) q)).
  { unfold i1. rewrite update_question_lookup, Hq. by case_decide. }
  rewrite (bind_run_ok _ _ _ _ _ (set_question_value_same p1 i1 idx _ _ eq_refl Hq1 eq_refl)).
  transitivity p1; [done|]. apply updateChoices_tail_quiet.
Qed.

Lemma updateText_inplace data : keeps inplace (updateText data).
Proof.
  apply keeps_get_dep. intros p0. destruct (survey p0) as [i|]; [|apply keeps_inplace_of, emit_inplace].
  kseq; [klift|intros t]. destruct (getQuestionByName_js i t) as [idx|];
    [|apply keeps_inplace_of, emit_inplace].
  destruct (i_questions i !! idx) as [q|]; [|kret].
  kseq; [klift|intros text]. kseq; [apply keeps_inplace_of, set_question_value_inplace|intros u1].
  kseq; [apply keeps_inplace_of, set_display_inplace|intros u2]. apply keeps_get_dep. intros p1.
  kseq; [klift|intros el]. kseq.
  - destruct el as [k|]; [|kret].
    kseq; [apply keeps_inplace_of, set_el_value_inplace|intros u3].
    kseq; [apply keeps_inplace_of, emit_inplace|intros u4; apply keeps_inplace_of, emit_inplace].
  - intros u3. kseq; [intros s; apply quiet_inplace, (keeps_quiet_of _ render_survey_quiet)|intros u4].
    kseq; [klift|intros cb]. destruct (truthy_opt cb); [apply keeps_inplace_of, emit_inplace|kret].
Qed.
End MutatorLemmas.

(** ** Choices are only written by [question.choices = ...] *)

Definition choices_of (p : page) : option (list (list choice)) :=
  (fun i => map q_choices (i_questions i)) <$> survey p.

Definition same_choices (p p' : page) : Prop := choices_of p' = choices_of p.

#[export] Instance same_choices_preorder : PreOrder same_choices.
Proof. split; [done|]. intros p q r H1 H2. unfold same_choices in *. congruence. Qed.

Lemma update_question_choices i idx f :
  (forall q, q_choices (f q) = q_choices q) ->
  map q_choices (i_questions (update_question i idx f)) = map q_choices (i_questions i).
Proof.
  intros Hf. unfold update_question. simpl. revert idx.
  induction (i_questions i) as [|q qs IH]; intros [|idx]; simpl; try done.
  - by rewrite Hf.
  - f_equal. apply IH.
Qed.

Section ChoiceLemmas.
Context `{FormEngine}.

Lemma modify_question_same_choices idx g :
  (forall q, q_choices (g q) = q_choices q) ->
  preserves same_choices (modify_survey (fun i => update_question i idx g)).
Proof.
  intros Hg. apply preserves_modify. intros p. unfold same_choices, choices_of.
  cbn -[update_question]. destruct (survey p); cbn -[update_question];
    [by rewrite update_question_choices|done].
Qed.

Lemma emit_same_choices e : preserves same_choices (emit e).
Proof. apply preserves_modify. intros p. done. Qed.

Lemma set_question_value_same_choices idx v : preserves same_choices (set_question_value idx v).
Proof.
  apply preserves_get. intros p. unfold same_choices, choices_of. destruct (survey p) as [i|] eqn:Hs.
  2:{ exists p. split; [reflexivity|]. by rewrite Hs. }
  pose proof (engine_set_value_questions i idx v) as Hq. destruct (engine_set_value i idx v) as [i' note].
  simpl in Hq. rewrite bind_put.
  destruct note as [[n v']|]; simpl; eexists; (split; [reflexivity|]); simpl; by rewrite Hq.
Qed.

Lemma render_survey_same_choices : preserves same_choices render_survey.
Proof.
  apply preserves_get_dep. intros p0. destruct (survey p0) as [i|]; [|pret].
  pseq; [apply emit_same_choices|]. ploop. apply preserves_get_dep. intros p1.
  destruct (current_question p1 _) as [q|]; [|pret]. destruct (String.eqb _ _); [|pret].
  destruct (questionValues p1 !! q_name q) as [[stored|]|]; try pret.
  pseq; [apply set_question_value_same_choices|].
  pseq; [apply modify_question_same_choices; done|].
  destruct (q_el q) as [[[] ev]|]; try pret.
  pseq; [pseq; [apply modify_question_same_choices; done|apply emit_same_choices]|apply emit_same_choices].
Qed.
End ChoiceLemmas.

Lemma choice_strings_arr_strings raw : choice_strings_arr (map JStr raw) = Ok raw.
Proof. induction raw as [|c raw IH]; simpl; [done|]. by rewrite IH. Qed.

Lemma choice_strings_arr_non_string xs :
  (exists x, In x xs /\ forall s, x <> JStr s) ->
  choice_strings_arr xs = Throw (TypeError "choice.replace is not a function").
Proof.
  induction xs as [|x xs IH]; intros (y & Hy & Hns); simpl; [done|].
  destruct Hy as [->|Hy].
  - destruct y; try done. by destruct (Hns s).
  - rewrite IH by eauto. by destruct x.
Qed.

Lemma getQuestionByName_js_Some i t idx :
  getQuestionByName_js i t = Some idx -> exists q, i_questions i !! idx = Some q.
Proof.
  unfold getQuestionByName_js. destruct t as [j|]; [|done]. destruct (truthy j); [|done].
  intros (q & Hq & _)%getQuestionByName_Some. eauto.
Qed.

Section ChoiceTail.
Context `{FormEngine}.

Lemma keeps_sc_of (m : M unit) : preserves same_choices m -> keeps same_choices m.
Proof. apply keeps_preserves. Qed.

Lemma updateChoices_branch_same_choices i q t idx cur :
  keeps same_choices (set_question_value idx cur;;
                      disp <- lift (replace_value cur);;
                      set_display idx (Some (JStr disp));;
                      p1 <- get;;
                      el <- lift (find_el p1 i q t);;
                      match el with
                      | Some k => set_el_value k (el_text cur);; emit (DomEvent k "change")
                      | None => ret tt
                      end;;
                      render_survey).
Proof.
  kseq; [apply keeps_sc_of, set_question_value_same_choices|intros u].
  kseq; [klift|intros disp].
  kseq; [apply keeps_sc_of; by apply modify_question_same_choices|intros u1].
  apply keeps_get_dep. intros p1. kseq; [klift|intros el].
  kseq; [|intros u2; apply keeps_sc_of, render_survey_same_choices].
  destruct el as [k|]; [|kret]. apply keeps_sc_of.
  pseq; [pseq; [by apply modify_question_same_choices|apply emit_same_choices]|apply emit_same_choices].
Qed.
End ChoiceTail.

(** ** Properties of the mutators *)

Section MutatorProperties.
Context `{FormEngine}.

(** C4. [updateChoices] never changes an answer: neither the survey data
    nor the store, whether the handler completes or throws.  In
    particular a value that is not among the new choices stays set. *)
Theorem updateChoices_keeps_answers p i data :
  page_inv p -> survey p = Some i ->
  let p' := fst (updateChoices data p) in
  questionValues p' = questionValues p /\ exists i', survey p' = Some i' /\ i_data i' = i_data i.
Proof.
  intros Hinv Hs p'. destruct (updateChoices_quiet data p) as [[_ (_&_&_&_&_&Hsh&_)] Q].
  destruct (Q Hinv) as [Qs Qd]. split; [done|]. subst p'. rewrite Hs in Hsh, Qd.
  destruct (survey (fst (updateChoices data p))) as [i'|]; [|done]. by exists i'.
Qed.

(** C5. The target's choices become one item per string, its value the
    string and its text the string with underscores turned into spaces;
    the other questions keep theirs. *)
Theorem updateChoices_replaces_choices p i data t idx raw :
  survey p = Some i -> get_prop data "targetQuestion" = Ok t -> getQuestionByName_js i t = Some idx ->
  get_prop data "choices" = Ok (Some (JArr (map JStr raw))) ->
  exists i', survey (fst (updateChoices data p)) = Some i' /\
    map q_choices (i_questions i') =
      <[idx := map (fun c => mk_choice (JStr c) (JStr (replace_underscores c))) raw]> (map q_choices (i_questions i)).
Proof.
  intros Hs Ht Hg Hc. destruct (getQuestionByName_js_Some _ _ _ Hg) as [q Hq].
  unfold updateChoices. rewrite bind_get, Hs, Ht, bind_lift_ok, Hg, Hq, Hc, bind_lift_ok.
  simpl choice_strings. rewrite choice_strings_arr_strings, bind_lift_ok.
  unfold set_choices at 1, modify_survey at 1. rewrite bind_modify. cbn [survey with_survey fmap option_fmap option_map].
  rewrite Hs. cbn [fmap option_fmap option_map].
  set (i1 := update_question i idx (q_with_choices (map choice_item raw))).
  assert (C1 : map q_choices (i_questions i1) = <[idx := map choice_item raw]> (map q_choices (i_questions i))).
  { unfold i1, update_question. simpl. clear -Hq. revert idx Hq.
    induction (i_questions i) as [|q0 qs IH]; intros [|idx] Hq; simpl in *; try done.
    f_equal. by apply IH. }
  destruct (_ && _).
  - pose proof (updateChoices_branch_same_choices i q t idx (question_value i q) (with_survey p (Some i1))) as Hr.
    unfold same_choices, choices_of in Hr. simpl in Hr.
    destruct (survey (fst _)) as [i'|]; simpl in Hr; [|done]. exists i'. split; [done|].
    injection Hr as Hr. rewrite Hr. exact C1.
  - by exists i1.
Qed.
End MutatorProperties.

Section TextTail.
Context `{FormEngine}.

(** What [updateText] runs after writing the value. *)
Lemma updateText_tail_quiet i q t idx text data :
  keeps quiet (set_display idx text;;
               p1 <- get;;
               el <- lift (find_el p1 i q t);;
               match el with
               | Some k => set_el_value k (el_text text);; emit (DomEvent k "change");;
                           emit (DomEvent k "input")
               | None => ret tt
               end;;
               render_survey;;
               cb <- lift (get_prop data "callback");;
               if truthy_opt cb
               then emit (ConsoleExn "Error in update text callback:"
                            (TypeError "data.callback is not a function"))
               else ret tt).
Proof.
  kseq; [apply keeps_quiet_of, set_display_quiet|intros u]. apply keeps_get_dep. intros p1.
  kseq; [klift|intros el]. kseq.
  - destruct el as [k|]; [|kret]. apply keeps_quiet_of.
    pseq; [apply set_el_value_quiet|]. pseq; apply emit_quiet.
  - intros u1. kseq; [apply keeps_quiet_of, render_survey_quiet|intros u2].
    kseq; [klift|intros cb]. destruct (truthy_opt cb); [apply keeps_quiet_of, emit_quiet|kret].
Qed.
End TextTail.

Section MutatorProperties2.
Context `{FormEngine}.

(** C22. A target the survey does not have: each mutator only logs one
    warning. *)
Theorem mutators_missing_target p i data t :
  survey p = Some i -> get_prop data "targetQuestion" = Ok t -> getQuestionByName_js i t = None ->
  updateText data p = (with_effects p (Console LvlWarn "Target question not found:" t :: effects p), Ok tt) /\
  updateChoices data p = (with_effects p (Console LvlWarn "Target question not found:" t :: effects p), Ok tt).
Proof.
  intros Hs Ht Hg. unfold updateText, updateChoices.
  by rewrite !bind_get, Hs, Ht, !bind_lift_ok, Hg.
Qed.

(** C23. Before the first survey is loaded, each mutator only logs one
    error. *)
Theorem mutators_not_initialized p data :
  survey p = None ->
  updateText data p =
    (with_effects p (Console LvlError "Survey not initialized when trying to update text" None
                     :: effects p), Ok tt) /\
  updateChoices data p =
    (with_effects p (Console LvlError "Survey not initialized when trying to update choices" None
                     :: effects p), Ok tt).
Proof. intros Hs. unfold updateText, updateChoices. by rewrite !bind_get, Hs. Qed.

(** C24. A choice list with an element that is not a string (a number,
    say) makes [choice.replace] throw a [TypeError] that escapes the
    handler; nothing has been changed. *)
Theorem updateChoices_non_string_throws p i data t idx xs :
  survey p = Some i -> get_prop data "targetQuestion" = Ok t -> getQuestionByName_js i t = Some idx ->
  get_prop data "choices" = Ok (Some (JArr xs)) -> (exists x, In x xs /\ forall s, x <> JStr s) ->
  updateChoices data p = (p, Throw (TypeError "choice.replace is not a function")).
Proof.
  intros Hs Ht Hg Hc Hx. destruct (getQuestionByName_js_Some _ _ _ Hg) as [q Hq].
  unfold updateChoices. rewrite bind_get, Hs, Ht, bind_lift_ok, Hg, Hq, Hc, bind_lift_ok. simpl choice_strings.
  by rewrite (choice_strings_arr_non_string xs Hx), bind_lift_throw.
Qed.

(** C17. [updateText] sets the target's value to [data.text]; when that is
    a change, the value-changed handler records it in the store.  This
    holds whether or not the handler later throws. *)
Theorem updateText_sets_value p i data t idx q text :
  page_inv p -> survey p = Some i -> get_prop data "targetQuestion" = Ok t ->
  getQuestionByName_js i t = Some idx -> i_questions i !! idx = Some q -> get_prop data "text" = Ok text ->
  let p' := fst (updateText data p) in
  exists i', survey p' = Some i' /\ question_value i' q = text /\
    (question_value i q <> text -> questionValues p' !! q_name q = Some text).
Proof.
  intros Hinv Hs Ht Hg Hq Htx p'.
  destruct (set_question_value_run p i idx q text Hs Hq) as (p1 & E1 & Hs1 & Hv1 & _).
  destruct (set_question_value_inplace idx text p) as (p1' & E1' & [Inv1 _]).
  rewrite E1 in E1'. injection E1' as <-. specialize (Inv1 Hinv).
  subst p'. unfold updateText. rewrite bind_get, Hs, Ht, bind_lift_ok, Hg, Hq, Htx, bind_lift_ok,
    (bind_run_ok _ _ _ _ _ E1).
  destruct (updateText_tail_quiet i q t idx text data p1) as [_ Q].
  destruct (Q Inv1) as [Qs Qd]. rewrite Hs1 in Qd.
  destruct (survey (fst _)) as [i'|]; [|done]. simpl in Qd. exists i'. split; [done|]. split.
  - unfold question_value. rewrite Qd. simpl. unfold set_data. destruct text.
    + by rewrite obj_get_set, String.eqb_refl.
    + by rewrite obj_get_delete, String.eqb_refl.
  - intros Hne. rewrite Qs, Hv1. destruct (Hinv i Hs) as [(_ & Hon & _) _]. rewrite Hon.
    destruct (fe_same (question_value i q) text) eqn:Hsame.
    + by apply fe_same_sound in Hsame.
    + simpl. apply lookup_insert_eq.
Qed.
End MutatorProperties2.

(** ** Witnesses and scenarios (the SurveyJS engine model) *)

(** The survey of [demo_def] loaded, and the user choosing ["a"] for [q1]. *)
Definition demo_p : page := fst (initializeSurvey demo_def init_page).
Definition demo_a : page := fst (set_question_value 0 (Some (JStr "a")) demo_p).

Definition demo_q1 : question :=
  mk_question "q1" "dropdown" [mk_choice (JStr "a") (JStr "a"); mk_choice (JStr "b") (JStr "b")]
    None (Some (mk_el TagOther JNull)) false.
Definition demo_a_inst : instance := mk_instance 0 [demo_q1] [("q1", JStr "a")] true true true.

Definition choices_msg (target : string) (cs : list string) : json :=
  JObj [("targetQuestion", JStr target); ("choices", JArr (map JStr cs))].

Lemma updateChoices_keeps_answers_witness :
  page_inv demo_a /\
  let p' := fst (updateChoices (choices_msg "q1" ["a_1"; "b_1"]) demo_a) in
  questionValues p' = questionValues demo_a /\
  exists i', survey p' = Some i' /\ i_data i' = [("q1", JStr "a")].
Proof.
  assert (Hinv : page_inv demo_a) by (apply page_invb_sound; vm_compute; reflexivity).
  split; [exact Hinv|].
  exact (updateChoices_keeps_answers demo_a demo_a_inst _ Hinv eq_refl).
Defined.

(** Scenario of the specification: [q1] answered ["a"], then its
    choices replaced by ["a_1"; "b_1"].  The labels are ["a 1"; "b 1"], but
    [q1] keeps the value ["a"], which is no longer a choice, and no render
    pass runs. *)
Example updateChoices_stale_value_scenario :
  let p' := fst (updateChoices (choices_msg "q1" ["a_1"; "b_1"]) demo_a) in
  (survey p' ≫= fun i => i_questions i !! 0) ≫= (fun q => Some (q_choices q)) =
    Some [mk_choice (JStr "a_1") (JStr "a 1"); mk_choice (JStr "b_1") (JStr "b 1")] /\
  (survey p' ≫= fun i => obj_get (i_data i) "q1") = Some (JStr "a") /\
  effects p' = effects demo_a.
Proof. vm_compute. split_and!; reflexivity. Qed.

Lemma updateChoices_replaces_choices_witness :
  survey demo_a = Some demo_a_inst /\
  exists i', survey (fst (updateChoices (choices_msg "q1" ["x_y"; "z"]) demo_a)) = Some i' /\
    map q_choices (i_questions i') =
      <[0 := map (fun c => mk_choice (JStr c) (JStr (replace_underscores c))) ["x_y"; "z"]]>
        (map q_choices (i_questions demo_a_inst)).
Proof.
  split; [reflexivity|].
  exact (updateChoices_replaces_choices demo_a demo_a_inst (choices_msg "q1" ["x_y"; "z"])
           (Some (JStr "q1")) 0 ["x_y"; "z"] eq_refl eq_refl eq_refl eq_refl).
Defined.

(** A dropdown whose answer ["a_1"] survives new choices ["a_1"; "c_1"]. *)
Definition demo_u_def : json :=
  JObj [("questions", JArr [JObj [("name", JStr "q1"); ("type", JStr "dropdown");
                                  ("choices", JArr [JStr "a_1"; JStr "b_1"])]])].
Definition demo_u : page :=
  fst (set_question_value 0 (Some (JStr "a_1")) (fst (initializeSurvey demo_u_def init_page))).

(** Scenario: when the answer is among the new choices, [updateChoices] sets the
    display value to the label ["a 1"], but the render pass it then
    triggers runs the dropdown hook, which writes the raw stored value back:
    the display ends as ["a_1"]. *)
Example updateChoices_display_overwritten :
  let p' := fst (updateChoices (choices_msg "q1" ["a_1"; "c_1"]) demo_u) in
  (survey p' ≫= fun i => i_questions i !! 0) ≫= q_display = Some (JStr "a_1") /\
  head (effects p') = Some (Rendered 0).
Proof. vm_compute. split; reflexivity. Qed.

Lemma mutators_missing_target_witness :
  survey demo_a <> None /\
  updateText (JObj [("targetQuestion", JStr "q2"); ("text", JStr "hello")]) demo_a =
    (with_effects demo_a (Console LvlWarn "Target question not found:" (Some (JStr "q2"))
                          :: effects demo_a), Ok tt) /\
  updateChoices (JObj [("targetQuestion", JStr "q2"); ("text", JStr "hello")]) demo_a =
    (with_effects demo_a (Console LvlWarn "Target question not found:" (Some (JStr "q2"))
                          :: effects demo_a), Ok tt).
Proof.
  split; [discriminate|].
  apply (mutators_missing_target demo_a demo_a_inst _ (Some (JStr "q2"))); reflexivity.
Defined.

Lemma mutators_not_initialized_witness :
  survey init_page = None /\
  updateText (choices_msg "q1" []) init_page =
    (with_effects init_page (Console LvlError "Survey not initialized when trying to update text" None
                             :: effects init_page), Ok tt) /\
  updateChoices (choices_msg "q1" []) init_page =
    (with_effects init_page (Console LvlError "Survey not initialized when trying to update choices" None
                             :: effects init_page), Ok tt).
Proof. split; [reflexivity|]. apply mutators_not_initialized. reflexivity. Defined.

Lemma updateChoices_non_string_throws_witness :
  updateChoices (JObj [("targetQuestion", JStr "q1"); ("choices", JArr [JNum 1; JNum 2])]) demo_a =
    (demo_a, Throw (TypeError "choice.replace is not a function")).
Proof.
  eapply (updateChoices_non_string_throws demo_a _ _ (Some (JStr "q1")) 0); try reflexivity.
  exists (JNum 1). split; [by left|]. discriminate.
Defined.

Lemma updateText_sets_value_witness :
  page_inv demo_a /\
  let p' := fst (updateText (JObj [("targetQuestion", JStr "q1"); ("text", JStr "b")]) demo_a) in
  exists i', survey p' = Some i' /\
    question_value i' (mk_question "q1" "dropdown" [] None None false) = Some (JStr "b") /\
    (Some (JStr "a") <> Some (JStr "b") -> questionValues p' !! "q1" = Some (Some (JStr "b"))).
Proof.
  assert (Hinv : page_inv demo_a) by (apply page_invb_sound; vm_compute; reflexivity).
  split; [exact Hinv|].
  pose proof (updateText_sets_value demo_a demo_a_inst
    (JObj [("targetQuestion", JStr "q1"); ("text", JStr "b")]) (Some (JStr "q1")) 0 demo_q1 (Some (JStr "b"))
    Hinv eq_refl eq_refl eq_refl eq_refl eq_refl)
    as (i' & Hs & Hv & Hst).
  exists i'. split; [exact Hs|]. split; [exact Hv|]. exact Hst.
Defined.

(** A text question whose name holds a double quote. *)
Definition quoted_name : string := String "a"%char (String "034"%char "b").

Definition quoted_def : json :=
  JObj [("questions", JArr [JObj [("name", JStr quoted_name); ("type", JStr "text")]])].

(** C25. [updateText] on a question that exposes no element and whose
    name holds a character that ends a CSS string (a double quote or a
    line break): the value and the display value are set, then
    [document.querySelector] rejects the selector the handler builds from
    the name, and the [SyntaxError] escapes the handler.  Nothing after
    line 157 runs: no element is written, no change or input event is
    dispatched, no render pass happens and the callback is not reached. *)
Theorem updateText_quote_in_name_throws p i data n idx q text :
  survey p = Some i -> get_prop data "targetQuestion" = Ok (Some (JStr n)) ->
  getQuestionByName_js i (Some (JStr n)) = Some idx -> i_questions i !! idx = Some q ->
  get_prop data "text" = Ok text -> q_el_prop q = false ->
  existsb css_breaks_string (list_ascii_of_string n) = true ->
  updateText data p =
    (fst ((set_question_value idx text;; set_display idx text) p),
     Throw (SyntaxError "Failed to execute 'querySelector' on 'Document': not a valid selector")).
Proof.
  intros Hs Ht Hg Hq Htx Hel Hn. destruct (set_question_value_run p i idx q text Hs Hq) as (p1 & E1 & _).
  unfold updateText. rewrite bind_get, Hs, Ht, bind_lift_ok, Hg, Hq, Htx, bind_lift_ok, (bind_run_ok _ _ _ _ _ E1).
  rewrite (bind_run_ok _ _ _ _ _ E1). unfold set_display, modify_survey. rewrite !bind_modify, bind_get.
  unfold find_el. rewrite Hel. simpl andb. cbn [js_to_string]. unfold name_selector. rewrite Hn.
  by rewrite bind_lift_throw.
Qed.


(** The survey of [quoted_def] loaded, and its one question. *)
Definition quoted_page : page := fst (initializeSurvey quoted_def init_page).

Definition quoted_inst : instance :=
  Eval vm_compute in default (mk_instance 0 [] [] false false false) (survey quoted_page).

Definition quoted_q : question :=
  Eval vm_compute in default demo_q1 (i_questions quoted_inst !! 0).

Lemma updateText_quote_in_name_throws_witness :
  updateText (JObj [("targetQuestion", JStr quoted_name); ("text", JStr "x")]) quoted_page =
    (fst ((set_question_value 0 (Some (JStr "x"));; set_display 0 (Some (JStr "x"))) quoted_page),
     Throw (SyntaxError "Failed to execute 'querySelector' on 'Document': not a valid selector")).
Proof.
  apply (updateText_quote_in_name_throws quoted_page quoted_inst _ quoted_name 0 quoted_q);
    vm_compute; reflexivity.
Defined.
