(* ===== verification/Bridge.v ===== *)
(** The Bridge Adapter: the three Shiny message handlers registered in
    [src/www/survey.js] (lines 129-132, 134 and 183) and the two user
    events the Form Engine turns into handler calls (a value change and the
    completion of the survey), as one deterministic [step] on [page].
    Messages are handled one at a time, each to completion, in delivery
    order; an exception that escapes a handler leaves the page as the
    handler left it and the next message is handled normally.

    Theorems: every reachable page satisfies the invariant (the store agrees
    with the live survey, the handlers of the live survey are registered,
    identities are fresh, the container shows the live survey or nothing),
    and no step ever removes an entry of the Value Store. *)

From S2P Require Import Prelude Json Js JsonParse JsonRoundtrip FormEngine SurveyJs Page ValueStore Controller Mutators.

Inductive event : Type :=
| MsgLoadSurvey (payload : json)             (* Shiny.addCustomMessageHandler("loadSurvey") *)
| MsgUpdateText (payload : json)             (* "updateText" *)
| MsgUpdateChoices (payload : json)          (* "updateChoices" *)
| UserSetValue (idx : nat) (v : option json) (* the user answers a rendered question *)
| UserComplete.                              (* the user completes the survey *)

Definition is_load (e : event) : bool := match e with MsgLoadSurvey _ => true | _ => false end.

(** The number of [loadSurvey] messages of a sequence. *)
Definition count_loads (es : list event) : nat := List.length (List.filter is_load es).

Section Bridge.
Context `{FormEngine}.

(** The user can only answer a question of the survey that is on
    screen. *)
Definition userSetValue (idx : nat) (v : option json) : M unit :=
  p <- get;;
  match survey p with
  | Some i =>
      if bool_decide (container p = Some (i_id i)) && bool_decide (idx < List.length (i_questions i))
      then set_question_value idx v else ret tt
  | None => ret tt
  end.

Definition userComplete : M unit :=
  p <- get;;
  match survey p with
  | Some i => if i_on_complete i && bool_decide (container p = Some (i_id i)) then onComplete i else ret tt
  | None => ret tt
  end.

Definition handle (e : event) : M unit :=
  match e with
  | MsgLoadSurvey j => initializeSurvey j
  | MsgUpdateText j => updateText j
  | MsgUpdateChoices j => updateChoices j
  | UserSetValue idx v => userSetValue idx v
  | UserComplete => userComplete
  end.

Definition step (p : page) (e : event) : page := fst (handle e p).

Definition run (p : page) (es : list event) : page := fold_left step es p.

Inductive reachable : page -> Prop :=
| reach_init : reachable init_page
| reach_step p e : reachable p -> reachable (step p e).
End Bridge.

(** ** The invariant of reachable pages *)

Definition ids_ok (p : page) : Prop := forall i, survey p = Some i -> i_id i < next_id p.

Definition container_ok (p : page) : Prop :=
  container p = None \/ exists i, survey p = Some i /\ container p = Some (i_id i).

Definition bridge_inv (p : page) : Prop := page_inv p /\ ids_ok p /\ container_ok p.

Lemma page_inv_ext p p' :
  survey p' = survey p -> questionValues p' = questionValues p -> page_inv p -> page_inv p'.
Proof. intros Hs Hq Hinv i Hi. rewrite Hq. apply Hinv. congruence. Qed.

Lemma touch_bridge p p' : touch p p' -> ids_ok p -> container_ok p -> ids_ok p' /\ container_ok p'.
Proof.
  intros (_ & _ & Hc & _ & Hn & Hs & _) Hid Hco. split.
  - intros i' Hi'. rewrite Hi' in Hs. destruct (survey p) as [i|] eqn:Hp; [|done].
    destruct Hs as (Hid' & _). rewrite Hid', Hn. by apply Hid.
  - destruct Hco as [Hco|(i & Hi & Hco)]; [left; congruence|right].
    rewrite Hi in Hs. destruct (survey p') as [i'|]; [|done]. exists i'. destruct Hs as (Hid' & _).
    split; [done|]. congruence.
Qed.

Lemma inplace_bridge p p' : inplace p p' -> bridge_inv p -> bridge_inv p' /\ store_grows p p'.
Proof.
  intros [Hinv Ht] (Hp & Hid & Hco). destruct (touch_bridge p p' Ht Hid Hco).
  split; [split_and!; auto|]. apply Ht.
Qed.

Lemma preserved_grows p : store_grows p (with_store p (preserved_store p)).
Proof.
  intros n Hn. simpl. unfold preserved_store. destruct (survey p) as [i|]; [|done].
  rewrite preserve_store_lookup. case_bool_decide; [|done]. by destruct (obj_get _ _).
Qed.

Section BridgeLemmas.
Context `{FormEngine}.

Lemma init_error_bridge p p1 e :
  bridge_inv p -> survey p1 = survey p -> questionValues p1 = preserved_store p ->
  next_id p1 = next_id p -> (container p1 = container p \/ container p1 = None) ->
  bridge_inv (init_error p1 e) /\ store_grows p (init_error p1 e).
Proof.
  intros (Hinv & Hid & Hco) Hs Hq Hn Hc. split; [split_and!|].
  - apply (page_inv_ext (with_store p (preserved_store p))); [done|done|by apply preserved_store_inv].
  - intros i Hi. simpl in Hi. rewrite Hs in Hi. simpl. rewrite Hn. by apply Hid.
  - destruct Hc as [Hc|Hc]; [|by left]. destruct Hco as [Hco|(i & Hi & Hco)]; [left; simpl; congruence|].
    right. exists i. simpl. split; congruence.
  - intros m Hm. simpl. rewrite Hq. by apply preserved_grows.
Qed.

Lemma initializeSurvey_bridge p j :
  bridge_inv p -> bridge_inv (fst (initializeSurvey j p)) /\ store_grows p (fst (initializeSurvey j p)).
Proof.
  intros HB. init_cases p j as [Hu|e Hu Hpe|d e Hu Hd Hn Hb|d qs d0 p' Hu Hd Hn Hb E].
  - apply inplace_bridge; [apply with_effects_inplace|done].
  - by apply init_error_bridge; [..|left].
  - by apply init_error_bridge; [..|right].
  - destruct (rebuild_accepts p j d qs d0 Hd Hn Hb)
      as (p'' & i' & E' & Hs & Hid & Hn' & _ & _ & _ & Hc & Hq & Hinv' & _).
    rewrite E in E'. injection E' as <-. split; [split_and!|].
    + done.
    + intros i Hi. rewrite Hs in Hi. injection Hi as <-. lia.
    + right. exists i'. split; [done|]. congruence.
    + intros m Hm. rewrite Hq. by apply (preserved_grows p).
Qed.

Lemma userSetValue_inplace idx v : keeps inplace (userSetValue idx v).
Proof.
  apply keeps_get_dep. intros p0. destruct (survey p0) as [i|]; [|kret].
  destruct (_ && _); [apply keeps_inplace_of, set_question_value_inplace|kret].
Qed.

Lemma userComplete_inplace : keeps inplace userComplete.
Proof.
  apply keeps_get_dep. intros p0. destruct (survey p0) as [i|]; [|kret].
  destruct (_ && _); [apply keeps_inplace_of, emit_inplace|kret].
Qed.

Lemma step_bridge p e : bridge_inv p -> bridge_inv (step p e) /\ store_grows p (step p e).
Proof.
  intros HB. unfold step. destruct e as [j|j|j|idx v|]; simpl.
  - by apply initializeSurvey_bridge.
  - apply inplace_bridge; [apply updateText_inplace|done].
  - apply inplace_bridge; [apply quiet_inplace, updateChoices_quiet|done].
  - apply inplace_bridge; [apply userSetValue_inplace|done].
  - apply inplace_bridge; [apply userComplete_inplace|done].
Qed.
(** Every event but a [loadSurvey] message updates the page in place. *)
Lemma step_touch p e : is_load e = false -> touch p (step p e).
Proof.
  destruct e as [j|j|j|idx v|]; intros He; [done| | | |]; unfold step; simpl.
  - apply updateText_inplace.
  - apply quiet_inplace, updateChoices_quiet.
  - apply userSetValue_inplace.
  - apply userComplete_inplace.
Qed.

Lemma step_next_id p e :
  next_id (step p e) = next_id p \/ (is_load e = true /\ next_id (step p e) = S (next_id p)).
Proof.
  destruct (is_load e) eqn:He.
  - destruct e as [j| | | |]; try discriminate. unfold step. simpl.
    destruct (initializeSurvey_next_id p j); auto.
  - left. apply (step_touch p e He).
Qed.

End BridgeLemmas.

Section Reachable.
Context `{FormEngine}.

Lemma reachable_bridge p : reachable p -> bridge_inv p.
Proof.
  induction 1 as [|p e _ IH]; [|by apply step_bridge].
  split_and!; [by intros ?|by intros ?|by left].
Qed.

Lemma reachable_run p es : reachable p -> reachable (run p es).
Proof. revert p. induction es as [|e es IH]; intros p Hr; [done|]. apply IH. by constructor. Qed.

Lemma run_grows p es : reachable p -> store_grows p (run p es).
Proof.
  revert p. induction es as [|e es IH]; intros p Hr n Hn; [done|]. simpl.
  apply (IH (step p e)); [by constructor|]. by apply (step_bridge p e (reachable_bridge p Hr)).
Qed.

Lemma userSetValue_rendered p i idx q v :
  survey p = Some i -> container p = Some (i_id i) -> i_questions i !! idx = Some q ->
  userSetValue idx v p = set_question_value idx v p.
Proof.
  intros Hs Hc Hq. unfold userSetValue. rewrite bind_get, Hs.
  rewrite (bool_decide_eq_true_2 _ Hc), bool_decide_eq_true_2; [done|]. by eapply lookup_lt_Some.
Qed.
End Reachable.

(** C3: every page reachable from the initial page by any sequence of Shiny
    messages and user events satisfies the invariant: the handlers of the
    live survey are registered, every stored answer of one of its questions
    agrees with its data, its identity is below the next fresh identity,
    and the container shows the live survey or nothing. *)
Theorem reachable_inv `{FormEngine} p : reachable p -> bridge_inv p.
Proof. apply reachable_bridge. Qed.

(** C8: across any sequence of messages and events after a reachable page,
    no entry of the Value Store is ever removed. *)
Theorem store_never_shrinks `{FormEngine} p es n :
  reachable p -> is_Some (questionValues p !! n) -> is_Some (questionValues (run p es) !! n).
Proof. intros Hr. by apply run_grows. Qed.

(** C6: when the user changes the answer of a rendered question of a
    reachable page, the survey data holds the new answer, the Value Store
    records it under the question's name, and the page sends
    [selectedChoice] with the name and the answer to the server. *)
Theorem user_edit_stored `{FormEngine} p i idx q v :
  reachable p -> survey p = Some i -> container p = Some (i_id i) -> i_questions i !! idx = Some q ->
  fe_same (question_value i q) v = false ->
  survey (step p (UserSetValue idx v)) = Some (with_data i (set_data (i_data i) (q_name q) v)) /\
  questionValues (step p (UserSetValue idx v)) !! q_name q = Some v /\
  effects (step p (UserSetValue idx v)) =
    SetInputValue "selectedChoice" (selected_choice (q_name q) v) :: effects p.
Proof.
  intros Hr Hs Hc Hq Hsame. unfold step. simpl. rewrite (userSetValue_rendered p i idx q v Hs Hc Hq).
  destruct (set_question_value_run p i idx q v Hs Hq) as (p1 & -> & Hs1 & Hq1 & He1). simpl.
  destruct (reachable_bridge p Hr) as [Hinv _]. destruct (Hinv i Hs) as ((_ & Hv & _) & _).
  rewrite Hq1, He1, Hv, Hsame. simpl. split_and!; [done| |done]. by rewrite lookup_insert_eq.
Qed.

(** C7. When the user completes the survey on screen, the page sends
    [surveyData] to the server as the [JSON.stringify] text of the survey
    data, and nothing else changes; that text parses back to the data. *)
Theorem user_complete_sends_data `{FormEngine} p i :
  reachable p -> survey p = Some i -> container p = Some (i_id i) ->
  step p UserComplete =
    with_effects p (SetInputValue "surveyData" (JStr (JSON_stringify (JObj (i_data i)))) :: effects p) /\
  JSON_parse (JSON_stringify (JObj (i_data i))) = Some (norm (JObj (i_data i))).
Proof.
  intros Hr Hs Hc. split; [|apply JSON_parse_stringify].
  destruct (reachable_bridge p Hr) as [Hinv _]. destruct (Hinv i Hs) as ((Hon & _) & _).
  unfold step. simpl. unfold userComplete. rewrite bind_get, Hs, Hon, (bool_decide_eq_true_2 _ Hc).
  reflexivity.
Qed.

(** C13. Recovery: from any page, even one left stale by an engine
    failure, one [loadSurvey] of a definition that is not the last one
    loaded and that the engine accepts puts a fresh survey with all three
    handlers on screen, with the questions of the definition. *)
Theorem load_recovers `{FormEngine} p j d qs d0 :
  is_unchanged p j = false -> parsed j = Some d -> d <> JNull -> fe_build d = Ok (qs, d0) ->
  exists i, survey (step p (MsgLoadSurvey j)) = Some i /\ container (step p (MsgLoadSurvey j)) = Some (i_id i) /\
    i_id i = next_id p /\ handlers_on i /\ map q_shape (i_questions i) = map q_shape qs.
Proof.
  intros Hu Hd Hn Hb.
  destruct (rebuild_accepts p j d qs d0 Hd Hn Hb) as (p' & i' & E & Hs & Hid & _ & Hsh & Hh & _ & Hc & _).
  unfold step. simpl. rewrite initializeSurvey_rebuild, (try_catch_run_ok _ _ _ _ _ E) by done.
  exists i'. simpl. split_and!; congruence.
Qed.

(** C28. At most one SurveyJS instance is built per [loadSurvey] message:
    along any sequence of messages and events, the count of instances
    built never decreases and grows by at most the number of
    [loadSurvey] messages of the sequence. *)
Theorem instances_bounded `{FormEngine} p es :
  next_id p <= next_id (run p es) <= next_id p + count_loads es.
Proof.
  revert p. unfold count_loads. induction es as [|e es IH]; intros p; simpl; [lia|].
  specialize (IH (step p e)). destruct (step_next_id p e) as [Hn|[He Hn]].
  - rewrite Hn in IH. destruct (is_load e); simpl; lia.
  - rewrite He. simpl. lia.
Qed.

(** ** A session: load a survey, answer it, reload a changed definition *)

Definition demo_session : list event :=
  [MsgLoadSurvey demo_def; UserSetValue 0 (Some (JStr "a"));
   MsgUpdateChoices (choices_msg "q1" ["a"; "c"]); MsgLoadSurvey demo_def2].

Definition demo_page : page := run init_page [MsgLoadSurvey demo_def].

Definition demo_inst : instance :=
  Eval vm_compute in default (mk_instance 0 [] [] false false false) (survey demo_page).

Definition demo_question : question :=
  Eval vm_compute in default demo_q1 (i_questions demo_inst !! 0).

Lemma reachable_inv_witness : bridge_inv (run init_page demo_session).
Proof. apply reachable_inv. apply (reachable_run init_page demo_session reach_init). Defined.

Lemma store_never_shrinks_witness :
  is_Some (questionValues (run (run init_page (firstn 2 demo_session)) (skipn 2 demo_session)) !! "q1").
Proof.
  apply (store_never_shrinks (run init_page (firstn 2 demo_session)) (skipn 2 demo_session) "q1").
  - apply (reachable_run init_page _ reach_init).
  - vm_compute. by eexists.
Defined.

Lemma user_edit_stored_witness :
  survey (step demo_page (UserSetValue 0 (Some (JStr "a")))) =
    Some (with_data demo_inst (set_data (i_data demo_inst) (q_name demo_question) (Some (JStr "a")))) /\
  questionValues (step demo_page (UserSetValue 0 (Some (JStr "a")))) !! q_name demo_question =
    Some (Some (JStr "a")) /\
  effects (step demo_page (UserSetValue 0 (Some (JStr "a")))) =
    SetInputValue "selectedChoice" (selected_choice (q_name demo_question) (Some (JStr "a")))
      :: effects demo_page.
Proof.
  apply (user_edit_stored demo_page demo_inst 0 demo_question (Some (JStr "a"))).
  - apply (reachable_run init_page _ reach_init).
  - reflexivity.
  - reflexivity.
  - reflexivity.
  - reflexivity.
Defined.

(** Scenario: the reload scenario of the specification: a survey loaded, [q1]
    answered ["a"] by the user, the identical definition loaded again: [q1]
    still holds ["a"], the store records it, and only one instance was
    ever built (the next fresh identity is 1). *)
Example reload_identical_scenario :
  let p := run init_page [MsgLoadSurvey demo_def; UserSetValue 0 (Some (JStr "a")); MsgLoadSurvey demo_def] in
  (survey p ≫= fun i => obj_get (i_data i) "q1") = Some (JStr "a") /\
  questionValues p !! "q1" = Some (Some (JStr "a")) /\ next_id p = 1 /\ (i_id <$> survey p) = Some 0.
Proof. vm_compute. split_and!; reflexivity. Qed.

Lemma user_complete_sends_data_witness :
  step demo_page UserComplete =
    with_effects demo_page (SetInputValue "surveyData" (JStr (JSON_stringify (JObj (i_data demo_inst))))
                            :: effects demo_page) /\
  JSON_parse (JSON_stringify (JObj (i_data demo_inst))) = Some (norm (JObj (i_data demo_inst))).
Proof.
  apply (user_complete_sends_data demo_page demo_inst).
  - apply (reachable_run init_page _ reach_init).
  - reflexivity.
  - reflexivity.
Defined.

(** A second, different definition replaces the first survey. *)
Lemma load_recovers_witness :
  let p := fst (initializeSurvey demo_def init_page) in
  exists i, survey (step p (MsgLoadSurvey demo_def2)) = Some i /\ container (step p (MsgLoadSurvey demo_def2)) = Some (i_id i) /\
    i_id i = next_id p /\ handlers_on i /\
    map q_shape (i_questions i) = map q_shape (map fst (elements_questions 3 (definition_elements demo_def2))).
Proof.
  apply (load_recovers _ demo_def2 demo_def2 _ []); [vm_compute; reflexivity|reflexivity|discriminate|reflexivity].
Defined.
