(* ===== verification/Protocol.v ===== *)
(** The outbound protocol of [src/www/survey.js]: the values the page
    sends to the R server with [Shiny.setInputValue].  The code sends two
    inputs: [surveyData] (line 81, the [JSON.stringify] text of the survey
    data) and [selectedChoice] (lines 93-96, an object with the question's
    name and, when defined, its value).

    [effect_typed] is the shape the server reads for each; [out_ok] is the
    frame "every effect added is well typed", a preorder, and every
    operation of the script is shown to keep it whether it completes or
    throws.  The theorem: every input a session ever sends is well typed. *)

From S2P Require Import Prelude Json Js JsonParse JsonRoundtrip FormEngine SurveyJs Page ValueStore Controller Mutators Bridge.

(** [surveyData] is a JSON text of an object; [selectedChoice] is an
    object whose first member is the string [fieldName] and whose only
    other member, if any, is [selected]; no other input is sent. *)
Definition input_typed (name : string) (v : json) : bool :=
  if String.eqb name "surveyData" then
    match v with
    | JStr s => match JSON_parse s with Some (JObj _) => true | _ => false end
    | _ => false
    end
  else if String.eqb name "selectedChoice" then
    match v with
    | JObj ((k, JStr _) :: rest) =>
        String.eqb k "fieldName" &&
        match rest with
        | [] => true
        | [(k2, _)] => String.eqb k2 "selected"
        | _ => false
        end
    | _ => false
    end
  else false.

Definition effect_typed (e : effect) : bool :=
  match e with
  | SetInputValue n v => input_typed n v
  | _ => true
  end.

(** [p'] extends the effects of [p] by well-typed effects only. *)
Definition out_ok (p p' : page) : Prop :=
  exists es, effects p' = es ++ effects p /\ Forall (fun e => effect_typed e = true) es.

#[export] Instance out_ok_preorder : PreOrder out_ok.
Proof.
  split.
  - intros p. by exists [].
  - intros p q r (es1 & E1 & F1) (es2 & E2 & F2). exists (es2 ++ es1).
    rewrite E2, E1, app_assoc. split; [done|by apply Forall_app].
Qed.

Lemma out_ok_same p p' : effects p' = effects p -> out_ok p p'.
Proof. intros E. by exists []. Qed.

Lemma keeps_out_modify (f : page -> page) :
  (forall p, effects (f p) = effects p) -> keeps out_ok (modify (E := exn) f).
Proof. intros Hf. apply (keeps_modify out_ok). intros p. by apply out_ok_same. Qed.

Lemma selected_choice_typed n v : effect_typed (SetInputValue "selectedChoice" (selected_choice n v)) = true.
Proof. by destruct v. Qed.

(** The text [onComplete] sends parses back to an object. *)
Lemma survey_data_typed o : effect_typed (SetInputValue "surveyData" (JStr (JSON_stringify (JObj o)))) = true.
Proof. unfold effect_typed, input_typed. rewrite JSON_parse_stringify. reflexivity. Qed.

#[export] Hint Resolve selected_choice_typed survey_data_typed : frame.
#[export] Hint Extern 1 (effect_typed _ = true) => reflexivity : frame.
#[export] Hint Extern 2 (keeps out_ok (modify _)) => apply keeps_out_modify; intros; reflexivity : frame.

(** ** Every operation keeps [out_ok] *)

Section Operations.
Context `{FormEngine}.

Lemma emit_out e : effect_typed e = true -> keeps out_ok (emit e).
Proof.
  intros He. apply (keeps_modify out_ok). intros p. exists [e]. split; [done|by constructor].
Qed.

Lemma modify_survey_out f : keeps out_ok (modify_survey f).
Proof. by apply keeps_out_modify. Qed.

#[local] Hint Resolve emit_out modify_survey_out : frame.

Lemma onValueChanged_out n v : keeps out_ok (onValueChanged n v).
Proof. unfold onValueChanged, store_set. keeps_go. Qed.

(** The engine's notification runs in the state [question.value = v]
    left, which the frame does not see: this step is done by hand. *)
Lemma set_question_value_out idx v : keeps out_ok (set_question_value idx v).
Proof.
  intros p. unfold set_question_value. rewrite bind_get. destruct (survey p) as [i|]; [|reflexivity].
  destruct (engine_set_value i idx v) as [i' [[n v']|]]; rewrite bind_put.
  - transitivity (with_survey p (Some i')); [by apply out_ok_same|apply onValueChanged_out].
  - by apply out_ok_same.
Qed.

Lemma new_survey_model_out j : keeps out_ok (new_survey_model j).
Proof.
  intros p. unfold new_survey_model. rewrite bind_get.
  destruct (fe_build j) as [[qs d0]|e]; [rewrite bind_put|]; by apply out_ok_same.
Qed.

#[local] Hint Resolve onValueChanged_out set_question_value_out new_survey_model_out : frame.

Lemma set_el_value_out idx v : keeps out_ok (set_el_value idx v).
Proof. unfold set_el_value. keeps_go. Qed.

#[local] Hint Resolve set_el_value_out : frame.

Lemma onAfterRenderQuestion_out idx : keeps out_ok (onAfterRenderQuestion idx).
Proof. unfold onAfterRenderQuestion, set_display. keeps_go. Qed.

#[local] Hint Resolve onAfterRenderQuestion_out : frame.

Lemma render_survey_out : keeps out_ok render_survey.
Proof. unfold render_survey. keeps_go. Qed.

#[local] Hint Resolve render_survey_out : frame.
End Operations.

#[export] Hint Resolve emit_out modify_survey_out onValueChanged_out set_question_value_out
  new_survey_model_out set_el_value_out onAfterRenderQuestion_out render_survey_out : frame.

Section Handlers.
Context `{FormEngine}.

Lemma initializeSurvey_out j : keeps out_ok (initializeSurvey j).
Proof.
  unfold initializeSurvey, rebuild, preserveQuestionValues, restoreQuestionValues, restore_entry,
    updateDocumentTitle, parse_if_string, store_set, set_display.
  keeps_go.
Qed.

Lemma updateText_out j : keeps out_ok (updateText j).
Proof. unfold updateText, set_display. keeps_go. Qed.

Lemma updateChoices_out j : keeps out_ok (updateChoices j).
Proof. unfold updateChoices, set_choices, set_display. keeps_go. Qed.

Lemma handle_out e : keeps out_ok (handle e).
Proof.
  destruct e; simpl.
  - apply initializeSurvey_out.
  - apply updateText_out.
  - apply updateChoices_out.
  - unfold userSetValue. keeps_go.
  - unfold userComplete, onComplete. keeps_go.
Qed.

Lemma run_out p es : out_ok p (run p es).
Proof.
  revert p. induction es as [|e es IH]; intros p; simpl; [reflexivity|].
  transitivity (step p e); [apply handle_out|apply IH].
Qed.
End Handlers.

(** C10. Every value a session sends to the R server has the shape the
    server reads: whatever messages and user actions arrive, each
    [Shiny.setInputValue] the page has performed is either [surveyData]
    with a JSON text that parses to an object, or [selectedChoice] with an
    object holding the string [fieldName] and at most a [selected]
    member; no other input name is ever set. *)
Theorem outputs_typed `{FormEngine} es :
  Forall (fun e => effect_typed e = true) (effects (run init_page es)).
Proof. destruct (run_out init_page es) as (es' & E & F). rewrite E. simpl. by rewrite app_nil_r. Qed.
