(* ===== verification/SurveyData.v ===== *)
(** The survey data as a JavaScript object, and the path of an answer from
    the screen to the server.

    [survey.data] is a JavaScript object: each question name is an own
    property at most once.  The engine builds it so ([fe_build_wf]) and
    every write of [survey.js] goes through [question.value = v], an
    assignment or a [delete] of one property.  [data_ok] is the frame "the
    data of the live survey stays a well-formed object"; every handler
    keeps it, so every reachable page has it.

    With it, the Bridge, the engine's value setter, [onComplete] and
    [JSON.stringify]/[JSON.parse] compose: an answer the user gives to a
    rendered question is, after completion, in the object the server
    decodes from [surveyData]. *)

From S2P Require Import Prelude Json Js JsonParse JsonRoundtrip FormEngine SurveyJs Page ValueStore Controller Mutators Bridge.

Definition data_wf (p : page) : Prop := forall i, survey p = Some i -> obj_wf (i_data i).

Definition data_ok (p p' : page) : Prop := data_wf p -> data_wf p'.

#[export] Instance data_ok_preorder : PreOrder data_ok.
Proof. split; [intros p Hp; exact Hp|]. intros p q r H1 H2 Hp. by apply H2, H1. Qed.

Lemma keeps_data_modify (f : page -> page) :
  (forall p, survey (f p) = survey p) -> keeps data_ok (modify (E := exn) f).
Proof. intros Hf. apply (keeps_modify data_ok). intros p Hp i Hi. rewrite Hf in Hi. by apply Hp. Qed.

#[export] Hint Extern 2 (keeps data_ok (modify _)) => apply keeps_data_modify; intros; reflexivity : frame.

Section Operations.
Context `{FormEngine}.

Lemma modify_survey_data f : (forall i, i_data (f i) = i_data i) -> keeps data_ok (modify_survey f).
Proof.
  intros Hf. apply (keeps_modify data_ok). intros p Hp i Hi. simpl in Hi.
  destruct (survey p) as [i0|] eqn:Hs; simpl in Hi; [|done]. injection Hi as <-. rewrite Hf. by apply Hp.
Qed.

Lemma emit_data e : keeps data_ok (emit e).
Proof. by apply keeps_data_modify. Qed.

Lemma store_set_data n v : keeps data_ok (store_set n v).
Proof. by apply keeps_data_modify. Qed.

(** A fresh instance whose data is an object becomes the live survey. *)
Lemma install_data inst : obj_wf (i_data inst) -> keeps data_ok (modify (E := exn) (fun p => with_survey p (Some inst))).
Proof. intros Hw. apply (keeps_modify data_ok). intros p _ i [= <-]. done. Qed.

Lemma set_data_wf o n v : obj_wf o -> obj_wf (set_data o n v).
Proof. destruct v; simpl; auto with js. Qed.

Lemma set_question_value_data idx v : keeps data_ok (set_question_value idx v).
Proof.
  intros p Hp. unfold set_question_value. rewrite bind_get. destruct (survey p) as [i|] eqn:Hs; [|done].
  assert (Hw : obj_wf (i_data (fst (engine_set_value i idx v)))).
  { unfold engine_set_value. destruct (i_questions i !! idx); simpl; [apply set_data_wf|]; by apply Hp. }
  destruct (engine_set_value i idx v) as [i' [[n v']|]]; rewrite bind_put; simpl in Hw.
  - by apply (keeps_data_modify _ (fun _ => eq_refl)); intros ? [= <-].
  - by intros ? [= <-].
Qed.

(** The instance [new Survey.Model] returns has an object as its data. *)
Lemma new_survey_model_bind_data {B} j (k : instance -> M B) :
  (forall inst, obj_wf (i_data inst) -> keeps data_ok (k inst)) ->
  keeps data_ok (bind (new_survey_model j) k).
Proof.
  intros Hk. apply (keeps_bind_post data_ok (fun inst => obj_wf (i_data inst))); [| |exact Hk].
  - intros p Hp. unfold new_survey_model. rewrite bind_get.
    destruct (fe_build j) as [[qs d0]|e]; [rewrite bind_put|]; exact Hp.
  - intros p. unfold new_survey_model. rewrite bind_get.
    destruct (fe_build j) as [[qs d0]|e] eqn:Hb; [rewrite bind_put|done]. exact (fe_build_wf _ _ _ Hb).
Qed.
End Operations.

#[export] Hint Resolve emit_data store_set_data install_data set_question_value_data : frame.
#[export] Hint Extern 2 (keeps data_ok (modify_survey _)) => apply modify_survey_data; intros; reflexivity : frame.

Ltac data_go :=
  repeat first [ apply new_survey_model_bind_data; intros ? ? | keeps_step ].

Section Handlers.
Context `{FormEngine}.

Lemma render_survey_data : keeps data_ok render_survey.
Proof. unfold render_survey, onAfterRenderQuestion, set_display, set_el_value. data_go. Qed.

#[local] Hint Resolve render_survey_data : frame.

Lemma initializeSurvey_data j : keeps data_ok (initializeSurvey j).
Proof.
  unfold initializeSurvey, rebuild, preserveQuestionValues, restoreQuestionValues, restore_entry,
    updateDocumentTitle, parse_if_string, set_display.
  data_go.
Qed.

Lemma handle_data e : keeps data_ok (handle e).
Proof.
  destruct e; cbn [handle].
  - apply initializeSurvey_data.
  - unfold updateText, set_display, set_el_value. data_go.
  - unfold updateChoices, set_choices, set_display. data_go.
  - unfold userSetValue. data_go.
  - unfold userComplete, onComplete. data_go.
Qed.

Lemma step_data p e : data_ok p (step p e).
Proof. apply handle_data. Qed.

Lemma reachable_data p : reachable p -> data_wf p.
Proof.
  induction 1 as [|p e _ IH]; [by intros i [=]|]. exact (step_data p e IH).
Qed.
End Handlers.

Section Composition.
Context `{FormEngine}.

Lemma userComplete_step p i :
  survey p = Some i -> i_on_complete i = true -> container p = Some (i_id i) ->
  step p UserComplete =
    with_effects p (SetInputValue "surveyData" (JStr (JSON_stringify (JObj (i_data i)))) :: effects p).
Proof.
  intros Hs Hon Hc. unfold step. simpl. unfold userComplete.
  by rewrite bind_get, Hs, Hon, (bool_decide_eq_true_2 _ Hc).
Qed.

(** The user's answer to a rendered question: the page after it keeps the
    container and has the answer in the data of the live survey. *)
Lemma userSetValue_step p i idx q v :
  survey p = Some i -> container p = Some (i_id i) -> i_questions i !! idx = Some q ->
  survey (step p (UserSetValue idx v)) = Some (with_data i (set_data (i_data i) (q_name q) v)) /\
  container (step p (UserSetValue idx v)) = container p.
Proof.
  intros Hs Hc Hq. unfold step. simpl. rewrite (userSetValue_rendered p i idx q v Hs Hc Hq).
  destruct (set_question_value_run p i idx q v Hs Hq) as (p1 & E1 & Hs1 & _).
  destruct (set_question_value_inplace idx v p) as (p1' & E1' & _ & (_ & _ & Hc1 & _)).
  rewrite E1 in E1' |- *. injection E1' as <-. done.
Qed.
End Composition.

(** C11. An answer reaches the server: on a reachable page, when the user
    answers a rendered question [q] with [v] and then completes the
    survey, the page sends [surveyData] with a text that [JSON.parse]
    decodes to an object whose property [q] is [v] (in its normal form,
    the only form a decoded value has).  This composes the Bridge, the
    engine's value setter, the completion handler and the JSON encoder. *)
Theorem answer_reaches_server `{FormEngine} p i idx q v :
  reachable p -> survey p = Some i -> container p = Some (i_id i) -> i_questions i !! idx = Some q ->
  exists s o,
    effects (run p [UserSetValue idx (Some v); UserComplete]) =
      SetInputValue "surveyData" (JStr s) :: effects (step p (UserSetValue idx (Some v))) /\
    JSON_parse s = Some (JObj o) /\ obj_get o (q_name q) = Some (norm v).
Proof.
  intros Hr Hs Hc Hq.
  destruct (reachable_bridge p Hr) as [Hinv _]. destruct (Hinv i Hs) as ((Hon & _) & _).
  destruct (userSetValue_step p i idx q (Some v) Hs Hc Hq) as [Hs1 Hc1].
  set (i1 := with_data i (set_data (i_data i) (q_name q) (Some v))) in Hs1.
  assert (Hw : obj_wf (i_data i1)) by apply (set_data_wf _ _ _ (reachable_data p Hr i Hs)).
  destruct (norm_obj_get (i_data i1) (q_name q) Hw) as (o & Hn & Ho).
  exists (JSON_stringify (JObj (i_data i1))), o. unfold run. simpl fold_left.
  rewrite (userComplete_step _ i1 Hs1 Hon); [|by rewrite Hc1].
  split_and!; [done|by rewrite JSON_parse_stringify, Hn|].
  rewrite Ho. simpl. by rewrite obj_get_set, String.eqb_refl.
Qed.

Lemma answer_reaches_server_witness :
  exists s o,
    effects (run demo_page [UserSetValue 0 (Some (JStr "a")); UserComplete]) =
      SetInputValue "surveyData" (JStr s) :: effects (step demo_page (UserSetValue 0 (Some (JStr "a")))) /\
    JSON_parse s = Some (JObj o) /\ obj_get o (q_name demo_question) = Some (norm (JStr "a")).
Proof.
  apply (answer_reaches_server demo_page demo_inst 0 demo_question (JStr "a")).
  - apply (reachable_run init_page _ reach_init).
  - reflexivity.
  - reflexivity.
  - reflexivity.
Defined.
