(* ===== verification/Lifecycle.v ===== *)
(** The Survey Lifecycle Controller as the specification describes it
    (section 4.3): a state machine with the states [Empty] and [Loaded d],
    [d] the last accepted definition, and a transition [load] per
    [loadSurvey] message.  The abstract machine [lc_next] says only what a
    message does to that state; [lc_abs] reads the state off a concrete
    page ([survey] and [lastLoadedSurveyJSON] of [src/www/survey.js]).

    Theorem: the concrete [step] of [Bridge.v] refines the abstract
    machine: along every sequence of messages and user events the page's
    lifecycle state is the one the abstract machine computes.  In
    particular the mutators, user events and every failed load leave the
    lifecycle state alone, and an identical definition is loaded once. *)

From S2P Require Import Prelude Json Js JsonParse ChangeDetector FormEngine Page ValueStore Controller Mutators Bridge.

Inductive lc_state : Type :=
| Empty
| Loaded (d : json).

Section Lifecycle.
Context `{FormEngine}.

(** Whether the engine builds a survey from a definition. *)
Definition accepts (d : json) : bool :=
  match fe_build d with Ok _ => true | Throw _ => false end.

(** The abstract [load]: an identical definition is a no-op; otherwise a
    payload that parses to a non-null definition the engine accepts
    becomes the loaded definition, and anything else changes nothing. *)
Definition lc_load (s : lc_state) (j : json) : lc_state :=
  let accept :=
    match parsed j with
    | Some d => if bool_decide (d <> JNull) && accepts d then Loaded d else s
    | None => s
    end in
  match s with
  | Loaded d0 => if bool_decide (d0 = j) then s else accept
  | Empty => accept
  end.

Definition lc_next (s : lc_state) (e : event) : lc_state :=
  match e with
  | MsgLoadSurvey j => lc_load s j
  | _ => s
  end.

(** The lifecycle state of a page. *)
Definition lc_abs (p : page) : lc_state :=
  match survey p with
  | None => Empty
  | Some _ => Loaded (lastLoadedSurveyJSON p)
  end.

(** Nothing is recorded as loaded while there is no survey, and the
    recorded definition of a live survey is one the engine accepted. *)
Definition lc_inv (p : page) : Prop :=
  (survey p = None -> lastLoadedSurveyJSON p = JNull) /\
  (forall i, survey p = Some i -> lastLoadedSurveyJSON p <> JNull /\ accepts (lastLoadedSurveyJSON p) = true).
End Lifecycle.

(** ** The concrete operations on the lifecycle state *)

Section LifecycleLemmas.
Context `{FormEngine}.

Lemma touch_lc p p' : touch p p' -> lc_abs p' = lc_abs p /\ (lc_inv p -> lc_inv p').
Proof.
  intros (Hl & _ & _ & _ & _ & Hs & _). unfold lc_abs, lc_inv. rewrite Hl.
  destruct (survey p) as [i|], (survey p') as [i'|]; simpl in Hs; try done;
    (split; [done|]); intros [Hn Hi]; split; intros; try done; eauto.
Qed.

(** A falsy payload that parses is its own definition. *)
Lemma falsy_parsed j d : truthy j = false -> parsed j = Some d -> d = j.
Proof.
  destruct j as [| | | s | |]; simpl; intros Ht Hp; try congruence.
  destruct s; [vm_compute in Hp; discriminate|discriminate].
Qed.

Lemma is_unchanged_true p j :
  is_unchanged p j = true -> truthy (lastLoadedSurveyJSON p) = true /\ lastLoadedSurveyJSON p = j.
Proof. unfold is_unchanged. intros [Ht He]%andb_true_iff. split; [done|]. by apply areJSONsEqual_sound. Qed.

(** The abstract [load] when the payload does not change the state. *)
Lemma lc_load_stay s j :
  (forall d, parsed j = Some d -> d <> JNull -> accepts d = false) -> lc_load s j = s.
Proof.
  intros Hno. unfold lc_load.
  assert (Ha : match parsed j with
               | Some d => if bool_decide (d <> JNull) && accepts d then Loaded d else s
               | None => s end = s).
  { destruct (parsed j) as [d|]; [|done]. case_bool_decide as Hn; [|done]. by rewrite (Hno d eq_refl Hn). }
  destruct s as [|d0]; [done|]. case_bool_decide; [done|]. exact Ha.
Qed.

Lemma initializeSurvey_lc p j :
  lc_inv p -> lc_inv (fst (initializeSurvey j p)) /\ lc_abs (fst (initializeSurvey j p)) = lc_load (lc_abs p) j.
Proof.
  intros [Hnone Hsome]. init_cases p j as [Hu|e Hu Hpe|d e Hu Hd Hn Hb|d qs d0 p' Hu Hd Hn Hb E].
  - destruct (is_unchanged_true p j Hu) as [Ht Hl]. unfold lc_abs, lc_inv. simpl.
    destruct (survey p) as [i|] eqn:Hs; [|by rewrite Hnone in Ht].
    split; [split; [done|exact Hsome]|]. unfold lc_load. by rewrite bool_decide_eq_true_2.
  - split; [split; [exact Hnone|exact Hsome]|]. symmetry. apply lc_load_stay.
    intros d Hd Hn. destruct Hpe as [Hpe|Hpe]; congruence.
  - split; [split; [exact Hnone|exact Hsome]|]. symmetry. apply lc_load_stay.
    intros d' Hd' _. rewrite Hd in Hd'. injection Hd' as <-. unfold accepts. by rewrite Hb.
  - destruct (rebuild_accepts p j d qs d0 Hd Hn Hb) as (p'' & i' & E' & Hs' & _ & _ & _ & _ & Hl & _).
    rewrite E in E'. injection E' as <-.
    assert (Hacc : accepts d = true) by (unfold accepts; by rewrite Hb).
    split.
    { split; [by rewrite Hs'|]. intros i2 _. by rewrite Hl. }
    unfold lc_abs at 1. rewrite Hs', Hl.
    assert (Hgo : match parsed j with
                  | Some d' => if bool_decide (d' <> JNull) && accepts d' then Loaded d' else lc_abs p
                  | None => lc_abs p end = Loaded d).
    { rewrite Hd, Hacc, bool_decide_eq_true_2 by done. done. }
    symmetry. unfold lc_load. destruct (lc_abs p) as [|d1] eqn:Ha; [exact Hgo|].
    case_bool_decide as Hj; [|exact Hgo]. subst j.
    unfold lc_abs in Ha. destruct (survey p) as [i|]; [|done]. injection Ha as Hl0.
    unfold is_unchanged in Hu. rewrite Hl0, areJSONsEqual_refl, andb_true_r in Hu.
    by rewrite (falsy_parsed d1 d Hu Hd).
Qed.

(** One step of the Bridge on the lifecycle state. *)
Lemma step_lc p e : lc_inv p -> lc_inv (step p e) /\ lc_abs (step p e) = lc_next (lc_abs p) e.
Proof.
  intros Hinv. destruct (is_load e) eqn:He.
  - destruct e as [j| | | |]; try discriminate. apply initializeSurvey_lc, Hinv.
  - destruct (touch_lc p (step p e) (step_touch p e He)) as [Ha Hi].
    split; [by apply Hi|]. rewrite Ha. by destruct e.
Qed.
End LifecycleLemmas.

Section LifecycleRun.
Context `{FormEngine}.

Lemma lc_inv_init : lc_inv init_page.
Proof. split; [done|]. intros i [=]. Qed.

Lemma run_lc p es :
  lc_inv p -> lc_inv (run p es) /\ lc_abs (run p es) = fold_left lc_next es (lc_abs p).
Proof.
  revert p. induction es as [|e es IH]; intros p Hi; [done|]. simpl.
  destruct (step_lc p e Hi) as [Hi' Ha]. rewrite <- Ha. exact (IH _ Hi').
Qed.
End LifecycleRun.

(** C9. Refinement of the survey lifecycle: for every sequence of Shiny
    messages and user actions, the page reached by the Bridge, seen
    through [lc_abs] (no survey, or a survey built from the definition
    recorded in [lastLoadedSurveyJSON]), is the state the abstract machine
    [lc_next] reaches from [Empty].  A load keeps a loaded survey when the
    payload equals the recorded definition, replaces it when the payload
    parses to a non-null definition the engine accepts, and otherwise
    leaves the state as it was; every other event leaves it unchanged. *)
Theorem lifecycle_refinement `{FormEngine} es :
  lc_abs (run init_page es) = fold_left lc_next es Empty.
Proof. exact (proj2 (run_lc init_page es lc_inv_init)). Qed.
