(* ===== verification/Legacy.v ===== *)
(** The superseded variant [src/www/_survey.js]: its [initializeSurvey]
    (lines 4-26) and its two Shiny message handlers (lines 29-31 and
    34-43), on the same [page] state as [survey.js] and for an arbitrary
    [FormEngine].

    This variant keeps no Value Store, has no idempotence check and
    registers only the completion handler: every load builds a fresh
    instance whose answers are the definition's defaults.  Its
    [updateChoices] shows each raw value as its own label and never reads
    the answer.  There is no [updateText] handler: [legacy_handle]
    dispatches the Bridge's events to the two handlers and ignores an
    [updateText] message.

    Theorems: a load resets the answers; [updateChoices] relabels nothing;
    along any session the Value Store stays empty and [selectedChoice] is
    never sent; on a fresh page the current [initializeSurvey] agrees with
    this one on every payload but [null]. *)

From S2P Require Import Prelude Json Js JsonParse ChangeDetector FormEngine SurveyJs Page ValueStore Controller Mutators Bridge.

(** [data.choices.map(choice => ({ value: choice, text: choice }))]: any
    element is accepted; a payload without an array throws. *)
Definition legacy_choices (cs : option json) : outcome exn (list choice) :=
  match cs with
  | None => Throw (TypeError "Cannot read properties of undefined (reading 'map')")
  | Some JNull => Throw (TypeError "Cannot read properties of null (reading 'map')")
  | Some (JArr xs) => Ok (map (fun c => mk_choice c c) xs)
  | Some _ => Throw (TypeError "data.choices.map is not a function")
  end.

(** Only [survey.onComplete] is registered (lines 15-17). *)
Definition legacy_handlers (i : instance) : instance :=
  mk_instance (i_id i) (i_questions i) (i_data i) true false false.

Section Legacy.
Context `{FormEngine}.

(** [initializeSurvey], lines 4-26. *)
Definition initializeSurvey_legacy (surveyJSON : json) : M unit :=
  try_catch
    (j <- parse_if_string surveyJSON;;
     inst <- new_survey_model j;;
     modify (fun p => with_survey p (Some inst));;
     modify_survey legacy_handlers;;
     modify (fun p => with_container p (i_id <$> survey p));;
     render_survey)
    (fun e => emit (ConsoleExn "Error initializing survey:" e)).

(** [Shiny.addCustomMessageHandler("updateChoices", ...)], lines 34-43. *)
Definition updateChoices_legacy (data : json) : M unit :=
  p <- get;;
  match survey p with
  | None => ret tt
  | Some i =>
      t <- lift (get_prop data "targetQuestion");;
      match getQuestionByName_js i t with
      | None => ret tt
      | Some idx =>
          cs <- lift (get_prop data "choices");;
          items <- lift (legacy_choices cs);;
          set_choices idx items;;
          render_survey
      end
  end.

(** The handlers of lines 28-43 and the user events, on the Bridge's
    [event]s.  No [updateText] handler is registered: Shiny hands a custom
    message only to the handlers registered for its type, so such a
    message runs no code of the script. *)
Definition legacy_handle (e : event) : M unit :=
  match e with
  | MsgLoadSurvey j => initializeSurvey_legacy j
  | MsgUpdateText _ => ret tt
  | MsgUpdateChoices j => updateChoices_legacy j
  | UserSetValue idx v => userSetValue idx v
  | UserComplete => userComplete
  end.

End Legacy.

Section LegacyLemmas.
Context `{FormEngine}.

(** Without an after-render handler, a render pass only marks the
    survey rendered. *)
Lemma render_survey_plain p i :
  survey p = Some i -> i_on_after_render i = false ->
  render_survey p = (with_effects p (Rendered (i_id i) :: effects p), Ok tt).
Proof. intros Hs Ha. unfold render_survey, render_targets. rewrite bind_get, Hs, Ha. done. Qed.

(** The page after a successful legacy load. *)
Definition legacy_loaded (p : page) (qs : list question) (d0 : obj) : page :=
  let i := mk_instance (next_id p) qs d0 true false false in
  with_effects (with_container (with_survey (with_next_id p (S (next_id p))) (Some i)) (Some (next_id p)))
    (Rendered (next_id p) :: effects p).

Lemma legacy_load_ok p j d qs d0 :
  parsed j = Some d -> fe_build d = Ok (qs, d0) ->
  initializeSurvey_legacy j p = (legacy_loaded p qs d0, Ok tt).
Proof.
  intros Hd Hb. unfold initializeSurvey_legacy.
  apply try_catch_run_ok.
  rewrite (bind_run_ok _ _ _ _ _ (parse_if_string_ok _ _ _ Hd)), (bind_run_ok _ _ _ _ _ (new_survey_model_ok _ _ _ _ Hb)).
  unfold modify_survey. rewrite !bind_modify. simpl. by rewrite (render_survey_plain _ (legacy_handlers (mk_instance (next_id p) qs d0 false false false))).
Qed.

(** A legacy load that fails, in the parse or in the engine, only logs
    the error it caught: nothing was written before the throw. *)
Lemma initializeSurvey_legacy_err p j :
  parsed j = None \/ (exists d e, parsed j = Some d /\ fe_build d = Throw e) ->
  exists e, fst (initializeSurvey_legacy j p) = with_effects p (ConsoleExn "Error initializing survey:" e :: effects p).
Proof.
  unfold initializeSurvey_legacy. intros [Hd|(d & e & Hd & Hb)].
  - destruct (parse_if_string_err j p Hd) as [e He]. exists e.
    by rewrite (try_catch_run_throw _ _ _ _ _ (bind_run_throw _ _ _ _ _ He)).
  - exists e. rewrite (try_catch_run_throw _ _ _ p e); [done|].
    rewrite (bind_run_ok _ _ _ _ _ (parse_if_string_ok _ _ p Hd)). by apply bind_run_throw, new_survey_model_err.
Qed.

(** [null] is never the recorded definition of a skip: it is falsy, and
    only [null] stringifies like it. *)
Lemma is_unchanged_null p : is_unchanged p JNull = false.
Proof.
  unfold is_unchanged. destruct (truthy (lastLoadedSurveyJSON p)) eqn:Ht; [|done].
  destruct (areJSONsEqual _ _) eqn:He; [|done]. apply areJSONsEqual_sound in He. by rewrite He in Ht.
Qed.

(** With an empty Value Store the after-render handler finds nothing to
    write back. *)
Lemma onAfterRenderQuestion_empty p idx : questionValues p = ∅ -> onAfterRenderQuestion idx p = (p, Ok tt).
Proof.
  intros He. unfold onAfterRenderQuestion. rewrite bind_get.
  destruct (current_question p idx) as [q|]; [|done]. destruct (String.eqb _ _); [|done].
  by rewrite He, lookup_empty.
Qed.

Lemma for_each_noop {A} (xs : list A) (f : A -> M unit) p :
  (forall x, f x p = (p, Ok tt)) -> for_each xs f p = (p, Ok tt).
Proof. intros Hf. induction xs as [|x xs IH]; [done|]. simpl. by rewrite (bind_run_ok _ _ _ _ _ (Hf x)). Qed.

(** On a page with no survey and an empty store, a rebuild that gets
    through installs the engine's instance unchanged, the three handlers
    registered: the restore and render passes have nothing to write. *)
Lemma rebuild_fresh p j d qs d0 :
  survey p = None -> questionValues p = ∅ -> parsed j = Some d -> d <> JNull -> fe_build d = Ok (qs, d0) ->
  survey (fst (rebuild j p)) = Some (mk_instance (next_id p) qs d0 true true true) /\
  next_id (fst (rebuild j p)) = S (next_id p).
Proof.
  intros Hs He Hd Hnn Hb. unfold rebuild.
  rewrite (bind_run_ok _ _ _ _ _ (preserve_run p)), (bind_run_ok _ _ _ _ _ (parse_if_string_ok _ _ _ Hd)),
    (bind_run_ok _ _ _ _ _ (updateDocumentTitle_ok _ _ Hnn)).
  unfold emit, modify_survey. rewrite !bind_modify, (bind_run_ok _ _ _ _ _ (new_survey_model_ok _ _ _ _ Hb)),
    !bind_modify.
  unfold preserved_store. rewrite Hs, He.
  unfold restoreQuestionValues. rewrite bind_assoc, bind_get. simpl. rewrite map_to_list_empty. simpl.
  rewrite bind_ret_l, !bind_modify. unfold render_survey. rewrite bind_assoc, bind_get. simpl.
  unfold emit. rewrite bind_assoc, bind_modify.
  erewrite bind_run_ok; cycle 1.
  { apply for_each_noop. intros x. by apply onAfterRenderQuestion_empty. }
  simpl. split; reflexivity.
Qed.

End LegacyLemmas.

(** C29. A legacy load of a definition the engine accepts builds a fresh
    instance, with only the completion handler, whose answers are the
    definition's defaults, whatever the previous survey held: reloading
    even the same definition discards every answer.  Nothing else of the
    page changes but the fresh identity, the container and the render. *)
Theorem initializeSurvey_legacy_resets `{FormEngine} p j d qs d0 :
  parsed j = Some d -> fe_build d = Ok (qs, d0) ->
  initializeSurvey_legacy j p = (legacy_loaded p qs d0, Ok tt).
Proof.
  intros Hd Hb. unfold initializeSurvey_legacy.
  apply try_catch_run_ok.
  rewrite (bind_run_ok _ _ _ _ _ (parse_if_string_ok _ _ _ Hd)), (bind_run_ok _ _ _ _ _ (new_survey_model_ok _ _ _ _ Hb)).
  unfold modify_survey. rewrite !bind_modify. simpl. by rewrite (render_survey_plain _ (legacy_handlers (mk_instance (next_id p) qs d0 false false false))).
Qed.

(** C30. The legacy [updateChoices] on a target of the live survey replaces
    its choices by one item per raw element, the element being both value
    and label (underscores are kept), leaves the answers alone and renders
    the survey again. *)
Theorem updateChoices_legacy_sets `{FormEngine} p i data t idx xs :
  survey p = Some i -> i_on_after_render i = false ->
  get_prop data "targetQuestion" = Ok t -> getQuestionByName_js i t = Some idx ->
  get_prop data "choices" = Ok (Some (JArr xs)) ->
  updateChoices_legacy data p =
    (with_effects (with_survey p (Some (update_question i idx (q_with_choices (map (fun c => mk_choice c c) xs)))))
       (Rendered (i_id i) :: effects p), Ok tt).
Proof.
  intros Hs Ha Ht Hi Hc. unfold updateChoices_legacy. rewrite bind_get, Hs.
  rewrite Ht, bind_lift_ok, Hi, Hc, bind_lift_ok. cbn [legacy_choices]. rewrite bind_lift_ok.
  unfold set_choices, modify_survey. rewrite bind_modify. simpl. rewrite Hs. simpl.
  by rewrite (render_survey_plain _ (update_question i idx (q_with_choices (map (fun c => mk_choice c c) xs)))).
Qed.

(** Scenario: the legacy script loses answers on reload: [q1] answered ["a"],
    then the very same definition loaded again, and [q1] has no value. *)
Example legacy_reload_discards_answer :
  let p1 := fst (initializeSurvey_legacy demo_def init_page) in
  let p2 := fst (set_question_value 0 (Some (JStr "a")) p1) in
  let p3 := fst (initializeSurvey_legacy demo_def p2) in
  (survey p2 ≫= fun i => obj_get (i_data i) "q1") = Some (JStr "a") /\
  (survey p3 ≫= fun i => obj_get (i_data i) "q1") = None /\ questionValues p3 = ∅.
Proof. vm_compute. split_and!; reflexivity. Qed.

Lemma initializeSurvey_legacy_resets_witness :
  initializeSurvey_legacy demo_def demo_loaded =
    (legacy_loaded demo_loaded (map fst (elements_questions 3 (definition_elements demo_def))) [], Ok tt).
Proof. apply (initializeSurvey_legacy_resets demo_loaded demo_def demo_def); reflexivity. Defined.

Lemma updateChoices_legacy_sets_witness :
  let p1 := fst (initializeSurvey_legacy demo_def init_page) in
  exists i, survey p1 = Some i /\
  updateChoices_legacy (choices_msg "q1" ["a_1"; "b_1"]) p1 =
    (with_effects (with_survey p1 (Some (update_question i 0
       (q_with_choices (map (fun c => mk_choice c c) [JStr "a_1"; JStr "b_1"])))))
       (Rendered (i_id i) :: effects p1), Ok tt).
Proof.
  eexists. split; [vm_compute; reflexivity|].
  apply (updateChoices_legacy_sets _ _ _ (Some (JStr "q1")) 0 [JStr "a_1"; JStr "b_1"]); vm_compute; reflexivity.
Defined.

(** C31. On a fresh page (no survey, an empty Value Store, no truthy
    definition recorded), the current [initializeSurvey] and the legacy
    one, taken as the reference, build the same survey from every payload
    that is not [null]: the same identity, questions and data, the only
    difference being that the current script also registers its
    value-changed and after-render handlers; both consume the same
    instance identities.  A payload that fails fails in both. *)
Theorem load_matches_legacy `{FormEngine} p j :
  survey p = None -> questionValues p = ∅ -> truthy (lastLoadedSurveyJSON p) = false ->
  parsed j <> Some JNull ->
  legacy_handlers <$> survey (fst (initializeSurvey j p)) = survey (fst (initializeSurvey_legacy j p)) /\
  next_id (fst (initializeSurvey j p)) = next_id (fst (initializeSurvey_legacy j p)).
Proof.
  intros Hs He Ht Hnull.
  init_cases p j as [Hu|e Hu Hpe|d e Hu Hd Hn Hb|d qs d0 p' Hu Hd Hn Hb E].
  - unfold is_unchanged in Hu. by rewrite Ht in Hu.
  - destruct Hpe as [Hpe|Hpe]; [|done].
    destruct (initializeSurvey_legacy_err p j (or_introl Hpe)) as [e' ->]. simpl. by rewrite Hs.
  - destruct (initializeSurvey_legacy_err p j (or_intror (ex_intro _ d (ex_intro _ e (conj Hd Hb))))) as [e' ->].
    simpl. by rewrite Hs.
  - destruct (rebuild_fresh p j d qs d0 Hs He Hd Hn Hb) as [Hs' Hi']. rewrite E in Hs', Hi'. simpl in Hs', Hi'.
    rewrite (legacy_load_ok p j d qs d0 Hd Hb), Hs', Hi'. done.
Qed.

Lemma load_matches_legacy_witness :
  legacy_handlers <$> survey (fst (initializeSurvey demo_def init_page)) =
    survey (fst (initializeSurvey_legacy demo_def init_page)) /\
  next_id (fst (initializeSurvey demo_def init_page)) = next_id (fst (initializeSurvey_legacy demo_def init_page)).
Proof. apply (load_matches_legacy init_page demo_def); [reflexivity|reflexivity|reflexivity|discriminate]. Defined.

(** C32. A [null] payload, where the two scripts part, for any page and
    any engine that accepts [null] (SurveyJS builds an empty survey from
    it): the current script runs the preserve pass, then reads
    [surveyJSON.title] of [null], a [TypeError] that its [catch] logs with
    a trace, and builds nothing; the legacy script hands [null] straight to
    [new Survey.Model] and shows the survey it builds. *)
Theorem null_payload_scripts_differ `{FormEngine} p qs d0 :
  fe_build JNull = Ok (qs, d0) ->
  initializeSurvey JNull p =
    (init_error (with_store p (preserved_store p))
       (TypeError ("Cannot read properties of null (reading " +:+ "title" +:+ ")")), Ok tt) /\
  initializeSurvey_legacy JNull p = (legacy_loaded p qs d0, Ok tt).
Proof.
  intros Hb. split; [|by apply (legacy_load_ok p JNull JNull)].
  unfold initializeSurvey, try_catch. rewrite bind_get, is_unchanged_null. unfold rebuild.
  by rewrite (bind_run_ok _ _ _ _ _ (preserve_run p)), (bind_run_ok _ _ _ _ _ (parse_if_string_ok JNull JNull _ eq_refl)).
Qed.

Lemma null_payload_scripts_differ_witness :
  initializeSurvey JNull demo_page =
    (init_error (with_store demo_page (preserved_store demo_page))
       (TypeError ("Cannot read properties of null (reading " +:+ "title" +:+ ")")), Ok tt) /\
  initializeSurvey_legacy JNull demo_page = (legacy_loaded demo_page [] [], Ok tt).
Proof. apply null_payload_scripts_differ. reflexivity. Defined.
